(** * BMS prototype: severity classifier and charge / health estimators

    A shallow embedding of [inc/Constants.h], [inc/BMS_States.h],
    [src/BatteryCell.cpp], [src/SafetyManager.cpp] and [src/BMS.cpp].

    Every quantity of the program is a C++ [float].  It is modelled as an
    IEEE 754 binary32 value: the Standard Library's [spec_float] with a
    24 bit significand and exponent bound 128.  Each arithmetic operator
    of the source is one operation rounded to nearest-even (no extended
    precision, no fused multiply-add), each comparison is the IEEE
    comparison (false as soon as an operand is NaN), and a decimal
    literal is the nearest binary32.

    What the sensor simulator returns during a tick is an input of
    [BMS.update]; the simulator itself is modelled over an abstract
    random generator.  What the program prints is kept as a list of
    lines. *)

From Stdlib Require Import ZArith Bool List Lia Permutation.
From Stdlib Require Import Floats.SpecFloat.
Import ListNotations.

Local Open Scope Z_scope.

(** ** binary32 arithmetic *)

Module F32.

Definition prec : Z := 24.
Definition emax : Z := 128.

Definition float := spec_float.

Definition add : float -> float -> float := SFadd prec emax.
Definition sub : float -> float -> float := SFsub prec emax.
Definition mul : float -> float -> float := SFmul prec emax.
Definition div : float -> float -> float := SFdiv prec emax.
Definition neg : float -> float := SFopp.

(** The four relational operators of C++ on [float]. *)
Definition lt (a b : float) : bool :=
  match SFcompare a b with Some Lt => true | _ => false end.
Definition le (a b : float) : bool :=
  match SFcompare a b with Some (Lt | Eq) => true | _ => false end.
Definition gt (a b : float) : bool :=
  match SFcompare a b with Some Gt => true | _ => false end.
Definition ge (a b : float) : bool :=
  match SFcompare a b with Some (Gt | Eq) => true | _ => false end.

Definition is_nan (a : float) : bool :=
  match a with S754_nan => true | _ => false end.

(** An integer, rounded to binary32. *)
Definition of_Z (z : Z) : float := binary_normalize prec emax z 0 false.

(** The literal [n / d] written in decimal in the source ([0.98f] is
    [lit 98 100]): numerator and denominator are exact in binary32 and
    the division rounds once, as the compiler's conversion does. *)
Definition lit (n d : Z) : float := div (of_Z n) (of_Z d).

(** Every value a [float] variable can hold is a valid binary32. *)
Definition valid (a : float) : bool := valid_binary prec emax a.

End F32.

Abbreviation float := F32.float.

Declare Scope f32_scope.
Delimit Scope f32_scope with f32.
Infix "+" := F32.add : f32_scope.
Infix "-" := F32.sub : f32_scope.
Infix "*" := F32.mul : f32_scope.
Infix "/" := F32.div : f32_scope.
Notation "- x" := (F32.neg x) : f32_scope.
Infix "<" := F32.lt : f32_scope.
Infix "<=" := F32.le : f32_scope.
Infix ">" := F32.gt : f32_scope.
Infix ">=" := F32.ge : f32_scope.

(** ** inc/Constants.h *)

Definition NUM_CELLS : nat := 4.

Definition NOMINAL_CAPACITY_MAH : float := Eval vm_compute in F32.lit 3000 1.
Definition CHARGE_EFFICIENCY : float := Eval vm_compute in F32.lit 98 100.
Definition SOC_FULL_THRESHOLD_PERCENT : float := Eval vm_compute in F32.lit 98 1.
Definition SOC_EMPTY_THRESHOLD_PERCENT : float := Eval vm_compute in F32.lit 10 1.

Definition MIN_VOLTAGE_NORMAL : float := Eval vm_compute in F32.lit 300 100.
Definition MIN_VOLTAGE_WARNING : float := Eval vm_compute in F32.lit 280 100.
Definition MIN_VOLTAGE_CRITICAL : float := Eval vm_compute in F32.lit 250 100.
Definition MIN_VOLTAGE_FAULT : float := Eval vm_compute in F32.lit 100 100.

Definition MAX_VOLTAGE_NORMAL : float := Eval vm_compute in F32.lit 420 100.
Definition MAX_VOLTAGE_WARNING : float := Eval vm_compute in F32.lit 430 100.
Definition MAX_VOLTAGE_CRITICAL : float := Eval vm_compute in F32.lit 440 100.
Definition MAX_VOLTAGE_FAULT : float := Eval vm_compute in F32.lit 480 100.

Definition MIN_TEMP_NORMAL : float := Eval vm_compute in F32.lit 0 1.
Definition MIN_TEMP_WARNING : float := Eval vm_compute in (- F32.lit 5 1)%f32.
Definition MIN_TEMP_CRITICAL : float := Eval vm_compute in (- F32.lit 10 1)%f32.
Definition MIN_TEMP_FAULT : float := Eval vm_compute in (- F32.lit 20 1)%f32.

Definition MAX_TEMP_NORMAL : float := Eval vm_compute in F32.lit 45 1.
Definition MAX_TEMP_WARNING : float := Eval vm_compute in F32.lit 50 1.
Definition MAX_TEMP_CRITICAL : float := Eval vm_compute in F32.lit 60 1.
Definition MAX_TEMP_FAULT : float := Eval vm_compute in F32.lit 70 1.

Definition IDLE_CURRENT_THRESHOLD_A : float := Eval vm_compute in F32.lit 5 100.
Definition MAX_DISCHARGE_CURRENT_NORMAL_A : float := Eval vm_compute in F32.lit 10 1.
Definition MAX_DISCHARGE_CURRENT_WARNING_A : float := Eval vm_compute in F32.lit 15 1.
Definition MAX_DISCHARGE_CURRENT_CRITICAL_A : float := Eval vm_compute in F32.lit 20 1.

Definition MAX_CHARGE_CURRENT_NORMAL_A : float := Eval vm_compute in F32.lit 2 1.
Definition MAX_CHARGE_CURRENT_WARNING_A : float := Eval vm_compute in F32.lit 3 1.
Definition MAX_CHARGE_CURRENT_CRITICAL_A : float := Eval vm_compute in F32.lit 4 1.

Definition SOH_THRESHOLD_WARNING : float := Eval vm_compute in F32.lit 80 1.
Definition SOH_THRESHOLD_CRITICAL : float := Eval vm_compute in F32.lit 60 1.

(** ** inc/BMS_States.h *)

Inductive SystemState : Set := NORMAL | WARNING | CRITICAL | FAULT.

Definition SystemState_eqb (a b : SystemState) : bool :=
  match a, b with
  | NORMAL, NORMAL | WARNING, WARNING | CRITICAL, CRITICAL | FAULT, FAULT => true
  | _, _ => false
  end.

(** ** inc/BatteryCell.h, src/BatteryCell.cpp *)

Module BatteryCell.

Record t : Set := Build {
  m_id : Z;
  m_voltage : float;
  m_temperature : float
}.

(** [BatteryCell::BatteryCell()] *)
Definition default : t := Build 0 (S754_zero false) (S754_zero false).

Definition getId (c : t) : Z := m_id c.
Definition getVoltage (c : t) : float := m_voltage c.
Definition getTemperature (c : t) : float := m_temperature c.

Definition setVoltage (voltage : float) (c : t) : t :=
  Build (m_id c) voltage (m_temperature c).
Definition setTemperature (temperature : float) (c : t) : t :=
  Build (m_id c) (m_voltage c) temperature.

End BatteryCell.

(** ** Console output

    What the program prints is kept as a list of lines, one constructor
    per message of the source; the numbers are kept as values rather than
    formatted. *)

Inductive ConsoleLine : Set :=
| StateTransition (from to : SystemState)
| CycleIncremented (totalCycles : float)
| CellReading (id : Z) (voltage temperature : float)
| PackCurrentReading (current : float)
| StateLog (s : SystemState)
| FaultAlarm
| StatusLine (s : SystemState) (soc soh : float) (charging : bool).

(** ** inc/SafetyManager.h, src/SafetyManager.cpp *)

Module SafetyManager.

Local Open Scope f32_scope.
Local Open Scope bool_scope.

Record t : Set := Build { m_currentState : SystemState }.

(** [SafetyManager::SafetyManager()] *)
Definition init : t := Build NORMAL.

Definition isVoltageNormal (voltage : float) : bool :=
  (voltage >= MIN_VOLTAGE_NORMAL) && (voltage <= MAX_VOLTAGE_NORMAL).

Definition isVoltageWarning (voltage : float) : bool :=
  ((voltage >= MIN_VOLTAGE_WARNING) && (voltage < MIN_VOLTAGE_NORMAL)) ||
  ((voltage > MAX_VOLTAGE_NORMAL) && (voltage <= MAX_VOLTAGE_WARNING)).

Definition isVoltageCritical (voltage : float) : bool :=
  ((voltage >= MIN_VOLTAGE_CRITICAL) && (voltage < MIN_VOLTAGE_WARNING)) ||
  ((voltage > MAX_VOLTAGE_WARNING) && (voltage <= MAX_VOLTAGE_CRITICAL)).

Definition isVoltageFault (voltage : float) : bool :=
  (voltage < MIN_VOLTAGE_FAULT) || (voltage > MAX_VOLTAGE_FAULT).

Definition isTemperatureNormal (temperature : float) : bool :=
  (temperature >= MIN_TEMP_NORMAL) && (temperature <= MAX_TEMP_NORMAL).

Definition isTemperatureWarning (temperature : float) : bool :=
  ((temperature >= MIN_TEMP_WARNING) && (temperature < MIN_TEMP_NORMAL)) ||
  ((temperature > MAX_TEMP_NORMAL) && (temperature <= MAX_TEMP_WARNING)).

Definition isTemperatureCritical (temperature : float) : bool :=
  ((temperature >= MIN_TEMP_CRITICAL) && (temperature < MIN_TEMP_WARNING)) ||
  ((temperature > MAX_TEMP_WARNING) && (temperature <= MAX_TEMP_CRITICAL)).

Definition isTemperatureFault (temperature : float) : bool :=
  (temperature < MIN_TEMP_FAULT) || (temperature > MAX_TEMP_FAULT).

Definition isCurrentNormal (current : float) : bool :=
  if current > IDLE_CURRENT_THRESHOLD_A then
    current <= MAX_CHARGE_CURRENT_NORMAL_A
  else if current < - IDLE_CURRENT_THRESHOLD_A then
    current >= - MAX_DISCHARGE_CURRENT_NORMAL_A
  else true.

Definition isCurrentWarning (current : float) : bool :=
  if current > IDLE_CURRENT_THRESHOLD_A then
    (current > MAX_CHARGE_CURRENT_NORMAL_A) &&
    (current <= MAX_CHARGE_CURRENT_WARNING_A)
  else if current < - IDLE_CURRENT_THRESHOLD_A then
    (current < - MAX_DISCHARGE_CURRENT_NORMAL_A) &&
    (current >= - MAX_DISCHARGE_CURRENT_WARNING_A)
  else false.

Definition isCurrentCritical (current : float) : bool :=
  if current > IDLE_CURRENT_THRESHOLD_A then
    (current > MAX_CHARGE_CURRENT_WARNING_A) &&
    (current <= MAX_CHARGE_CURRENT_CRITICAL_A)
  else if current < - IDLE_CURRENT_THRESHOLD_A then
    (current < - MAX_DISCHARGE_CURRENT_WARNING_A) &&
    (current >= - MAX_DISCHARGE_CURRENT_CRITICAL_A)
  else false.

Definition isSoHNormal (soh : float) : bool := soh >= SOH_THRESHOLD_WARNING.

Definition isSoHWarning (soh : float) : bool :=
  (soh >= SOH_THRESHOLD_CRITICAL) && (soh < SOH_THRESHOLD_WARNING).

Definition isSoHCritical (soh : float) : bool := soh < SOH_THRESHOLD_CRITICAL.

(** The three loops of [evaluate] have the shape
    [for (cell : cells) if (test cell) { proposedState = X; break; }];
    [existsb] is that loop's test. *)
Definition cellFault (cell : BatteryCell.t) : bool :=
  isVoltageFault (BatteryCell.getVoltage cell) ||
  isTemperatureFault (BatteryCell.getTemperature cell).

Definition cellCritical (cell : BatteryCell.t) : bool :=
  isVoltageCritical (BatteryCell.getVoltage cell) ||
  isTemperatureCritical (BatteryCell.getTemperature cell).

Definition cellWarning (cell : BatteryCell.t) : bool :=
  isVoltageWarning (BatteryCell.getVoltage cell) ||
  isTemperatureWarning (BatteryCell.getTemperature cell).

(** The local variable [proposedState] of [evaluate], at the point where
    it is compared with [m_currentState]. *)
Definition proposedState (cells : list BatteryCell.t)
           (packCurrent stateOfHealth_percent : float) : SystemState :=
  let s0 := NORMAL in
  let s1 := if existsb cellFault cells then FAULT else s0 in
  let s2 :=
    if negb (SystemState_eqb s1 FAULT) then
      if isCurrentCritical packCurrent || isSoHCritical stateOfHealth_percent
      then CRITICAL
      else if existsb cellCritical cells then CRITICAL else s1
    else s1 in
  let s3 :=
    if SystemState_eqb s2 NORMAL then
      if isCurrentWarning packCurrent || isSoHWarning stateOfHealth_percent
      then WARNING
      else if existsb cellWarning cells then WARNING else s2
    else s2 in
  s3.

(** [SafetyManager::evaluate]: the manager after the call and the lines
    it printed. *)
Definition evaluate (cells : list BatteryCell.t)
           (packCurrent stateOfHealth_percent : float) (sm : t)
  : t * list ConsoleLine :=
  let proposed := proposedState cells packCurrent stateOfHealth_percent in
  if negb (SystemState_eqb proposed (m_currentState sm)) then
    (Build proposed, [StateTransition (m_currentState sm) proposed])
  else (sm, []).

Definition getCurrentState (sm : t) : SystemState := m_currentState sm.

End SafetyManager.

(** ** inc/SensorSimulator.h: the measurement source

    The simulator draws random numbers; one tick's answers are an input
    of the model. *)

Record SensorReadings : Set := {
  readVoltage : nat -> float;
  readTemperature : nat -> float;
  readCurrent : float
}.

(** ** inc/BMS.h, src/BMS.cpp *)

Module BMS.

Local Open Scope f32_scope.
Local Open Scope bool_scope.

Record t : Set := Build {
  m_safetyManager : SafetyManager.t;
  m_cells : list BatteryCell.t;
  m_packCurrent : float;
  m_accumulatedCharge_mAh : float;
  m_stateOfCharge_percent : float;
  m_stateOfHealth_percent : float;
  m_chargeCycles : float;
  m_wasFull : bool;
  m_wasEmpty : bool;
  m_isChargingFlag : bool
}.

(** [BMS::BMS()] *)
Definition init : t :=
  Build SafetyManager.init
        (map (fun i => BatteryCell.Build (Z.of_nat i) (F32.lit 0 1) (F32.lit 0 1))
             (seq 0 NUM_CELLS))
        (F32.lit 0 1)
        (NOMINAL_CAPACITY_MAH * F32.lit 5 10)
        (F32.lit 50 1)
        (F32.lit 100 1)
        (F32.lit 0 1)
        false false false.

(** The local [charge_change_mAh] of [updateSoC] where it is added to
    the accumulator. *)
Definition charge_change_mAh (packCurrent deltaTime_s : float) : float :=
  let current_mA := packCurrent * F32.lit 1000 1 in
  let charge_change := current_mA * (deltaTime_s / F32.lit 3600 1) in
  if current_mA > IDLE_CURRENT_THRESHOLD_A * F32.lit 1000 1
  then charge_change * CHARGE_EFFICIENCY
  else charge_change.

Definition updateSoC (deltaTime_s : float) (b : t) : t :=
  let acc0 := m_accumulatedCharge_mAh b
              + charge_change_mAh (m_packCurrent b) deltaTime_s in
  let acc :=
    if acc0 > NOMINAL_CAPACITY_MAH then NOMINAL_CAPACITY_MAH
    else if acc0 < F32.lit 0 1 then F32.lit 0 1
    else acc0 in
  let soc0 := (acc / NOMINAL_CAPACITY_MAH) * F32.lit 100 1 in
  let soc1 := if soc0 > F32.lit 100 1 then F32.lit 100 1 else soc0 in
  let soc := if soc1 < F32.lit 0 1 then F32.lit 0 1 else soc1 in
  Build (m_safetyManager b) (m_cells b) (m_packCurrent b)
        acc soc
        (m_stateOfHealth_percent b) (m_chargeCycles b)
        (m_wasFull b) (m_wasEmpty b) (m_isChargingFlag b).

Definition updateSoH (b : t) : t * list ConsoleLine :=
  let wasFull1 :=
    if m_stateOfCharge_percent b >= SOC_FULL_THRESHOLD_PERCENT
    then true else m_wasFull b in
  let wasEmpty1 :=
    if m_stateOfCharge_percent b <= SOC_EMPTY_THRESHOLD_PERCENT
    then true else m_wasEmpty b in
  let '(cycles, wasFull2, wasEmpty2, out) :=
    if wasFull1 && wasEmpty1 then
      let cycles := m_chargeCycles b + F32.lit 5 10 in
      (cycles, false, false, [CycleIncremented cycles])
    else (m_chargeCycles b, wasFull1, wasEmpty1, []) in
  let soh0 := F32.lit 100 1 - (cycles * F32.lit 1 10) in
  let soh1 := if soh0 > F32.lit 100 1 then F32.lit 100 1 else soh0 in
  let soh := if soh1 < F32.lit 0 1 then F32.lit 0 1 else soh1 in
  (Build (m_safetyManager b) (m_cells b) (m_packCurrent b)
         (m_accumulatedCharge_mAh b) (m_stateOfCharge_percent b)
         soh cycles wasFull2 wasEmpty2 (m_isChargingFlag b),
   out).

(** The first loop of [update]: cell [i] takes the voltage and the
    temperature read for it. *)
Fixpoint readCells (r : SensorReadings) (i : nat)
         (cells : list BatteryCell.t) : list BatteryCell.t :=
  match cells with
  | [] => []
  | c :: rest =>
      BatteryCell.setTemperature (readTemperature r i)
        (BatteryCell.setVoltage (readVoltage r i) c)
      :: readCells r (S i) rest
  end.

Fixpoint printCells (i : nat) (cells : list BatteryCell.t)
  : list ConsoleLine :=
  match cells with
  | [] => []
  | c :: rest =>
      CellReading (Z.of_nat i) (BatteryCell.getVoltage c)
                  (BatteryCell.getTemperature c)
      :: printCells (S i) rest
  end.

Definition stateAction (s : SystemState) : ConsoleLine :=
  match s with
  | FAULT => FaultAlarm
  | _ => StateLog s
  end.

(** [BMS::update]: one tick, fed with the readings the simulator gives
    during it. *)
Definition update (deltaTime_s : float) (r : SensorReadings) (b : t)
  : t * list ConsoleLine :=
  let cells := readCells r 0 (m_cells b) in
  let packCurrent := readCurrent r in
  let charging :=
    if packCurrent > IDLE_CURRENT_THRESHOLD_A then true
    else if packCurrent < - IDLE_CURRENT_THRESHOLD_A then false
    else m_isChargingFlag b in
  let b1 := Build (m_safetyManager b) cells packCurrent
                  (m_accumulatedCharge_mAh b) (m_stateOfCharge_percent b)
                  (m_stateOfHealth_percent b) (m_chargeCycles b)
                  (m_wasFull b) (m_wasEmpty b) charging in
  let b2 := updateSoC deltaTime_s b1 in
  let '(b3, out3) := updateSoH b2 in
  let '(sm, out4) :=
    SafetyManager.evaluate (m_cells b3) (m_packCurrent b3)
                           (m_stateOfHealth_percent b3)
                           (m_safetyManager b3) in
  let currentState := SafetyManager.getCurrentState sm in
  (Build sm (m_cells b3) (m_packCurrent b3)
         (m_accumulatedCharge_mAh b3) (m_stateOfCharge_percent b3)
         (m_stateOfHealth_percent b3) (m_chargeCycles b3)
         (m_wasFull b3) (m_wasEmpty b3) (m_isChargingFlag b3),
   printCells 0 cells ++ [PackCurrentReading packCurrent]
     ++ out3 ++ out4
     ++ [stateAction currentState;
         StatusLine currentState (m_stateOfCharge_percent b3)
                    (m_stateOfHealth_percent b3) (m_isChargingFlag b3)]).

Definition getCurrentState (b : t) : SystemState :=
  SafetyManager.getCurrentState (m_safetyManager b).
Definition getSoC (b : t) : float := m_stateOfCharge_percent b.
Definition getSoH (b : t) : float := m_stateOfHealth_percent b.
Definition getPackCurrent (b : t) : float := m_packCurrent b.
Definition isCharging (b : t) : bool := m_isChargingFlag b.

End BMS.

(** ** Runs and reachable states

    [updateSoH] reads the state of charge that [updateSoC] left; a run of
    its calls is given by the states of charge the calls find. *)

Definition setSoC (soc : float) (b : BMS.t) : BMS.t :=
  BMS.Build (BMS.m_safetyManager b) (BMS.m_cells b) (BMS.m_packCurrent b)
            (BMS.m_accumulatedCharge_mAh b) soc
            (BMS.m_stateOfHealth_percent b) (BMS.m_chargeCycles b)
            (BMS.m_wasFull b) (BMS.m_wasEmpty b) (BMS.m_isChargingFlag b).

Definition healthCall (soc : float) (b : BMS.t) : BMS.t :=
  fst (BMS.updateSoH (setSoC soc b)).

Fixpoint healthRun (socs : list float) (b : BMS.t) : BMS.t :=
  match socs with
  | [] => b
  | soc :: rest => healthRun rest (healthCall soc b)
  end.

Definition setCharging (flag : bool) (b : BMS.t) : BMS.t :=
  BMS.Build (BMS.m_safetyManager b) (BMS.m_cells b) (BMS.m_packCurrent b)
            (BMS.m_accumulatedCharge_mAh b) (BMS.m_stateOfCharge_percent b)
            (BMS.m_stateOfHealth_percent b) (BMS.m_chargeCycles b)
            (BMS.m_wasFull b) (BMS.m_wasEmpty b) flag.

(** The states the program can be in: the constructed one and whatever a
    tick makes of a reachable one. *)
Inductive reachable : BMS.t -> Prop :=
| reachable_init : reachable BMS.init
| reachable_update : forall deltaTime_s r b,
    reachable b -> reachable (fst (BMS.update deltaTime_s r b)).

(** The state a tick hands to [updateSoH]: the readings stored, the
    charging flag set, [updateSoC] done. *)
Definition beforeHealth (dt : float) (r : SensorReadings) (b : BMS.t)
  : BMS.t :=
  BMS.updateSoC dt
    (BMS.Build (BMS.m_safetyManager b) (BMS.readCells r 0 (BMS.m_cells b))
       (readCurrent r) (BMS.m_accumulatedCharge_mAh b)
       (BMS.m_stateOfCharge_percent b) (BMS.m_stateOfHealth_percent b)
       (BMS.m_chargeCycles b) (BMS.m_wasFull b) (BMS.m_wasEmpty b)
       (if (readCurrent r > IDLE_CURRENT_THRESHOLD_A)%f32 then true
        else if (readCurrent r < - IDLE_CURRENT_THRESHOLD_A)%f32 then false
        else BMS.m_isChargingFlag b)).

(** ** Rounding and cycle counts

    The last step of [binary_round_aux]: what a significand and an
    exponent become once rounding is done. *)
Definition finish (sx : bool) (m e : Z) : spec_float :=
  match m with
  | Z0 => S754_zero sx
  | Zpos p => if e <=? F32.emax - F32.prec then S754_finite sx p e
              else S754_infinity sx
  | Zneg _ => S754_nan
  end.

(** The state of health that [updateSoH] stores for a cycle count. *)
Definition sohOf (cycles : float) : float :=
  let soh0 := (F32.lit 100 1 - cycles * F32.lit 1 10)%f32 in
  let soh1 := if (soh0 > F32.lit 100 1)%f32 then F32.lit 100 1 else soh0 in
  if (soh1 < F32.lit 0 1)%f32 then F32.lit 0 1 else soh1.

(** [k / 2] as a binary32: the count after [k] half cycles. *)
Definition halves (k : Z) : float :=
  binary_normalize F32.prec F32.emax k (-1) false.

(** A cycle count of at least 1024: a normal positive number of exponent
    at least -13, or the positive infinity. *)
Definition bigCycles (c : float) : Prop :=
  c = S754_infinity false \/
  exists m e, c = S754_finite false m e /\
              2 ^ 23 <= Z.pos m < 2 ^ 24 /\ -13 <= e.

(** The cycle counts the program can reach. *)
Definition countedCycles (c : float) : Prop :=
  (exists k, 0 <= k <= 2048 /\ c = halves k) \/ bigCycles c.

Definition float_eqb (a b : float) : bool :=
  match a, b with
  | S754_zero s, S754_zero s' => Bool.eqb s s'
  | S754_infinity s, S754_infinity s' => Bool.eqb s s'
  | S754_nan, S754_nan => true
  | S754_finite s m e, S754_finite s' m' e' =>
      Bool.eqb s s' && Pos.eqb m m' && Z.eqb e e'
  | _, _ => false
  end.

(** For the count [k / 2]: the next half cycle gives [(k + 1) / 2], the
    state of health does not go up, and it is a number of [0, 100]. *)
Definition halfCycleCheck (k : Z) : bool :=
  float_eqb (halves k + F32.lit 5 10)%f32 (halves (k + 1)) &&
  (sohOf (halves (k + 1)) <= sohOf (halves k))%f32 &&
  ((sohOf (halves k) >= F32.lit 0 1)%f32 &&
   (sohOf (halves k) <= F32.lit 100 1)%f32 &&
   (sohOf (halves k) <= sohOf (halves k))%f32).

(** ** Test packs *)

Definition cellAt (voltage temperature : float) (id : Z) : BatteryCell.t :=
  BatteryCell.Build id voltage temperature.

(** Four cells at 3.7 V and 25 C. *)
Definition nominalPack : list BatteryCell.t :=
  map (cellAt (F32.lit 37 10) (F32.lit 25 1)) [0; 1; 2; 3].

(** The same pack with cell 2 at [voltage]. *)
Definition packWithCell2 (voltage : float) : list BatteryCell.t :=
  [cellAt (F32.lit 37 10) (F32.lit 25 1) 0;
   cellAt (F32.lit 37 10) (F32.lit 25 1) 1;
   cellAt voltage (F32.lit 25 1) 2;
   cellAt (F32.lit 37 10) (F32.lit 25 1) 3].

Definition constantReadings (voltage temperature current : float)
  : SensorReadings :=
  {| readVoltage := fun _ => voltage;
     readTemperature := fun _ => temperature;
     readCurrent := current |}.

(** For the count [k / 2]: it is a number and the next half cycle does
    not lower it. *)
Definition halfCycleOrder (k : Z) : bool :=
  ((halves (k + 1) >= halves k)%f32 && (halves k >= halves k)%f32)%bool.

(** A zero or a finite number: neither NaN nor an infinity. *)
Definition isNumber (a : float) : bool :=
  match a with
  | S754_zero _ | S754_finite _ _ _ => true
  | _ => false
  end.

(** The value of a binary32 number in units of [2^-149], the spacing of
    the smallest subnormals: an integer for every valid number.  One
    half is [2^148] units. *)
Definition inUnits (a : float) : option Z :=
  match a with
  | S754_zero _ => Some 0
  | S754_finite s m e =>
      Some ((if s then -1 else 1) * Z.pos m * 2 ^ (e + 149))
  | _ => None
  end.

(** A tick of one hour at [current], the cells at 3.7 V and 25 C. *)
Definition hourTick (current : float) (b : BMS.t) : BMS.t :=
  fst (BMS.update (F32.lit 3600 1)
         (constantReadings (F32.lit 37 10) (F32.lit 25 1) current) b).

(** An hour at 5 A and an hour at -25 A, the ends of the range of the
    simulator's current: the pack is charged to the full, then
    emptied. *)
Definition swing (b : BMS.t) : BMS.t :=
  hourTick (- F32.lit 25 1)%f32 (hourTick (F32.lit 5 1) b).

(** The program after [n] swings. *)
Definition swings (n : N) : BMS.t := N.iter n swing BMS.init.

(** ** src/main.cpp

    [main] constructs the BMS and calls [update] forever with the tick
    interval of [Constants.h] converted to seconds; [mainLoop n] is the
    state after [n] rounds of the loop, round [k] being fed the readings
    [readings k]. *)

Definition BMS_UPDATE_INTERVAL_MS : Z := 1000.

Definition main_deltaTime_s : float :=
  (F32.of_Z BMS_UPDATE_INTERVAL_MS / F32.lit 1000 1)%f32.

Fixpoint mainLoop (n : nat) (readings : nat -> SensorReadings) : BMS.t :=
  match n with
  | O => BMS.init
  | S k => fst (BMS.update main_deltaTime_s (readings k) (mainLoop k readings))
  end.

(** ** inc/SensorSimulator.h, src/SensorSimulator.cpp

    The generator [m_rng] is a state of some type [G]; a distribution
    object applied to it yields a number and the next state of the
    generator.  [Distributions G] holds the four distribution members;
    the messages the simulator prints are kept as [SimLine]s. *)

Definition SIM_VOLTAGE_MIN : float := Eval vm_compute in F32.lit 200 100.
Definition SIM_VOLTAGE_MAX : float := Eval vm_compute in F32.lit 460 100.
Definition SIM_TEMP_MIN : float := Eval vm_compute in (- F32.lit 15 1)%f32.
Definition SIM_TEMP_MAX : float := Eval vm_compute in F32.lit 65 1.
Definition SIM_CURRENT_MIN : float := Eval vm_compute in (- F32.lit 25 1)%f32.
Definition SIM_CURRENT_MAX : float := Eval vm_compute in F32.lit 5 1.
Definition SIM_FAULT_PROBABILITY : float := Eval vm_compute in F32.lit 2 100.

Inductive SimLine : Set :=
| LowVoltageInjected (cellId : nat)
| HighVoltageInjected (cellId : nat)
| ExtremeVoltageInjected (cellId : nat)
| LowTemperatureInjected (cellId : nat)
| HighTemperatureInjected (cellId : nat)
| ExtremeTemperatureInjected (cellId : nat)
| HighDischargeInjected
| HighChargeInjected
| ExtremeCurrentInjected.

Module SensorSimulator.

Local Open Scope f32_scope.

Record Distributions (G : Type) : Type := {
  m_voltageDist : G -> float * G;
  m_tempDist : G -> float * G;
  m_currentDist : G -> float * G;
  m_faultDist : G -> float * G
}.

Arguments m_voltageDist {G} _ _.
Arguments m_tempDist {G} _ _.
Arguments m_currentDist {G} _ _.
Arguments m_faultDist {G} _ _.

(** [SensorSimulator::readVoltage]: the voltage returned, the message
    printed if a fault was injected, and the generator after the call. *)
Definition readVoltage {G : Type} (D : Distributions G) (cellId : nat)
           (m_rng : G) : float * list SimLine * G :=
  let '(voltage, g1) := m_voltageDist D m_rng in
  let '(chance, g2) := m_faultDist D g1 in
  if chance < SIM_FAULT_PROBABILITY then
    let '(fault_val, g3) := m_faultDist D g2 in
    if fault_val < F32.lit 33 100 then
      let '(d, g4) := m_faultDist D g3 in
      (MIN_VOLTAGE_CRITICAL - d * F32.lit 2 10,
       [LowVoltageInjected cellId], g4)
    else if fault_val < F32.lit 66 100 then
      let '(d, g4) := m_faultDist D g3 in
      (MAX_VOLTAGE_CRITICAL + d * F32.lit 2 10,
       [HighVoltageInjected cellId], g4)
    else
      let '(d, g4) := m_faultDist D g3 in
      (if d < F32.lit 5 10 then MIN_VOLTAGE_FAULT - F32.lit 1 10
       else MAX_VOLTAGE_FAULT + F32.lit 1 10,
       [ExtremeVoltageInjected cellId], g4)
  else (voltage, [], g2).

(** [SensorSimulator::readTemperature] *)
Definition readTemperature {G : Type} (D : Distributions G) (cellId : nat)
           (m_rng : G) : float * list SimLine * G :=
  let '(temperature, g1) := m_tempDist D m_rng in
  let '(chance, g2) := m_faultDist D g1 in
  if chance < SIM_FAULT_PROBABILITY then
    let '(fault_val, g3) := m_faultDist D g2 in
    if fault_val < F32.lit 33 100 then
      let '(d, g4) := m_faultDist D g3 in
      (MIN_TEMP_CRITICAL - d * F32.lit 5 1,
       [LowTemperatureInjected cellId], g4)
    else if fault_val < F32.lit 66 100 then
      let '(d, g4) := m_faultDist D g3 in
      (MAX_TEMP_CRITICAL + d * F32.lit 5 1,
       [HighTemperatureInjected cellId], g4)
    else
      let '(d, g4) := m_faultDist D g3 in
      (if d < F32.lit 5 10 then MIN_TEMP_FAULT - F32.lit 1 1
       else MAX_TEMP_FAULT + F32.lit 1 1,
       [ExtremeTemperatureInjected cellId], g4)
  else (temperature, [], g2).

(** [SensorSimulator::readCurrent] *)
Definition readCurrent {G : Type} (D : Distributions G) (m_rng : G)
  : float * list SimLine * G :=
  let '(current, g1) := m_currentDist D m_rng in
  let '(chance, g2) := m_faultDist D g1 in
  if chance < SIM_FAULT_PROBABILITY then
    let '(fault_val, g3) := m_faultDist D g2 in
    if fault_val < F32.lit 33 100 then
      let '(d, g4) := m_faultDist D g3 in
      (- (MAX_DISCHARGE_CURRENT_CRITICAL_A + d * F32.lit 5 1),
       [HighDischargeInjected], g4)
    else if fault_val < F32.lit 66 100 then
      let '(d, g4) := m_faultDist D g3 in
      (MAX_CHARGE_CURRENT_CRITICAL_A + d * F32.lit 1 1,
       [HighChargeInjected], g4)
    else
      let '(d, g4) := m_faultDist D g3 in
      (if d < F32.lit 5 10 then - F32.lit 50 1 else F32.lit 10 1,
       [ExtremeCurrentInjected], g4)
  else (current, [], g2).

(** The reads of the first loop of [BMS::update], in the order the loop
    makes them: for each of [n] cells from cell [i] on, its voltage and
    then its temperature. *)
Fixpoint readCells {G : Type} (D : Distributions G) (n i : nat) (m_rng : G)
  : list (float * float) * list SimLine * G :=
  match n with
  | O => ([], [], m_rng)
  | S n' =>
      let '(voltage, out1, g1) := readVoltage D i m_rng in
      let '(temperature, out2, g2) := readTemperature D i g1 in
      let '(rest, out3, g3) := readCells D n' (S i) g2 in
      ((voltage, temperature) :: rest, out1 ++ out2 ++ out3, g3)
  end.

(** All the reads of one tick: the cells, then the pack current. *)
Definition readings {G : Type} (D : Distributions G) (m_rng : G)
  : SensorReadings * list SimLine * G :=
  let '(cells, out1, g1) := readCells D NUM_CELLS 0 m_rng in
  let '(current, out2, g2) := readCurrent D g1 in
  (Build_SensorReadings
     (fun i => fst (nth i cells (F32.lit 0 1, F32.lit 0 1)))
     (fun i => snd (nth i cells (F32.lit 0 1, F32.lit 0 1)))
     current,
   out1 ++ out2, g2).

End SensorSimulator.

(** The messages of [readVoltage] and [readTemperature]. *)
Definition cellLine (l : SimLine) : bool :=
  match l with
  | HighDischargeInjected | HighChargeInjected | ExtremeCurrentInjected => false
  | _ => true
  end.

(** [BMS::update] with the simulator member as the source of the
    readings: the BMS and the generator after the tick, and what the
    simulator printed. *)
Definition simulatedUpdate {G : Type} (D : SensorSimulator.Distributions G)
           (deltaTime_s : float) (b : BMS.t) (m_rng : G)
  : BMS.t * G * list SimLine :=
  let '(r, out, g) := SensorSimulator.readings D m_rng in
  (fst (BMS.update deltaTime_s r b), g, out).

(** [n] rounds of the loop of [main] on the simulator. *)
Fixpoint simulatedLoop {G : Type} (D : SensorSimulator.Distributions G)
         (n : nat) (m_rng : G) : BMS.t * G :=
  match n with
  | O => (BMS.init, m_rng)
  | S k =>
      let '(b, g) := simulatedLoop D k m_rng in
      fst (simulatedUpdate D main_deltaTime_s b g)
  end.

(** A generator for examples: the list of the numbers still to be
    drawn, in hundredths; 0 once it is used up. *)
Definition draw (g : list Z) : float * list Z :=
  match g with
  | [] => (F32.lit 0 100, [])
  | z :: rest => (F32.lit z 100, rest)
  end.

Definition listDistributions : SensorSimulator.Distributions (list Z) :=
  {| SensorSimulator.m_voltageDist := draw;
     SensorSimulator.m_tempDist := draw;
     SensorSimulator.m_currentDist := draw;
     SensorSimulator.m_faultDist := draw |}.

(** ** Values and rounding

    [val m e] is the value [m * 2^e] in units of [2^-200], an integer
    for every exponent a binary32 operation meets.  [canonic m e]: the
    significand [m] has the exponent binary32 gives it.  [roundsTo P E m e]:
    [m] and [e] are what rounding [P * 2^E] to nearest can give, the quotient
    or the quotient plus one at the exponent of the result, or [2^23] one
    exponent up when the significand overflows. *)

Definition val (m e : Z) : Z := m * 2 ^ (e + 200).

Definition canonic (m : positive) (e : Z) : Prop :=
  Z.max (Z.pos (digits2_pos m) + e - 24) (-149) = e.

Definition roundsTo (P : positive) (E m e : Z) : Prop :=
  let e1 := Z.max (Z.pos (digits2_pos P) + E - 24) (-149) in
  let q := Z.pos P / 2 ^ (e1 - E) in
  (e = e1 /\ (m = q \/ m = q + 1) /\ m < 2 ^ 24) \/
  (e = e1 + 1 /\ m = 2 ^ 23 /\ q + 1 = 2 ^ 24).

(** What the simulator's fault distribution is constructed for: a valid
    binary32 between 0 and 1. *)
Definition unitDraw (d : float) : bool :=
  (F32.valid d && (d >= F32.lit 0 1)%f32 && (d <= F32.lit 1 1)%f32)%bool.

(** Distributions for examples that honour the ranges the simulator
    constructs them with: the next number of the list in hundredths,
    brought into the range. *)
Definition drawBetween (lo hi : Z) (g : list Z) : float * list Z :=
  match g with
  | [] => (F32.lit (Z.max lo (Z.min hi 0)) 100, [])
  | z :: rest => (F32.lit (Z.max lo (Z.min hi z)) 100, rest)
  end.

Definition rangedDistributions : SensorSimulator.Distributions (list Z) :=
  {| SensorSimulator.m_voltageDist := drawBetween 200 460;
     SensorSimulator.m_tempDist := drawBetween (-1500) 6500;
     SensorSimulator.m_currentDist := drawBetween (-2500) 500;
     SensorSimulator.m_faultDist := drawBetween 0 100 |}.

(** [x] is a zero, or a number or an infinity of sign [s]. *)
Definition signIs (s : bool) (x : float) : bool :=
  match x with
  | S754_zero _ => true
  | S754_infinity s' | S754_finite s' _ _ => Bool.eqb s s'
  | S754_nan => false
  end.

(** What the simulator's current distribution is constructed for: a
    valid binary32 between [SIM_CURRENT_MIN] and [SIM_CURRENT_MAX]. *)
Definition currentDraw (i : float) : bool :=
  (F32.valid i && (i >= SIM_CURRENT_MIN)%f32 && (i <= SIM_CURRENT_MAX)%f32)%bool.

(** A tick length the caller can pass: a valid binary32 that is a
    number, of either sign or zero. *)
Definition tickLength (dt : float) : bool :=
  (F32.valid dt && isNumber dt)%bool.

(** [update] called once for each tick length of the list, in order,
    with the simulator as the source of the readings. *)
Fixpoint simulatedRun {G : Type} (D : SensorSimulator.Distributions G)
         (dts : list float) (b : BMS.t) (m_rng : G) : BMS.t * G :=
  match dts with
  | [] => (b, m_rng)
  | dt :: rest =>
      let '(b', g, _) := simulatedUpdate D dt b m_rng in
      simulatedRun D rest b' g
  end.

(** ** Severity order

    [enum class SystemState { NORMAL, WARNING, CRITICAL, FAULT }]: the
    enumerators number the tiers from 0 to 3. *)

Definition severity (s : SystemState) : nat :=
  match s with
  | NORMAL => 0
  | WARNING => 1
  | CRITICAL => 2
  | FAULT => 3
  end.

Definition worst (a b : SystemState) : SystemState :=
  if (severity a <? severity b)%nat then b else a.

(** * Properties *)

(** ** Rounding to binary32 *)

Section Rounding.

Lemma digits2_pos_bounds : forall p,
    2 ^ (Z.pos (digits2_pos p) - 1) <= Z.pos p < 2 ^ Z.pos (digits2_pos p).
Proof.
  induction p as [p IH | p IH |]; simpl digits2_pos;
    [ rewrite Pos2Z.inj_succ | rewrite Pos2Z.inj_succ | simpl; lia ];
    replace (Z.succ (Z.pos (digits2_pos p)) - 1)
      with (Z.succ (Z.pos (digits2_pos p) - 1)) by lia;
    rewrite !Z.pow_succ_r by lia; lia.
Qed.

Lemma digits2_pos_unique : forall p k,
    2 ^ (k - 1) <= Z.pos p < 2 ^ k -> Z.pos (digits2_pos p) = k.
Proof.
  intros p k [Hlo Hhi].
  destruct (digits2_pos_bounds p) as [Dlo Dhi].
  assert (0 < k).
  { destruct (Z.ltb_spec 0 k); [assumption|].
    destruct (Z.eq_dec k 0) as [->|]; [simpl in Hhi; lia|].
    rewrite Z.pow_neg_r in Hhi by lia. lia. }
  assert (Z.pos (digits2_pos p) - 1 < k).
  { apply (Z.pow_lt_mono_r_iff 2); lia. }
  assert (k - 1 < Z.pos (digits2_pos p)).
  { apply (Z.pow_lt_mono_r_iff 2); lia. }
  lia.
Qed.

Lemma shr_1_m : forall mrs,
    0 <= shr_m mrs -> shr_m (shr_1 mrs) = shr_m mrs / 2.
Proof.
  intros [[|[p|p|]|p] r s] H; simpl in *; try lia;
    Z.to_euclidean_division_equations; lia.
Qed.

Lemma pow2_xI : forall n, 2 ^ Z.pos n~1 = 2 * 2 ^ Z.pos n * 2 ^ Z.pos n.
Proof.
  intros n. replace (Z.pos n~1) with (Z.pos n + Z.pos n + 1) by lia.
  rewrite !Z.pow_add_r by lia. change (2 ^ 1) with 2. ring.
Qed.

Lemma pow2_xO : forall n, 2 ^ Z.pos n~0 = 2 ^ Z.pos n * 2 ^ Z.pos n.
Proof.
  intros n. replace (Z.pos n~0) with (Z.pos n + Z.pos n) by lia.
  now rewrite Z.pow_add_r by lia.
Qed.

Lemma pow2_pos : forall k, 0 <= k -> 0 < 2 ^ k.
Proof. intros. apply Z.pow_pos_nonneg; lia. Qed.

Lemma iter_shr_1_m : forall n mrs,
    0 <= shr_m mrs ->
    shr_m (iter_pos shr_1 n mrs) = shr_m mrs / 2 ^ Z.pos n.
Proof.
  induction n as [n IH | n IH |]; intros mrs H; simpl iter_pos.
  - assert (H1 : 0 <= shr_m (shr_1 mrs)).
    { rewrite shr_1_m by assumption. apply Z.div_pos; lia. }
    assert (H2 : 0 <= shr_m (iter_pos shr_1 n (shr_1 mrs))).
    { rewrite IH by assumption. apply Z.div_pos; [lia|]. now apply pow2_pos. }
    pose proof (pow2_pos (Z.pos n) ltac:(lia)) as Hp.
    rewrite (IH _ H2), (IH _ H1), (shr_1_m _ H).
    rewrite !Z.div_div by lia. rewrite pow2_xI. f_equal. ring.
  - assert (H2 : 0 <= shr_m (iter_pos shr_1 n mrs)).
    { rewrite IH by assumption. apply Z.div_pos; [lia|]. now apply pow2_pos. }
    pose proof (pow2_pos (Z.pos n) ltac:(lia)) as Hp.
    rewrite (IH _ H2), (IH _ H).
    rewrite !Z.div_div by lia. rewrite pow2_xO. f_equal.
  - rewrite shr_1_m by assumption. reflexivity.
Qed.

Lemma shr_nonpos : forall mrs e n, n <= 0 -> shr mrs e n = (mrs, e).
Proof. intros mrs e [|p|p] H; try reflexivity. lia. Qed.

Lemma round_nearest_even_cases : forall m l,
    round_nearest_even m l = m \/ round_nearest_even m l = m + 1.
Proof.
  intros m [|[]]; simpl; auto. destruct (Z.even m); auto.
Qed.

Lemma fexp_eq : forall x,
    fexp F32.prec F32.emax x = Z.max (x - 24) (-149).
Proof. reflexivity. Qed.

(** The renormalisation step of [binary_round_aux]: a significand of
    at most 24 bits is kept, [2^24] becomes [2^23] one exponent up. *)
Lemma round_second_stage : forall sx m1 e1,
    -149 <= e1 -> 0 <= m1 <= 2 ^ 24 ->
    (let '(mrs, e) := shr_fexp F32.prec F32.emax m1 e1 loc_Exact in
     finish sx (shr_m mrs) e)
    = if m1 <? 2 ^ 24 then finish sx m1 e1
      else finish sx (2 ^ 23) (e1 + 1).
Proof.
  intros sx m1 e1 He Hm. unfold shr_fexp. rewrite fexp_eq.
  destruct (Z.ltb_spec m1 (2 ^ 24)) as [Hlt | Hge].
  - rewrite shr_nonpos; [reflexivity|].
    destruct m1 as [|p|p]; simpl Zdigits2; [lia| |lia].
    destruct (digits2_pos_bounds p) as [Dlo _].
    assert (Z.pos (digits2_pos p) - 1 < 24).
    { apply (Z.pow_lt_mono_r_iff 2); lia. }
    lia.
  - assert (m1 = 2 ^ 24) as -> by lia.
    change (Zdigits2 (2 ^ 24)) with 25.
    replace (Z.max (25 + e1 - 24) (-149) - e1) with 1 by lia.
    reflexivity.
Qed.

(** [binary_round_aux] on an exact positive significand: either no bit
    has to go and the number is kept, or the significand is divided by
    the power of two that brings it to 24 bits (or to the subnormal
    exponent), rounded to the quotient or its successor, and
    renormalised. *)
Lemma round_exact_cases : forall sx pm E,
    let d := Z.pos (digits2_pos pm) in
    let e1 := Z.max (d + E - 24) (-149) in
    let r := binary_round_aux F32.prec F32.emax sx (Z.pos pm) E loc_Exact in
    (e1 <= E /\ r = finish sx (Z.pos pm) E) \/
    (E < e1 /\
     exists m1,
       (m1 = Z.pos pm / 2 ^ (e1 - E) \/ m1 = Z.pos pm / 2 ^ (e1 - E) + 1) /\
       0 <= m1 <= 2 ^ 24 /\
       r = if m1 <? 2 ^ 24 then finish sx m1 e1
           else finish sx (2 ^ 23) (e1 + 1)).
Proof.
  intros sx pm E d e1 r.
  assert (Hr : r = let '(mrs', e') := shr_fexp F32.prec F32.emax (Z.pos pm) E loc_Exact in
                   let '(mrs'', e'') :=
                     shr_fexp F32.prec F32.emax
                       (round_nearest_even (shr_m mrs') (loc_of_shr_record mrs'))
                       e' loc_Exact in
                   finish sx (shr_m mrs'') e'').
  { subst r. unfold binary_round_aux, finish.
    destruct (shr_fexp _ _ (Z.pos pm) E loc_Exact) as [mrs' e'].
    destruct (shr_fexp _ _ _ e' loc_Exact) as [mrs'' e''].
    reflexivity. }
  clearbody r. subst r.
  destruct (Z.leb_spec e1 E) as [Hle | Hgt].
  - left. split; [assumption|].
    unfold shr_fexp at 1. rewrite fexp_eq. simpl Zdigits2.
    fold d. fold e1.
    rewrite shr_nonpos by lia. simpl shr_record_of_loc.
    simpl loc_of_shr_record. simpl round_nearest_even. simpl shr_m.
    unfold shr_fexp. rewrite fexp_eq. simpl Zdigits2. fold d. fold e1.
    rewrite shr_nonpos by lia. reflexivity.
  - right. split; [assumption|].
    unfold shr_fexp at 1. rewrite fexp_eq. simpl Zdigits2.
    fold d. fold e1.
    destruct (e1 - E) as [|ps|ps] eqn:Es; try lia.
    unfold shr. simpl shr_record_of_loc.
    set (mrs' := iter_pos shr_1 ps _).
    assert (Hq : shr_m mrs' = Z.pos pm / 2 ^ Z.pos ps).
    { subst mrs'. rewrite iter_shr_1_m; simpl; [reflexivity | lia]. }
    replace (E + Z.pos ps) with e1 by lia.
    set (m1 := round_nearest_even (shr_m mrs') (loc_of_shr_record mrs')).
    assert (Hm1 : m1 = Z.pos pm / 2 ^ Z.pos ps \/
                  m1 = Z.pos pm / 2 ^ Z.pos ps + 1).
    { subst m1. rewrite <- Hq. apply round_nearest_even_cases. }
    assert (Hb : 0 <= Z.pos pm / 2 ^ Z.pos ps < 2 ^ 24).
    { pose proof (pow2_pos (Z.pos ps) ltac:(lia)) as Hp.
      destruct (digits2_pos_bounds pm) as [_ Dhi]. fold d in Dhi.
      split; [apply Z.div_pos; lia|].
      apply Z.div_lt_upper_bound; [lia|].
      rewrite <- Z.pow_add_r by lia.
      eapply Z.lt_le_trans; [exact Dhi|].
      apply Z.pow_le_mono_r; lia. }
    exists m1. split; [assumption|]. split; [lia|].
    apply round_second_stage; lia.
Qed.

(** In every case the sign given to [binary_round_aux] is the sign of
    its result, and the result is a number. *)
Lemma round_exact_sign : forall sx pm E,
    exists m e,
      0 <= m /\
      binary_round_aux F32.prec F32.emax sx (Z.pos pm) E loc_Exact
      = finish sx m e.
Proof.
  intros sx pm E.
  destruct (round_exact_cases sx pm E)
    as [[_ Hr] | (_ & m1 & _ & Hb & Hr)]; cbv zeta in *; rewrite Hr.
  - exists (Z.pos pm), E. split; [lia | reflexivity].
  - destruct (m1 <? 2 ^ 24).
    + eexists m1, _. split; [lia | reflexivity].
    + eexists (2 ^ 23), _. split; [lia | reflexivity].
Qed.

(** A significand of more than 24 bits whose rounded exponent is above
    the subnormal one is rounded to a normal significand. *)
Lemma round_exact_normal : forall sx pm E,
    let d := Z.pos (digits2_pos pm) in
    24 < d -> -149 <= d + E - 24 ->
    exists m1 e1,
      binary_round_aux F32.prec F32.emax sx (Z.pos pm) E loc_Exact
      = finish sx m1 e1 /\
      2 ^ 23 <= m1 < 2 ^ 24 /\
      d + E - 24 <= e1 <= d + E - 23 /\
      (e1 = d + E - 24 -> Z.pos pm / 2 ^ (d - 24) <= m1).
Proof.
  intros sx pm E d Hd He. subst d.
  destruct (digits2_pos_bounds pm) as [Dlo _].
  destruct (round_exact_cases sx pm E)
    as [[Hle _] | (_ & m1 & Hm1 & Hb & Hr)]; cbv zeta in *;
    set (d := Z.pos (digits2_pos pm)) in *.
  - lia.
  - rewrite Hr.
    replace (Z.max (d + E - 24) (-149) - E) with (d - 24) in Hm1 by lia.
    replace (Z.max (d + E - 24) (-149)) with (d + E - 24) by lia.
    assert (Hq : 2 ^ 23 <= Z.pos pm / 2 ^ (d - 24)).
    { pose proof (pow2_pos (d - 24) ltac:(lia)).
      apply Z.div_le_lower_bound; [assumption|].
      rewrite <- Z.pow_add_r by lia.
      replace (d - 24 + 23) with (d - 1) by lia. exact Dlo. }
    destruct (Z.ltb_spec m1 (2 ^ 24)).
    + exists m1, (d + E - 24). repeat split; try lia.
    + exists (2 ^ 23), (d + E - 24 + 1). repeat split; lia.
Qed.

Lemma iter_xO : forall d m, Z.pos (Pos.iter xO m d) = Z.pos m * 2 ^ Z.pos d.
Proof.
  intros d m. induction d as [|d IH] using Pos.peano_ind.
  - simpl Pos.iter. change (2 ^ 1) with 2. lia.
  - rewrite Pos.iter_succ, Pos2Z.inj_succ, Z.pow_succ_r by lia.
    change (Z.pos (Pos.iter xO m d)~0) with (2 * Z.pos (Pos.iter xO m d)).
    rewrite IH. ring.
Qed.

Lemma shl_align_le : forall m e e',
    e' <= e -> Z.pos (fst (shl_align m e e')) = Z.pos m * 2 ^ (e - e').
Proof.
  intros m e e' H. unfold shl_align.
  destruct (e' - e) as [|d|d] eqn:Ed; try lia.
  - replace (e - e') with 0 by lia. simpl fst. lia.
  - simpl fst. rewrite iter_xO. f_equal. f_equal. lia.
Qed.

Lemma shl_align_ge : forall m e e', e <= e' -> shl_align m e e' = (m, e).
Proof.
  intros m e e' H. unfold shl_align.
  destruct (e' - e) as [|d|d] eqn:Ed; try reflexivity. lia.
Qed.

End Rounding.

(** ** The classifier *)

Section Classifier.

Local Open Scope f32_scope.
Import SafetyManager.

Lemma SystemState_eqb_eq : forall a b, SystemState_eqb a b = true <-> a = b.
Proof. intros [] []; simpl; split; congruence. Qed.

(** After [evaluate] the stored state is the proposed one, whatever was
    stored before. *)
Lemma evaluate_state : forall cells packCurrent soh sm,
    getCurrentState (fst (evaluate cells packCurrent soh sm))
    = proposedState cells packCurrent soh.
Proof.
  intros. unfold evaluate.
  destruct (SystemState_eqb _ _) eqn:E; simpl; [|reflexivity].
  apply SystemState_eqb_eq in E. now rewrite E.
Qed.

Lemma proposed_fault : forall cells packCurrent soh,
    existsb cellFault cells = true ->
    proposedState cells packCurrent soh = FAULT.
Proof. intros * H. unfold proposedState. now rewrite H. Qed.

(** [C1]: a discharge of 22 A is beyond every current band of the code:
    [isCurrentCritical] wants [current >= -20], [isCurrentWarning] wants
    [current >= -15].  With four cells at 3.7 V / 25 C and a state of
    health of 100 the classifier stores NORMAL, not CRITICAL, whatever
    the state stored before. *)
Theorem C1_discharge_22A_is_stored_as_NORMAL :
  isCurrentCritical (- F32.lit 22 1) = false /\
  isCurrentWarning (- F32.lit 22 1) = false /\
  forall sm,
    getCurrentState
      (fst (evaluate nominalPack (- F32.lit 22 1) (F32.lit 100 1) sm))
    = NORMAL.
Proof.
  repeat split; try (vm_compute; reflexivity).
  intros sm. rewrite evaluate_state. vm_compute. reflexivity.
Qed.

(** [C2]: a cell at 2.0 V lies in [1.00, 2.80) but [isVoltageCritical]
    starts at 2.50 V; with the other cells at 3.7 V / 25 C, no current
    and a state of health of 100 the classifier stores NORMAL, not
    CRITICAL. *)
Theorem C2_cell_at_2V_is_stored_as_NORMAL :
  (F32.lit 2 1 >= MIN_VOLTAGE_FAULT) = true /\
  (F32.lit 2 1 < MIN_VOLTAGE_WARNING) = true /\
  isVoltageCritical (F32.lit 2 1) = false /\
  forall sm,
    getCurrentState
      (fst (evaluate (packWithCell2 (F32.lit 2 1)) (F32.lit 0 1)
                     (F32.lit 100 1) sm))
    = NORMAL.
Proof.
  repeat split; try (vm_compute; reflexivity).
  intros sm. rewrite evaluate_state. vm_compute. reflexivity.
Qed.

(** [C3]: as soon as one cell of the pack has a voltage below 1.00 V or
    above 4.80 V, or a temperature below -20 C or above 70 C, the state
    stored by [evaluate] is FAULT, whatever the other cells, the pack
    current, the state of health and the state stored before. *)
Theorem C3_one_fault_cell_forces_FAULT :
  forall cells packCurrent soh sm cell,
    In cell cells ->
    (BatteryCell.getVoltage cell < MIN_VOLTAGE_FAULT) = true \/
    (BatteryCell.getVoltage cell > MAX_VOLTAGE_FAULT) = true \/
    (BatteryCell.getTemperature cell < MIN_TEMP_FAULT) = true \/
    (BatteryCell.getTemperature cell > MAX_TEMP_FAULT) = true ->
    getCurrentState (fst (evaluate cells packCurrent soh sm)) = FAULT.
Proof.
  intros cells packCurrent soh sm cell Hin Hband.
  rewrite evaluate_state. apply proposed_fault.
  apply existsb_exists. exists cell. split; [assumption|].
  unfold cellFault, isVoltageFault, isTemperatureFault.
  destruct Hband as [H | [H | [H | H]]]; rewrite H;
    repeat rewrite ?orb_true_r, ?orb_true_l; reflexivity.
Qed.

(** One cell at 0.5 V, a critical discharge and a worn pack: FAULT. *)
Lemma C3_witness :
  getCurrentState
    (fst (evaluate (packWithCell2 (F32.lit 5 10)) (- F32.lit 18 1)
                   (F32.lit 50 1) init))
  = FAULT.
Proof.
  apply (C3_one_fault_cell_forces_FAULT
           (packWithCell2 (F32.lit 5 10)) (- F32.lit 18 1) (F32.lit 50 1)
           init (cellAt (F32.lit 5 10) (F32.lit 25 1) 2)).
  - simpl. right. right. left. reflexivity.
  - left. vm_compute. reflexivity.
Defined.

(** [C9]: the manager left by [evaluate] does not depend on the state
    stored before the call: it holds the tier proposed from the cell
    readings, the pack current and the state of health.  The state
    stored before only decides whether a transition line is printed. *)
Theorem C9_evaluate_forgets_prior_state :
  forall cells packCurrent soh sm1 sm2,
    fst (evaluate cells packCurrent soh sm1)
    = fst (evaluate cells packCurrent soh sm2) /\
    fst (evaluate cells packCurrent soh sm1)
    = Build (proposedState cells packCurrent soh) /\
    snd (evaluate cells packCurrent soh sm1)
    = if SystemState_eqb (proposedState cells packCurrent soh)
                         (m_currentState sm1)
      then []
      else [StateTransition (m_currentState sm1)
                            (proposedState cells packCurrent soh)].
Proof.
  intros cells packCurrent soh sm1 sm2.
  assert (Hst : forall sm, fst (evaluate cells packCurrent soh sm)
                           = Build (proposedState cells packCurrent soh)).
  { intros [st]. unfold evaluate. simpl.
    destruct (SystemState_eqb _ st) eqn:E; simpl; [|reflexivity].
    apply SystemState_eqb_eq in E. now rewrite E. }
  split; [now rewrite !Hst|]. split; [apply Hst|].
  unfold evaluate. now destruct (SystemState_eqb _ _).
Qed.

End Classifier.

(** ** The latches of the health estimator *)

Section Latches.

Local Open Scope f32_scope.

Lemma float_eqb_eq : forall a b, float_eqb a b = true -> a = b.
Proof.
  intros [s|s| |s m e] [s'|s'| |s' m' e'] H; simpl in H;
    try discriminate; try reflexivity.
  - apply Bool.eqb_prop in H. now subst.
  - apply Bool.eqb_prop in H. now subst.
  - apply andb_true_iff in H. destruct H as [H He].
    apply andb_true_iff in H. destruct H as [Hs Hm].
    apply Bool.eqb_prop in Hs. apply Pos.eqb_eq in Hm.
    apply Z.eqb_eq in He. now subst.
Qed.

(** The first 2048 half cycles, by computation. *)
Lemma first_half_cycles :
  forallb halfCycleCheck (map Z.of_nat (seq 0 2048)) = true.
Proof. vm_compute. reflexivity. Qed.

Lemma halfCycleCheck_small : forall k,
    (0 <= k < 2048)%Z -> halfCycleCheck k = true.
Proof.
  intros k Hk.
  apply (proj1 (forallb_forall _ _) first_half_cycles).
  apply in_map_iff. exists (Z.to_nat k). split; [lia|].
  apply in_seq. lia.
Qed.

(** Below 1024 cycles [+= 0.5f] is exact: [k / 2] becomes
    [(k + 1) / 2]. *)
Lemma halves_add : forall k,
    (0 <= k < 2048)%Z -> halves k + F32.lit 5 10 = halves (k + 1).
Proof.
  intros k Hk. pose proof (halfCycleCheck_small k Hk) as H.
  unfold halfCycleCheck in H.
  apply andb_true_iff in H. destruct H as [H _].
  apply andb_true_iff in H. destruct H as [H _].
  now apply float_eqb_eq.
Qed.

(** What one call of [updateSoH] does to the latches and the counter,
    as a function of the state of charge it finds. *)
Lemma updateSoH_latches : forall b,
    let full := if BMS.m_stateOfCharge_percent b >= SOC_FULL_THRESHOLD_PERCENT
                then true else BMS.m_wasFull b in
    let empty := if BMS.m_stateOfCharge_percent b <= SOC_EMPTY_THRESHOLD_PERCENT
                 then true else BMS.m_wasEmpty b in
    let b' := fst (BMS.updateSoH b) in
    if (full && empty)%bool then
      BMS.m_chargeCycles b' = BMS.m_chargeCycles b + F32.lit 5 10 /\
      BMS.m_wasFull b' = false /\ BMS.m_wasEmpty b' = false
    else
      BMS.m_chargeCycles b' = BMS.m_chargeCycles b /\
      BMS.m_wasFull b' = full /\ BMS.m_wasEmpty b' = empty.
Proof.
  intros b. unfold BMS.updateSoH. cbv zeta.
  destruct (BMS.m_stateOfCharge_percent b >= _);
    destruct (BMS.m_stateOfCharge_percent b <= _);
    destruct (BMS.m_wasFull b); destruct (BMS.m_wasEmpty b);
    simpl; auto.
Qed.

(** A call that finds a state of charge above the empty threshold, with
    the empty latch clear, counts nothing and can only set [wasFull]. *)
Lemma healthCall_above_empty : forall soc b,
    BMS.m_wasEmpty b = false ->
    (soc <= SOC_EMPTY_THRESHOLD_PERCENT) = false ->
    BMS.m_chargeCycles (healthCall soc b) = BMS.m_chargeCycles b /\
    BMS.m_wasEmpty (healthCall soc b) = false /\
    BMS.m_wasFull (healthCall soc b)
    = if soc >= SOC_FULL_THRESHOLD_PERCENT then true else BMS.m_wasFull b.
Proof.
  intros soc b He Hs. unfold healthCall.
  pose proof (updateSoH_latches (setSoC soc b)) as H. simpl in H.
  rewrite Hs, He, andb_false_r in H. tauto.
Qed.

Lemma healthRun_above_empty : forall socs b,
    BMS.m_wasEmpty b = false ->
    Forall (fun soc => (soc <= SOC_EMPTY_THRESHOLD_PERCENT) = false) socs ->
    BMS.m_chargeCycles (healthRun socs b) = BMS.m_chargeCycles b /\
    BMS.m_wasEmpty (healthRun socs b) = false /\
    (BMS.m_wasFull b = true \/
     Exists (fun soc => (soc >= SOC_FULL_THRESHOLD_PERCENT) = true) socs ->
     BMS.m_wasFull (healthRun socs b) = true).
Proof.
  induction socs as [|soc rest IH]; intros b He Hall; simpl.
  - repeat split; auto. intros [H | H]; [assumption | inversion H].
  - inversion Hall as [|? ? Hs Hrest]; subst.
    destruct (healthCall_above_empty soc b He Hs) as (Hc & He' & Hf).
    destruct (IH (healthCall soc b) He' Hrest) as (Hc2 & He2 & Hf2).
    repeat split; [congruence | assumption |].
    intros Hfull. apply Hf2. rewrite Hf.
    destruct (soc >= SOC_FULL_THRESHOLD_PERCENT) eqn:Hge; [now left|].
    destruct Hfull as [Hw | Hex]; [now left|].
    inversion Hex; subst; [congruence | now right].
Qed.

Lemma Forall_firstn : forall (A : Type) (P : A -> Prop) n l,
    Forall P l -> Forall P (firstn n l).
Proof.
  intros A P n l H. revert n.
  induction H; intros [|n]; simpl; constructor; auto.
Qed.

(** [updateSoH] reads four fields only. *)
Lemma updateSoH_reads : forall b1 b2,
    BMS.m_stateOfCharge_percent b1 = BMS.m_stateOfCharge_percent b2 ->
    BMS.m_chargeCycles b1 = BMS.m_chargeCycles b2 ->
    BMS.m_wasFull b1 = BMS.m_wasFull b2 ->
    BMS.m_wasEmpty b1 = BMS.m_wasEmpty b2 ->
    BMS.m_chargeCycles (fst (BMS.updateSoH b1))
    = BMS.m_chargeCycles (fst (BMS.updateSoH b2)) /\
    BMS.m_wasFull (fst (BMS.updateSoH b1))
    = BMS.m_wasFull (fst (BMS.updateSoH b2)) /\
    BMS.m_wasEmpty (fst (BMS.updateSoH b1))
    = BMS.m_wasEmpty (fst (BMS.updateSoH b2)) /\
    BMS.m_stateOfHealth_percent (fst (BMS.updateSoH b1))
    = BMS.m_stateOfHealth_percent (fst (BMS.updateSoH b2)).
Proof.
  intros b1 b2 Hs Hc Hf He. unfold BMS.updateSoH.
  rewrite Hs, Hc, Hf, He. cbv zeta.
  destruct (andb _ _); repeat split; reflexivity.
Qed.

Lemma updateSoH_keeps_soc : forall b,
    BMS.m_stateOfCharge_percent (fst (BMS.updateSoH b))
    = BMS.m_stateOfCharge_percent b.
Proof.
  intros b. unfold BMS.updateSoH. cbv zeta.
  destruct (andb _ _); reflexivity.
Qed.

(** A tick changes the estimator fields as [updateSoC] followed by
    [updateSoH] do; [evaluate] only replaces the safety manager. *)
Lemma update_fields : forall dt r b,
    let b' := fst (BMS.update dt r b) in
    let b3 := fst (BMS.updateSoH (beforeHealth dt r b)) in
    BMS.m_cells b' = BMS.m_cells b3 /\
    BMS.m_packCurrent b' = BMS.m_packCurrent b3 /\
    BMS.m_accumulatedCharge_mAh b' = BMS.m_accumulatedCharge_mAh b3 /\
    BMS.m_stateOfCharge_percent b' = BMS.m_stateOfCharge_percent b3 /\
    BMS.m_stateOfHealth_percent b' = BMS.m_stateOfHealth_percent b3 /\
    BMS.m_chargeCycles b' = BMS.m_chargeCycles b3 /\
    BMS.m_wasFull b' = BMS.m_wasFull b3 /\
    BMS.m_wasEmpty b' = BMS.m_wasEmpty b3 /\
    BMS.m_isChargingFlag b' = BMS.m_isChargingFlag b3.
Proof.
  intros dt r b. unfold BMS.update. cbv zeta.
  fold (beforeHealth dt r b).
  destruct (BMS.updateSoH (beforeHealth dt r b)) as [b3 out3].
  destruct (SafetyManager.evaluate _ _ _ _) as [sm out4]. simpl.
  repeat split.
Qed.

(** The health fields a tick leaves are those of one [updateSoH] call
    on the state of charge the tick computed. *)
Lemma update_health_fields : forall dt r b,
    let b' := fst (BMS.update dt r b) in
    BMS.m_chargeCycles b'
    = BMS.m_chargeCycles (healthCall (BMS.getSoC b') b) /\
    BMS.m_wasFull b' = BMS.m_wasFull (healthCall (BMS.getSoC b') b) /\
    BMS.m_wasEmpty b' = BMS.m_wasEmpty (healthCall (BMS.getSoC b') b) /\
    BMS.m_stateOfHealth_percent b'
    = BMS.m_stateOfHealth_percent (healthCall (BMS.getSoC b') b).
Proof.
  intros dt r b. cbv zeta.
  destruct (update_fields dt r b) as (_ & _ & _ & Hs & Hh & Hc & Hf & He & _).
  cbv zeta in *. unfold BMS.getSoC, healthCall.
  rewrite Hh, Hc, Hf, He, Hs, updateSoH_keeps_soc.
  apply updateSoH_reads; reflexivity.
Qed.

End Latches.

(** ** Comparisons *)

Section Comparisons.

Local Open Scope f32_scope.

Lemma lit_half : F32.lit 5 10 = S754_finite false 8388608 (-24).
Proof. vm_compute. reflexivity. Qed.

Lemma lit_tenth : F32.lit 1 10 = S754_finite false 13421773 (-27).
Proof. vm_compute. reflexivity. Qed.

Lemma lit_100 : F32.lit 100 1 = S754_finite false 13107200 (-17).
Proof. vm_compute. reflexivity. Qed.

Lemma lit_0 : F32.lit 0 1 = S754_zero false.
Proof. vm_compute. reflexivity. Qed.

(** Two numbers always compare. *)
Lemma compare_numbers : forall a c,
    F32.is_nan a = false -> F32.is_nan c = false -> SFcompare a c <> None.
Proof.
  intros [s|s| |s m e] [s'|s'| |s' m' e'] Ha Hc; try discriminate;
    unfold SFcompare; try destruct s; try destruct s'; discriminate.
Qed.

Lemma not_gt_le : forall a c,
    F32.is_nan a = false -> F32.is_nan c = false ->
    (a > c) = false -> (a <= c) = true.
Proof.
  intros a c Ha Hc. pose proof (compare_numbers a c Ha Hc) as H.
  unfold F32.gt, F32.le. destruct (SFcompare a c) as [[]|];
    try reflexivity; try discriminate. congruence.
Qed.

Lemma not_lt_ge : forall a c,
    F32.is_nan a = false -> F32.is_nan c = false ->
    (a < c) = false -> (a >= c) = true.
Proof.
  intros a c Ha Hc. pose proof (compare_numbers a c Ha Hc) as H.
  unfold F32.lt, F32.ge. destruct (SFcompare a c) as [[]|];
    try reflexivity; try discriminate. congruence.
Qed.

End Comparisons.

(** ** The charge estimator *)

Section ChargeEstimator.

Local Open Scope f32_scope.

(** [IDLE_CURRENT_THRESHOLD_A * 1000.0f] is 50 exactly. *)
Lemma idle_threshold_mA :
  IDLE_CURRENT_THRESHOLD_A * F32.lit 1000 1
  = S754_finite false 13107200 (-18).
Proof. vm_compute. reflexivity. Qed.

Lemma lit_1000 : F32.lit 1000 1 = S754_finite false 16384000 (-14).
Proof. vm_compute. reflexivity. Qed.

Lemma finish_gt_50 : forall m e,
    (0 < m)%Z ->
    (-18 < e \/ (e = -18 /\ 13107200 < m))%Z ->
    (finish false m e > S754_finite false 13107200 (-18)) = true.
Proof.
  intros [|p|p] e Hm H; try lia. unfold finish.
  destruct (Z.leb_spec e (F32.emax - F32.prec)); [|reflexivity].
  unfold F32.gt, SFcompare.
  destruct (Z.compare_spec e (-18)) as [-> | Hlt | Hgt];
    try lia; try reflexivity.
  rewrite Pos.compare_cont_spec. unfold Pos.switch_Eq.
  rewrite Pos2Z.inj_compare.
  destruct (Z.compare_spec (Z.pos p) 13107200); try lia; reflexivity.
Qed.

Lemma finish_not_gt_50 : forall m e,
    (0 <= m)%Z ->
    (e < -18 \/ (e = -18 /\ m <= 13107200))%Z ->
    (finish false m e > S754_finite false 13107200 (-18)) = false.
Proof.
  intros [|p|p] e Hm H; try lia; unfold finish; [reflexivity|].
  destruct (Z.leb_spec e (F32.emax - F32.prec)); [|unfold F32.emax, F32.prec in *; lia].
  unfold F32.gt, SFcompare.
  destruct (Z.compare_spec e (-18)) as [-> | Hlt | Hgt];
    try lia; try reflexivity.
  rewrite Pos.compare_cont_spec. unfold Pos.switch_Eq.
  rewrite Pos2Z.inj_compare.
  destruct (Z.compare_spec (Z.pos p) 13107200); try lia; reflexivity.
Qed.

Lemma finish_negative_not_gt : forall m e c,
    (0 <= m)%Z -> (finish true m e > S754_finite false 13107200 c) = false.
Proof.
  intros [|p|p] e c Hm; try lia; unfold finish; [reflexivity|].
  destruct (Z.leb e _); reflexivity.
Qed.

Lemma gt_idle_finite : forall m e,
    (S754_finite false m e > IDLE_CURRENT_THRESHOLD_A)
    = ((-28 <? e) || ((e =? -28) && (13421773 <? Z.pos m)))%Z%bool.
Proof.
  intros m e. unfold F32.gt, IDLE_CURRENT_THRESHOLD_A, SFcompare.
  destruct (Z.compare_spec e (-28)) as [-> | Hlt | Hgt];
    [ rewrite Pos.compare_cont_spec; unfold Pos.switch_Eq;
      rewrite Pos2Z.inj_compare;
      destruct (Z.compare_spec (Z.pos m) 13421773) | | ]; lia.
Qed.

(** A valid positive float has a canonical significand. *)
Lemma valid_finite : forall s m e,
    F32.valid (S754_finite s m e) = true ->
    (Z.max (Z.pos (digits2_pos m) + e - 24) (-149) = e /\ e <= 104)%Z.
Proof.
  intros s m e H. unfold F32.valid, valid_binary, bounded in H.
  apply andb_true_iff in H. destruct H as [Hc Hb].
  unfold canonical_mantissa in Hc. rewrite fexp_eq in Hc.
  apply Z.eqb_eq in Hc. apply Z.leb_le in Hb.
  unfold F32.emax, F32.prec in Hb. lia.
Qed.

(** The product of a significand of [dm] bits with that of 1000
    ([16384000], 24 bits) has [dm + 23] or [dm + 24] bits. *)
Lemma digits_times_1000 : forall m,
    let dm := Z.pos (digits2_pos m) in
    let dM := Z.pos (digits2_pos (m * 16384000)) in
    (dM = dm + 23 /\ Z.pos m * 16384000 < 2 ^ (dm + 23))%Z \/
    (dM = dm + 24 /\ 2 ^ (dm + 23) <= Z.pos m * 16384000)%Z.
Proof.
  intros m dm dM.
  destruct (digits2_pos_bounds m) as [Dlo Dhi]. fold dm in Dlo, Dhi.
  assert (Hdm : (1 <= dm)%Z) by (subst dm; lia).
  assert (P22 : (2 ^ (dm + 22) = 2 ^ (dm - 1) * 2 ^ 23)%Z).
  { rewrite <- Z.pow_add_r by lia. f_equal. lia. }
  assert (P24 : (2 ^ (dm + 24) = 2 ^ dm * 2 ^ 24)%Z).
  { rewrite <- Z.pow_add_r by lia. reflexivity. }
  change (2 ^ 23)%Z with 8388608%Z in P22.
  change (2 ^ 24)%Z with 16777216%Z in P24.
  destruct (Z.lt_ge_cases (Z.pos m * 16384000) (2 ^ (dm + 23))) as [Hlt | Hge].
  - left. split; [|assumption].
    subst dM. apply digits2_pos_unique. rewrite Pos2Z.inj_mul.
    replace (dm + 23 - 1)%Z with (dm + 22)%Z by lia. nia.
  - right. split; [|assumption].
    subst dM. apply digits2_pos_unique. rewrite Pos2Z.inj_mul.
    replace (dm + 24 - 1)%Z with (dm + 23)%Z by lia. nia.
Qed.

Lemma mul_1000_finite : forall s m e,
    S754_finite s m e * F32.lit 1000 1
    = binary_round_aux F32.prec F32.emax s
                       (Z.pos (m * 16384000)) (e + -14) loc_Exact.
Proof.
  intros. rewrite lit_1000. unfold F32.mul, SFmul.
  now rewrite xorb_false_r.
Qed.

(** The test [current_mA > IDLE_CURRENT_THRESHOLD_A * 1000.0f] of
    [updateSoC] decides as [packCurrent > IDLE_CURRENT_THRESHOLD_A]
    does: the two roundings of the products by 1000 do not move a
    current across the threshold. *)
Lemma charging_test_is_idle_comparison : forall p,
    F32.valid p = true ->
    (p * F32.lit 1000 1 > IDLE_CURRENT_THRESHOLD_A * F32.lit 1000 1)
    = (p > IDLE_CURRENT_THRESHOLD_A).
Proof.
  intros [s|s| |s m e] Hv.
  - destruct s; vm_compute; reflexivity.
  - destruct s; vm_compute; reflexivity.
  - reflexivity.
  - destruct (Z.eq_dec e (-28)) as [He28 | He28];
      [destruct (Pos.eq_dec m 13421773) as [Hm | Hm] |].
    { subst. destruct s; vm_compute; reflexivity. }
    all: rewrite idle_threshold_mA, mul_1000_finite.
    all: destruct (valid_finite _ _ _ Hv) as [Hc He].
    all: pose proof (digits_times_1000 m) as HD; cbv zeta in HD.
    all: pose proof (Pos2Z.inj_mul m 16384000) as HM.
    all: pose proof (digits2_pos_bounds m) as Hbm.
    all: destruct (round_exact_cases s (m * 16384000) (e + -14))
      as [[Hle Hr] | (Hgt & m1 & Hm1 & Hb & Hr)]; cbv zeta in *;
      rewrite Hr; clear Hr.
    all: destruct s;
      [ try destruct (m1 <? 2 ^ 24)%Z;
        rewrite finish_negative_not_gt by lia; reflexivity |].
    all: rewrite gt_idle_finite.
    all: rewrite HM in *.
    all: remember (Z.pos (digits2_pos (m * 16384000))) as dM eqn:EdM;
      remember (Z.pos (digits2_pos m)) as dm eqn:Edm; clear EdM Edm.
    + (* e = -28, no shift: impossible *) lia.
    + (* e = -28, m <> IDLE's significand *)
      assert (dm = 24%Z) by lia. subst dm e.
      change (2 ^ (24 + 23))%Z with 140737488355328%Z in HD.
      change (2 ^ 24)%Z with 16777216%Z in *.
      change (2 ^ 23)%Z with 8388608%Z in *.
      destruct HD as [[-> HD] | [-> HD]].
      * replace (Z.max (24 + 23 + (-28 + -14) - 24) (-149))%Z
          with (-19)%Z in * by lia.
        destruct (m1 <? 16777216)%Z;
          rewrite finish_not_gt_50 by lia; lia.
      * replace (Z.max (24 + 24 + (-28 + -14) - 24) (-149))%Z
          with (-18)%Z in * by lia.
        replace (-18 - (-28 + -14))%Z with 24%Z in Hm1 by lia.
        change (2 ^ 24)%Z with 16777216%Z in *.
        assert (Hq : ((Z.pos m < 13421773 /\
                       Z.pos m * 16384000 / 16777216 <= 13107199) \/
                      (13421773 < Z.pos m /\
                       13107201 <= Z.pos m * 16384000 / 16777216))%Z).
        { assert (Z.pos m <> 13421773%Z) by congruence.
          Z.to_euclidean_division_equations. lia. }
        destruct Hq as [[Hq1 Hq2] | [Hq1 Hq2]].
        -- destruct (Z.ltb_spec m1 16777216);
             [(rewrite finish_not_gt_50 by lia) | ]; lia.
        -- destruct (Z.ltb_spec m1 16777216);
             rewrite finish_gt_50 by lia; lia.
    + (* e <> -28, no shift *)
      rewrite finish_not_gt_50 by lia. lia.
    + (* e <> -28, shifted *)
      change (2 ^ 24)%Z with 16777216%Z in *.
      change (2 ^ 23)%Z with 8388608%Z in *.
      destruct (Z.lt_ge_cases e (-28)) as [Hlow | Hhigh].
      * destruct (m1 <? 16777216)%Z;
          rewrite finish_not_gt_50 by lia; lia.
      * assert (dm = 24%Z) by lia. subst dm.
        change (2 ^ (24 + 23))%Z with 140737488355328%Z in HD.
        change (2 ^ (24 - 1))%Z with 8388608%Z in Hbm.
        assert (Hq : (8388608 <= m1 /\
                      (e = -27 -> dM = 24 + 23 -> 13107200 < m1))%Z).
        { destruct HD as [[-> HD] | [-> HD]].
          - replace (Z.max (24 + 23 + (e + -14) - 24) (-149) - (e + -14))%Z
              with 23%Z in Hm1 by lia.
            change (2 ^ 23)%Z with 8388608%Z in Hm1.
            Z.to_euclidean_division_equations. lia.
          - replace (Z.max (24 + 24 + (e + -14) - 24) (-149) - (e + -14))%Z
              with 24%Z in Hm1 by lia.
            change (2 ^ 24)%Z with 16777216%Z in Hm1.
            Z.to_euclidean_division_equations. lia. }
        destruct Hq as [Hq1 Hq2].
        destruct (Z.ltb_spec m1 16777216);
          rewrite finish_gt_50 by lia; lia.
Qed.

Lemma negative_not_above_idle : forall p,
    (p < F32.lit 0 1) = true -> (p > IDLE_CURRENT_THRESHOLD_A) = false.
Proof.
  intros [[]|[]| |[] m e] H; try reflexivity; discriminate H.
Qed.

(** [C5]: for every pack current (a valid binary32) and every elapsed
    time, the charge delta that [updateSoC] adds to the accumulator is
    the product of the current in mA and the elapsed hours, multiplied
    by the charging efficiency 0.98 exactly when the pack current is
    strictly above the idle threshold 0.05 A.  At exactly 0.05 A the
    delta is not scaled, and for a negative (discharge) current it is
    never scaled. *)
Theorem C5_efficiency_applies_iff_current_above_idle :
  forall packCurrent deltaTime_s,
    F32.valid packCurrent = true ->
    let unscaled :=
      (packCurrent * F32.lit 1000 1) * (deltaTime_s / F32.lit 3600 1) in
    BMS.charge_change_mAh packCurrent deltaTime_s
    = (if packCurrent > IDLE_CURRENT_THRESHOLD_A
       then unscaled * CHARGE_EFFICIENCY else unscaled) /\
    BMS.charge_change_mAh IDLE_CURRENT_THRESHOLD_A deltaTime_s
    = (IDLE_CURRENT_THRESHOLD_A * F32.lit 1000 1)
      * (deltaTime_s / F32.lit 3600 1) /\
    ((packCurrent < F32.lit 0 1) = true ->
     BMS.charge_change_mAh packCurrent deltaTime_s = unscaled).
Proof.
  intros p dt Hv unscaled.
  assert (H : BMS.charge_change_mAh p dt
              = if p > IDLE_CURRENT_THRESHOLD_A
                then unscaled * CHARGE_EFFICIENCY else unscaled).
  { unfold BMS.charge_change_mAh. cbv zeta.
    now rewrite charging_test_is_idle_comparison. }
  split; [exact H|]. split.
  - unfold BMS.charge_change_mAh. cbv zeta.
    rewrite charging_test_is_idle_comparison by reflexivity.
    reflexivity.
  - intros Hneg. rewrite H.
    now rewrite negative_not_above_idle.
Qed.

(** A charge of 2 A during one second is derated, a discharge of 3 A
    is not. *)
Lemma C5_witness :
  BMS.charge_change_mAh (F32.lit 2 1) (F32.lit 1 1)
  = (F32.lit 2 1 * F32.lit 1000 1) * (F32.lit 1 1 / F32.lit 3600 1)
    * CHARGE_EFFICIENCY /\
  BMS.charge_change_mAh (- F32.lit 3 1) (F32.lit 1 1)
  = (- F32.lit 3 1 * F32.lit 1000 1) * (F32.lit 1 1 / F32.lit 3600 1).
Proof.
  split.
  - exact (proj1 (C5_efficiency_applies_iff_current_above_idle
                    (F32.lit 2 1) (F32.lit 1 1) eq_refl)).
  - exact (proj2 (proj2 (C5_efficiency_applies_iff_current_above_idle
                           (- F32.lit 3 1) (F32.lit 1 1) eq_refl))
                 eq_refl).
Defined.

(** [updateSoC] adds that delta to the accumulator before clamping. *)
Lemma updateSoC_accumulates : forall dt b,
    let sum := BMS.m_accumulatedCharge_mAh b
               + BMS.charge_change_mAh (BMS.m_packCurrent b) dt in
    BMS.m_accumulatedCharge_mAh (BMS.updateSoC dt b)
    = if sum > NOMINAL_CAPACITY_MAH then NOMINAL_CAPACITY_MAH
      else if sum < F32.lit 0 1 then F32.lit 0 1 else sum.
Proof. reflexivity. Qed.

(** The clamp of [updateSoC] works on every sum that is a number. *)
Lemma updateSoC_saturates_unless_nan : forall dt b,
    F32.is_nan (BMS.m_accumulatedCharge_mAh (BMS.updateSoC dt b)) = false ->
    (BMS.m_accumulatedCharge_mAh (BMS.updateSoC dt b) >= F32.lit 0 1) = true /\
    (BMS.m_accumulatedCharge_mAh (BMS.updateSoC dt b) <= NOMINAL_CAPACITY_MAH)
    = true.
Proof.
  intros dt b. rewrite updateSoC_accumulates. cbv zeta.
  set (sum := BMS.m_accumulatedCharge_mAh b + _).
  destruct (sum > NOMINAL_CAPACITY_MAH) eqn:Hhi;
    [intros _; split; reflexivity|].
  destruct (sum < F32.lit 0 1) eqn:Hlo; [intros _; split; reflexivity|].
  clearbody sum. intros Hnan. split.
  - now apply not_lt_ge.
  - now apply not_gt_le.
Qed.

(** So do the two clamps of the state of charge. *)
Lemma updateSoC_soc_in_range_unless_nan : forall dt b,
    F32.is_nan (BMS.m_stateOfCharge_percent (BMS.updateSoC dt b)) = false ->
    (BMS.m_stateOfCharge_percent (BMS.updateSoC dt b) >= F32.lit 0 1) = true /\
    (BMS.m_stateOfCharge_percent (BMS.updateSoC dt b) <= F32.lit 100 1) = true.
Proof.
  intros dt b. unfold BMS.updateSoC. cbv zeta.
  cbn [BMS.m_stateOfCharge_percent].
  set (soc0 := _ / NOMINAL_CAPACITY_MAH * F32.lit 100 1). clearbody soc0.
  destruct (soc0 > F32.lit 100 1) eqn:Hhi.
  - intros _. vm_compute. split; reflexivity.
  - destruct (soc0 < F32.lit 0 1) eqn:Hlo.
    + intros _. vm_compute. split; reflexivity.
    + intros Hnan. split; [now apply not_lt_ge | now apply not_gt_le].
Qed.

(** The clamps rest on the charge delta being a number.  Were a pack
    current of 1e36 A (a finite binary32) read during a tick of zero
    seconds, [current_mA] would overflow to infinity, the elapsed hours
    would be 0 and their product NaN; no comparison of the two clamps
    holds for NaN, so the accumulated charge and the state of charge
    would be NaN.  The simulator returns no such current. *)
Remark overflowing_current_spoils_the_charge :
  let current := F32.lit (10 ^ 36) 1 in
  let b := fst (BMS.update (F32.lit 0 1)
                           (constantReadings (F32.lit 37 10) (F32.lit 25 1)
                                             current)
                           BMS.init) in
  current = S754_finite false 12621774 96 /\
  F32.valid current = true /\
  reachable b /\
  BMS.m_accumulatedCharge_mAh b = S754_nan /\
  BMS.getSoC b = S754_nan /\
  (BMS.getSoC b <= F32.lit 100 1) = false /\
  (BMS.getSoC b >= F32.lit 0 1) = false /\
  (BMS.m_accumulatedCharge_mAh b <= NOMINAL_CAPACITY_MAH) = false /\
  (BMS.m_accumulatedCharge_mAh b >= F32.lit 0 1) = false.
Proof.
  cbv zeta. split; [vm_compute; reflexivity|].
  split; [vm_compute; reflexivity|].
  split; [apply reachable_update, reachable_init|].
  repeat split; vm_compute; reflexivity.
Qed.

(** Once the accumulator is NaN every later tick leaves it NaN. *)
Lemma nan_charge_is_permanent : forall dt r b,
    BMS.m_accumulatedCharge_mAh b = S754_nan ->
    BMS.m_accumulatedCharge_mAh (fst (BMS.update dt r b)) = S754_nan /\
    BMS.getSoC (fst (BMS.update dt r b)) = S754_nan.
Proof.
  intros dt r b H.
  destruct (update_fields dt r b) as (_ & _ & Ha & Hs & _).
  cbv zeta in *. unfold BMS.getSoC. rewrite Ha, Hs. clear Ha Hs.
  unfold BMS.updateSoH. cbv zeta.
  destruct (andb _ _); cbn [fst BMS.m_accumulatedCharge_mAh
                                BMS.m_stateOfCharge_percent];
    unfold beforeHealth, BMS.updateSoC; cbv zeta;
    cbn [BMS.m_accumulatedCharge_mAh BMS.m_stateOfCharge_percent
         BMS.m_packCurrent]; rewrite H; split; reflexivity.
Qed.

End ChargeEstimator.

(** ** The orchestrator *)

Section Orchestrator.

Local Open Scope f32_scope.

Lemma updateSoH_frame : forall b,
    let b' := fst (BMS.updateSoH b) in
    BMS.m_safetyManager b' = BMS.m_safetyManager b /\
    BMS.m_cells b' = BMS.m_cells b /\
    BMS.m_packCurrent b' = BMS.m_packCurrent b /\
    BMS.m_accumulatedCharge_mAh b' = BMS.m_accumulatedCharge_mAh b /\
    BMS.m_isChargingFlag b' = BMS.m_isChargingFlag b.
Proof.
  intros b. unfold BMS.updateSoH. cbv zeta.
  destruct (andb _ _); repeat split; reflexivity.
Qed.

Lemma update_safetyManager : forall dt r b,
    let b3 := fst (BMS.updateSoH (beforeHealth dt r b)) in
    BMS.m_safetyManager (fst (BMS.update dt r b))
    = fst (SafetyManager.evaluate (BMS.m_cells b3) (BMS.m_packCurrent b3)
                                  (BMS.m_stateOfHealth_percent b3)
                                  (BMS.m_safetyManager b3)).
Proof.
  intros dt r b. unfold BMS.update. cbv zeta.
  fold (beforeHealth dt r b).
  destruct (BMS.updateSoH (beforeHealth dt r b)) as [b3 out3].
  cbn [fst].
  destruct (SafetyManager.evaluate _ _ _ _) as [sm out4]. reflexivity.
Qed.

(** The charging flag is read by nothing in a tick: changing it before
    the tick changes neither the state [updateSoH] is called on, apart
    from the flag, nor what [updateSoH] computes. *)
Lemma beforeHealth_setCharging : forall dt r b flag,
    beforeHealth dt r (setCharging flag b)
    = setCharging
        (if readCurrent r > IDLE_CURRENT_THRESHOLD_A then true
         else if readCurrent r < - IDLE_CURRENT_THRESHOLD_A then false
         else flag)
        (beforeHealth dt r b).
Proof. reflexivity. Qed.

Lemma updateSoH_setCharging : forall b flag,
    fst (BMS.updateSoH (setCharging flag b))
    = setCharging flag (fst (BMS.updateSoH b)).
Proof.
  intros b flag. unfold BMS.updateSoH, setCharging. cbv zeta.
  cbn [BMS.m_safetyManager BMS.m_cells BMS.m_packCurrent
       BMS.m_accumulatedCharge_mAh BMS.m_stateOfCharge_percent
       BMS.m_stateOfHealth_percent BMS.m_chargeCycles BMS.m_wasFull
       BMS.m_wasEmpty BMS.m_isChargingFlag].
  destruct (andb _ _); reflexivity.
Qed.

(** [C8]: after a tick the charging flag is true when the pack current
    read in the tick is above 0.05 A, false when it is below -0.05 A,
    and otherwise the flag of the state before the tick.  Nothing else
    in the state after the tick depends on the flag before it. *)
Theorem C8_charging_flag_is_sticky_at_idle :
  forall dt r b,
    BMS.isCharging (fst (BMS.update dt r b))
    = (if readCurrent r > IDLE_CURRENT_THRESHOLD_A then true
       else if readCurrent r < - IDLE_CURRENT_THRESHOLD_A then false
       else BMS.isCharging b) /\
    forall flag,
      let b1 := fst (BMS.update dt r b) in
      let b2 := fst (BMS.update dt r (setCharging flag b)) in
      BMS.m_safetyManager b2 = BMS.m_safetyManager b1 /\
      BMS.m_cells b2 = BMS.m_cells b1 /\
      BMS.m_packCurrent b2 = BMS.m_packCurrent b1 /\
      BMS.m_accumulatedCharge_mAh b2 = BMS.m_accumulatedCharge_mAh b1 /\
      BMS.m_stateOfCharge_percent b2 = BMS.m_stateOfCharge_percent b1 /\
      BMS.m_stateOfHealth_percent b2 = BMS.m_stateOfHealth_percent b1 /\
      BMS.m_chargeCycles b2 = BMS.m_chargeCycles b1 /\
      BMS.m_wasFull b2 = BMS.m_wasFull b1 /\
      BMS.m_wasEmpty b2 = BMS.m_wasEmpty b1.
Proof.
  intros dt r b. split.
  - destruct (update_fields dt r b) as (_ & _ & _ & _ & _ & _ & _ & _ & Hf).
    cbv zeta in Hf. unfold BMS.isCharging. rewrite Hf.
    destruct (updateSoH_frame (beforeHealth dt r b)) as (_ & _ & _ & _ & Hf').
    cbv zeta in Hf'. rewrite Hf'. reflexivity.
  - intros flag. cbv zeta.
    pose proof (update_fields dt r b) as H1.
    pose proof (update_fields dt r (setCharging flag b)) as H2.
    pose proof (update_safetyManager dt r b) as S1.
    pose proof (update_safetyManager dt r (setCharging flag b)) as S2.
    cbv zeta in *.
    rewrite beforeHealth_setCharging, updateSoH_setCharging in H2, S2.
    destruct H1 as (A1 & A2 & A3 & A4 & A5 & A6 & A7 & A8 & _).
    destruct H2 as (B1 & B2 & B3 & B4 & B5 & B6 & B7 & B8 & _).
    rewrite S1, S2, A1, A2, A3, A4, A5, A6, A7, A8,
      B1, B2, B3, B4, B5, B6, B7, B8.
    repeat split; reflexivity.
Qed.

End Orchestrator.

(** ** The health estimator *)

Section HealthEstimator.

Local Open Scope f32_scope.

Lemma updateSoH_soh : forall b,
    BMS.m_stateOfHealth_percent (fst (BMS.updateSoH b))
    = sohOf (BMS.m_chargeCycles (fst (BMS.updateSoH b))).
Proof.
  intros b. unfold BMS.updateSoH. cbv zeta.
  destruct (andb _ _); reflexivity.
Qed.

Lemma halves_2048_big : bigCycles (halves 2048).
Proof.
  right. exists 8388608%positive, (-13)%Z.
  split; [vm_compute; reflexivity|]. split; [|lia].
  change (2 ^ 23)%Z with 8388608%Z. change (2 ^ 24)%Z with 16777216%Z. lia.
Qed.

Lemma binary_normalize_pos : forall z e,
    (0 < z)%Z ->
    binary_normalize F32.prec F32.emax z e false
    = binary_round F32.prec F32.emax false (Z.to_pos z) e.
Proof. intros [|p|p] e H; try lia. reflexivity. Qed.

Lemma finish_big : forall m e,
    (2 ^ 23 <= m < 2 ^ 24)%Z -> (-13 <= e)%Z -> bigCycles (finish false m e).
Proof.
  intros [|p|p] e Hm He; try lia. unfold finish.
  destruct (Z.leb e _); [right | left; reflexivity].
  exists p, e. auto.
Qed.

(** Half a cycle more on a count of at least 1024 is a count of at
    least 1024. *)
Lemma big_add : forall c, bigCycles c -> bigCycles (c + F32.lit 5 10).
Proof.
  intros c [-> | (m & e & -> & Hm & He)]; rewrite lit_half.
  - left. reflexivity.
  - unfold F32.add, SFadd, cond_Zopp.
    rewrite Z.min_r by lia.
    rewrite !shl_align_le by lia.
    set (S := (Z.pos m * 2 ^ (e - -24) + 8388608 * 2 ^ (-24 - -24))%Z).
    assert (HS : (2 ^ 23 * 2 ^ (e - -24) <= S)%Z).
    { subst S. pose proof (pow2_pos (e - -24) ltac:(lia)).
      replace (-24 - -24)%Z with 0%Z by lia. nia. }
    rewrite <- Z.pow_add_r in HS by lia.
    assert (HSpos : (0 < S)%Z).
    { pose proof (pow2_pos (23 + (e - -24)) ltac:(lia)). lia. }
    rewrite binary_normalize_pos by assumption.
    clearbody S. destruct S as [|pS|pS]; try lia. simpl Z.to_pos.
    unfold binary_round. rewrite fexp_eq.
    destruct (digits2_pos_bounds pS) as [_ Dhi].
    assert (Hd : (23 + (e - -24) < Z.pos (digits2_pos pS))%Z).
    { apply (Z.pow_lt_mono_r_iff 2); lia. }
    rewrite shl_align_ge by lia.
    destruct (round_exact_normal false pS (-24)) as (m1 & e1 & Hr & Hm1 & He1 & _);
      [lia | lia |].
    rewrite Hr. apply finish_big; lia.
Qed.

(** A tenth of a count of at least 1024 is at least 100. *)
Lemma mul_tenth_big : forall m e,
    (2 ^ 23 <= Z.pos m < 2 ^ 24)%Z -> (-13 <= e)%Z ->
    exists m1 e1,
      S754_finite false m e * F32.lit 1 10 = finish false m1 e1 /\
      (2 ^ 23 <= m1 < 2 ^ 24)%Z /\
      (-17 < e1 \/ (e1 = -17 /\ 13107200 <= m1))%Z.
Proof.
  intros m e Hm He. rewrite lit_tenth. unfold F32.mul, SFmul.
  cbn [xorb].
  change (2 ^ 23)%Z with 8388608%Z in *.
  change (2 ^ 24)%Z with 16777216%Z in *.
  pose proof (Pos2Z.inj_mul m 13421773) as HM.
  assert (Hd : (Z.pos (digits2_pos (m * 13421773)) = 47 /\
                Z.pos m * 13421773 < 2 ^ 47)%Z \/
               (Z.pos (digits2_pos (m * 13421773)) = 48 /\
                2 ^ 47 <= Z.pos m * 13421773)%Z).
  { destruct (Z.lt_ge_cases (Z.pos m * 13421773) (2 ^ 47)) as [Hlt | Hge];
      [left | right]; (split; [|assumption]);
      apply digits2_pos_unique; rewrite HM;
      change (2 ^ 47)%Z with 140737488355328%Z in *;
      [ change (2 ^ (47 - 1))%Z with 70368744177664%Z
      | change (2 ^ (48 - 1))%Z with 140737488355328%Z;
        change (2 ^ 48)%Z with 281474976710656%Z ]; lia. }
  change (2 ^ 47)%Z with 140737488355328%Z in Hd.
  destruct (round_exact_normal false (m * 13421773) (e + -27))
    as (m1 & e1 & Hr & Hm1 & He1 & Hq); [lia | lia |].
  change (2 ^ 23)%Z with 8388608%Z in *.
  change (2 ^ 24)%Z with 16777216%Z in *.
  exists m1, e1. split; [exact Hr|]. split; [lia|].
  destruct (Z.eq_dec e1 (-17)) as [E17 | E17]; [right | left; lia].
  split; [assumption|].
  assert (Hd47 : Z.pos (digits2_pos (m * 13421773)) = 47%Z) by lia.
  rewrite Hd47, HM in Hq.
  change (2 ^ (47 - 24))%Z with 8388608%Z in Hq.
  assert (13421773 <= Z.pos m * 13421773 / 8388608)%Z.
  { Z.to_euclidean_division_equations. lia. }
  lia.
Qed.

(** The state of health computed from a product of at least 100 is a
    zero. *)
Lemma soh_of_large_product : forall m1 e1,
    (2 ^ 23 <= m1 < 2 ^ 24)%Z ->
    (-17 < e1 \/ (e1 = -17 /\ 13107200 <= m1))%Z ->
    let soh0 := F32.lit 100 1 - finish false m1 e1 in
    let soh1 := if soh0 > F32.lit 100 1 then F32.lit 100 1 else soh0 in
    let soh := if soh1 < F32.lit 0 1 then F32.lit 0 1 else soh1 in
    soh = S754_zero false \/ soh = S754_zero true.
Proof.
  intros [|p|p] e1 Hm He; try lia.
  change (2 ^ 23)%Z with 8388608%Z in *.
  rewrite lit_100, lit_0. unfold finish.
  destruct (Z.leb e1 _); [|left; reflexivity].
  unfold F32.sub, SFsub, cond_Zopp.
  rewrite Z.min_l by lia.
  rewrite !shl_align_le by lia.
  set (D := (13107200 * 2 ^ (-17 - -17) - Z.pos p * 2 ^ (e1 - -17))%Z).
  assert (HD : (D <= 0)%Z).
  { subst D. change (2 ^ (-17 - -17))%Z with 1%Z.
    destruct He as [He | [-> He]].
    - assert (2 ^ 1 <= 2 ^ (e1 - -17))%Z by (apply Z.pow_le_mono_r; lia).
      change (2 ^ 1)%Z with 2%Z in *. nia.
    - change (2 ^ (-17 - -17))%Z with 1%Z. lia. }
  clearbody D. destruct D as [|pD|pD]; try lia.
  - left. reflexivity.
  - cbn [binary_normalize]. unfold binary_round.
    destruct (shl_align _ _ _) as [mz ez].
    destruct (round_exact_sign true mz ez) as (mm & ee & Hmm & Hr).
    rewrite Hr. destruct mm as [|q|q]; try lia; unfold finish.
    + right. reflexivity.
    + destruct (Z.leb ee _); left; reflexivity.
Qed.

Lemma big_soh : forall c,
    bigCycles c -> sohOf c = S754_zero false \/ sohOf c = S754_zero true.
Proof.
  intros c [-> | (m & e & -> & Hm & He)].
  - left. vm_compute. reflexivity.
  - destruct (mul_tenth_big m e Hm He) as (m1 & e1 & Hy & Hm1 & He1).
    unfold sohOf. rewrite Hy.
    exact (soh_of_large_product m1 e1 Hm1 He1).
Qed.

Lemma zero_le_zero : forall a b,
    (a = S754_zero false \/ a = S754_zero true) ->
    (b = S754_zero false \/ b = S754_zero true) ->
    (a <= b) = true.
Proof. intros a b [-> | ->] [-> | ->]; reflexivity. Qed.

(** One more call of [updateSoH], with or without a half cycle counted,
    does not raise the state of health and keeps the count among the
    reachable ones. *)
Lemma counted_step : forall c c',
    countedCycles c ->
    c' = c \/ c' = c + F32.lit 5 10 ->
    countedCycles c' /\ (sohOf c' <= sohOf c) = true.
Proof.
  intros c c' Hc Hstep.
  assert (Hbig : bigCycles c ->
                 countedCycles c' /\ (sohOf c' <= sohOf c) = true).
  { intros Hb.
    assert (Hb' : bigCycles c')
      by (destruct Hstep as [-> | ->]; [assumption | now apply big_add]).
    split; [now right|]. apply zero_le_zero; now apply big_soh. }
  destruct Hc as [(k & Hk & ->) | Hb]; [|now apply Hbig].
  destruct (Z.eq_dec k 2048) as [-> | Hne];
    [apply Hbig, halves_2048_big|].
  pose proof (halfCycleCheck_small k ltac:(lia)) as Hchk.
  unfold halfCycleCheck in Hchk.
  apply andb_true_iff in Hchk. destruct Hchk as [Hchk Hrefl].
  apply andb_true_iff in Hrefl. destruct Hrefl as [_ Hrefl].
  apply andb_true_iff in Hchk. destruct Hchk as [Hadd Hle].
  apply float_eqb_eq in Hadd.
  destruct Hstep as [-> | ->].
  - split; [left; exists k; split; [lia | reflexivity] | exact Hrefl].
  - rewrite Hadd. split; [|exact Hle].
    left. exists (k + 1)%Z. split; [lia | reflexivity].
Qed.

Lemma update_cycles_step : forall dt r b,
    let b' := fst (BMS.update dt r b) in
    (BMS.m_chargeCycles b' = BMS.m_chargeCycles b \/
     BMS.m_chargeCycles b' = BMS.m_chargeCycles b + F32.lit 5 10) /\
    BMS.m_stateOfHealth_percent b' = sohOf (BMS.m_chargeCycles b').
Proof.
  intros dt r b. cbv zeta.
  destruct (update_fields dt r b) as (_ & _ & _ & _ & Hh & Hc & _).
  cbv zeta in *. rewrite Hh, Hc, updateSoH_soh. split; [|reflexivity].
  pose proof (updateSoH_latches (beforeHealth dt r b)) as H.
  cbv zeta in H.
  change (BMS.m_chargeCycles (beforeHealth dt r b))
    with (BMS.m_chargeCycles b) in H.
  destruct (andb _ _) in H; destruct H as (H & _); rewrite H; auto.
Qed.

(** In every reachable state the cycle count is a reachable count and
    the state of health is the one of that count. *)
Lemma reachable_invariant : forall b,
    reachable b ->
    countedCycles (BMS.m_chargeCycles b) /\
    BMS.m_stateOfHealth_percent b = sohOf (BMS.m_chargeCycles b).
Proof.
  induction 1 as [|dt r b Hb [IHc IHs]].
  - split; [|vm_compute; reflexivity].
    left. exists 0%Z. split; [lia | vm_compute; reflexivity].
  - destruct (update_cycles_step dt r b) as [Hstep Hsoh].
    cbv zeta in *. split; [|exact Hsoh].
    exact (proj1 (counted_step _ _ IHc Hstep)).
Qed.

(** In every reachable state the state of health is a number of
    [0, 100]. *)
Lemma reachable_soh_in_range : forall b,
    reachable b ->
    (BMS.getSoH b >= F32.lit 0 1) = true /\
    (BMS.getSoH b <= F32.lit 100 1) = true.
Proof.
  intros b Hb. destruct (reachable_invariant b Hb) as [Hc Hs].
  unfold BMS.getSoH. rewrite Hs.
  assert (Hbig : forall c, bigCycles c ->
                           (sohOf c >= F32.lit 0 1) = true /\
                           (sohOf c <= F32.lit 100 1) = true).
  { intros c Hc'. destruct (big_soh c Hc') as [-> | ->];
      split; vm_compute; reflexivity. }
  destruct Hc as [(k & Hk & ->) | Hc]; [|now apply Hbig].
  destruct (Z.eq_dec k 2048) as [-> | Hne];
    [apply Hbig, halves_2048_big|].
  pose proof (halfCycleCheck_small k ltac:(lia)) as Hchk.
  unfold halfCycleCheck in Hchk.
  apply andb_true_iff in Hchk. destruct Hchk as [_ Hrange].
  apply andb_true_iff in Hrange. destruct Hrange as [Hrange _].
  apply andb_true_iff in Hrange. exact Hrange.
Qed.

(** [C7]: in every state the program can reach, a tick (and so the
    [updateSoH] call in it) leaves a state of health that is at most
    the one before it. *)
Theorem C7_state_of_health_never_increases :
  forall dt r b,
    reachable b ->
    (BMS.getSoH (fst (BMS.update dt r b)) <= BMS.getSoH b) = true /\
    (BMS.getSoH (fst (BMS.updateSoH (beforeHealth dt r b)))
     <= BMS.getSoH (beforeHealth dt r b)) = true.
Proof.
  intros dt r b Hb.
  destruct (reachable_invariant b Hb) as [Hc Hs].
  destruct (update_cycles_step dt r b) as [Hstep Hsoh]. cbv zeta in *.
  assert (H : (BMS.getSoH (fst (BMS.update dt r b)) <= BMS.getSoH b) = true).
  { unfold BMS.getSoH. rewrite Hsoh, Hs.
    exact (proj2 (counted_step _ _ Hc Hstep)). }
  split; [exact H|].
  destruct (update_fields dt r b) as (_ & _ & _ & _ & Hh & _).
  cbv zeta in Hh. unfold BMS.getSoH in *. rewrite <- Hh. exact H.
Qed.

(** The first tick of the program, at 1 A for one second. *)
Lemma C7_witness :
  (BMS.getSoH
     (fst (BMS.update (F32.lit 1 1)
                      (constantReadings (F32.lit 37 10) (F32.lit 25 1)
                                        (F32.lit 1 1))
                      BMS.init))
   <= BMS.getSoH BMS.init) = true.
Proof.
  exact (proj1 (C7_state_of_health_never_increases
                  (F32.lit 1 1)
                  (constantReadings (F32.lit 37 10) (F32.lit 25 1)
                                    (F32.lit 1 1))
                  BMS.init reachable_init)).
Defined.

End HealthEstimator.

(** * Further properties of the code *)

(** ** Comparisons with the constants of [Constants.h] *)

Section Bands.

Local Open Scope f32_scope.
Import SafetyManager.

Lemma compare_pp : forall m e mc ec,
    SFcompare (S754_finite false m e) (S754_finite false mc ec)
    = Some (match (e ?= ec)%Z with
            | Lt => Lt
            | Gt => Gt
            | Eq => (Z.pos m ?= Z.pos mc)%Z
            end).
Proof.
  intros. unfold SFcompare. rewrite Pos.compare_cont_spec.
  unfold Pos.switch_Eq. rewrite Pos2Z.inj_compare.
  destruct (e ?= ec)%Z; try reflexivity.
  destruct (Z.pos m ?= Z.pos mc)%Z; reflexivity.
Qed.

Lemma compare_nn : forall m e mc ec,
    SFcompare (S754_finite true m e) (S754_finite true mc ec)
    = Some (match (e ?= ec)%Z with
            | Lt => Gt
            | Gt => Lt
            | Eq => (Z.pos mc ?= Z.pos m)%Z
            end).
Proof.
  intros. unfold SFcompare. rewrite Pos.compare_cont_spec.
  unfold Pos.switch_Eq. rewrite Pos2Z.inj_compare.
  destruct (e ?= ec)%Z; try reflexivity.
  rewrite (Z.compare_antisym (Z.pos m) (Z.pos mc)).
  destruct (Z.pos m ?= Z.pos mc)%Z; reflexivity.
Qed.

Ltac by_compare e ec m mc :=
  destruct (Z.compare_spec e ec);
  [destruct (Z.compare_spec (Z.pos m) (Z.pos mc)) | | ]; lia.

Lemma lt_pp : forall m e mc ec,
    (S754_finite false m e < S754_finite false mc ec)
    = ((e <? ec) || ((e =? ec) && (Z.pos m <? Z.pos mc)))%Z%bool.
Proof. intros. unfold F32.lt. rewrite compare_pp. by_compare e ec m mc. Qed.

Lemma le_pp : forall m e mc ec,
    (S754_finite false m e <= S754_finite false mc ec)
    = ((e <? ec) || ((e =? ec) && (Z.pos m <=? Z.pos mc)))%Z%bool.
Proof. intros. unfold F32.le. rewrite compare_pp. by_compare e ec m mc. Qed.

Lemma gt_pp : forall m e mc ec,
    (S754_finite false m e > S754_finite false mc ec)
    = ((ec <? e) || ((e =? ec) && (Z.pos mc <? Z.pos m)))%Z%bool.
Proof. intros. unfold F32.gt. rewrite compare_pp. by_compare e ec m mc. Qed.

Lemma ge_pp : forall m e mc ec,
    (S754_finite false m e >= S754_finite false mc ec)
    = ((ec <? e) || ((e =? ec) && (Z.pos mc <=? Z.pos m)))%Z%bool.
Proof. intros. unfold F32.ge. rewrite compare_pp. by_compare e ec m mc. Qed.

Lemma lt_nn : forall m e mc ec,
    (S754_finite true m e < S754_finite true mc ec)
    = ((ec <? e) || ((e =? ec) && (Z.pos mc <? Z.pos m)))%Z%bool.
Proof. intros. unfold F32.lt. rewrite compare_nn. by_compare e ec mc m. Qed.

Lemma le_nn : forall m e mc ec,
    (S754_finite true m e <= S754_finite true mc ec)
    = ((ec <? e) || ((e =? ec) && (Z.pos mc <=? Z.pos m)))%Z%bool.
Proof. intros. unfold F32.le. rewrite compare_nn. by_compare e ec mc m. Qed.

Lemma gt_nn : forall m e mc ec,
    (S754_finite true m e > S754_finite true mc ec)
    = ((e <? ec) || ((e =? ec) && (Z.pos m <? Z.pos mc)))%Z%bool.
Proof. intros. unfold F32.gt. rewrite compare_nn. by_compare e ec mc m. Qed.

Lemma ge_nn : forall m e mc ec,
    (S754_finite true m e >= S754_finite true mc ec)
    = ((e <? ec) || ((e =? ec) && (Z.pos m <=? Z.pos mc)))%Z%bool.
Proof. intros. unfold F32.ge. rewrite compare_nn. by_compare e ec mc m. Qed.

Ltac bands :=
  unfold isVoltageNormal, isVoltageWarning, isVoltageCritical, isVoltageFault,
    isTemperatureNormal, isTemperatureWarning, isTemperatureCritical,
    isTemperatureFault, isSoHNormal, isSoHWarning, isSoHCritical,
    F32.is_nan,
    MIN_VOLTAGE_NORMAL, MIN_VOLTAGE_WARNING, MIN_VOLTAGE_CRITICAL,
    MIN_VOLTAGE_FAULT, MAX_VOLTAGE_NORMAL, MAX_VOLTAGE_WARNING,
    MAX_VOLTAGE_CRITICAL, MAX_VOLTAGE_FAULT,
    MIN_TEMP_NORMAL, MIN_TEMP_WARNING, MIN_TEMP_CRITICAL, MIN_TEMP_FAULT,
    MAX_TEMP_NORMAL, MAX_TEMP_WARNING, MAX_TEMP_CRITICAL, MAX_TEMP_FAULT,
    IDLE_CURRENT_THRESHOLD_A, MAX_DISCHARGE_CURRENT_NORMAL_A,
    MAX_DISCHARGE_CURRENT_WARNING_A, MAX_DISCHARGE_CURRENT_CRITICAL_A,
    MAX_CHARGE_CURRENT_NORMAL_A, MAX_CHARGE_CURRENT_WARNING_A,
    MAX_CHARGE_CURRENT_CRITICAL_A, SOH_THRESHOLD_WARNING,
    SOH_THRESHOLD_CRITICAL in *;
  cbn [F32.neg SFopp negb] in *;
  rewrite ?lt_pp, ?le_pp, ?gt_pp, ?ge_pp, ?lt_nn, ?le_nn, ?gt_nn, ?ge_nn in *;
  cbn [F32.lt F32.le F32.gt F32.ge SFcompare] in *.

(** The four voltage predicates are pairwise exclusive, and the voltages
    they all reject are NaN, those from 1.00 V up to but not including
    2.50 V, and those above 4.40 V up to 4.80 V. *)
Theorem X1_voltage_bands : forall v,
    (isVoltageNormal v && isVoltageWarning v = false)%bool /\
    (isVoltageNormal v && isVoltageCritical v = false)%bool /\
    (isVoltageNormal v && isVoltageFault v = false)%bool /\
    (isVoltageWarning v && isVoltageCritical v = false)%bool /\
    (isVoltageWarning v && isVoltageFault v = false)%bool /\
    (isVoltageCritical v && isVoltageFault v = false)%bool /\
    negb (isVoltageNormal v || isVoltageWarning v ||
          isVoltageCritical v || isVoltageFault v)
    = (F32.is_nan v
       || ((v >= MIN_VOLTAGE_FAULT) && (v < MIN_VOLTAGE_CRITICAL))
       || ((v > MAX_VOLTAGE_CRITICAL) && (v <= MAX_VOLTAGE_FAULT)))%bool.
Proof.
  intros [s|s| |s m e]; try destruct s; bands;
    try (repeat split; reflexivity); repeat split; lia.
Qed.

(** The same for the temperature: the predicates reject NaN, the
    temperatures from -20 C up to but not including -10 C, and those
    above 60 C up to 70 C. *)
Theorem X2_temperature_bands : forall t,
    (isTemperatureNormal t && isTemperatureWarning t = false)%bool /\
    (isTemperatureNormal t && isTemperatureCritical t = false)%bool /\
    (isTemperatureNormal t && isTemperatureFault t = false)%bool /\
    (isTemperatureWarning t && isTemperatureCritical t = false)%bool /\
    (isTemperatureWarning t && isTemperatureFault t = false)%bool /\
    (isTemperatureCritical t && isTemperatureFault t = false)%bool /\
    negb (isTemperatureNormal t || isTemperatureWarning t ||
          isTemperatureCritical t || isTemperatureFault t)
    = (F32.is_nan t
       || ((t >= MIN_TEMP_FAULT) && (t < MIN_TEMP_CRITICAL))
       || ((t > MAX_TEMP_CRITICAL) && (t <= MAX_TEMP_FAULT)))%bool.
Proof.
  intros [s|s| |s m e]; try destruct s; bands;
    try (repeat split; reflexivity); repeat split; lia.
Qed.

Lemma if_as_bool : forall a b c : bool,
    (if a then b else c) = ((a && b) || (negb a && c))%bool.
Proof. intros [] [] []; reflexivity. Qed.

Ltac current_bands :=
  unfold isCurrentNormal, isCurrentWarning, isCurrentCritical in *;
  rewrite !if_as_bool in *; bands.

(** The three current predicates are pairwise exclusive.  A current that
    is not above 0.05 A and not below -0.05 A (an idle or NaN reading)
    is normal.  The currents the three predicates all reject are those
    above 4 A and those below -20 A. *)
Theorem X3_current_bands : forall i,
    (isCurrentNormal i && isCurrentWarning i = false)%bool /\
    (isCurrentNormal i && isCurrentCritical i = false)%bool /\
    (isCurrentWarning i && isCurrentCritical i = false)%bool /\
    (negb (i > IDLE_CURRENT_THRESHOLD_A)
     && negb (i < - IDLE_CURRENT_THRESHOLD_A)
     && negb (isCurrentNormal i) = false)%bool /\
    negb (isCurrentNormal i || isCurrentWarning i || isCurrentCritical i)
    = ((i > MAX_CHARGE_CURRENT_CRITICAL_A)
       || (i < - MAX_DISCHARGE_CURRENT_CRITICAL_A))%bool.
Proof.
  intros [s|s| |s m e]; try destruct s; current_bands;
    try (repeat split; reflexivity); repeat split; lia.
Qed.

(** Exactly one of the three state-of-health predicates holds for a
    number, none for NaN. *)
Theorem X4_soh_bands : forall soh,
    (isSoHNormal soh && isSoHWarning soh = false)%bool /\
    (isSoHNormal soh && isSoHCritical soh = false)%bool /\
    (isSoHWarning soh && isSoHCritical soh = false)%bool /\
    (isSoHNormal soh || isSoHWarning soh || isSoHCritical soh)%bool
    = negb (F32.is_nan soh).
Proof.
  intros [s|s| |s m e]; try destruct s; bands;
    try (repeat split; reflexivity); repeat split; lia.
Qed.

Lemma normal_voltage_only : forall v,
    isVoltageNormal v = true ->
    isVoltageFault v = false /\ isVoltageCritical v = false /\
    isVoltageWarning v = false.
Proof.
  intros [s|s| |s m e]; try destruct s; bands; intros H;
    try discriminate H; repeat split; lia.
Qed.

Lemma normal_temperature_only : forall t,
    isTemperatureNormal t = true ->
    isTemperatureFault t = false /\ isTemperatureCritical t = false /\
    isTemperatureWarning t = false.
Proof.
  intros [s|s| |s m e]; try destruct s; bands; intros H;
    try discriminate H; try (repeat split; reflexivity); repeat split; lia.
Qed.

Lemma normal_current_only : forall i,
    isCurrentNormal i = true ->
    isCurrentCritical i = false /\ isCurrentWarning i = false.
Proof.
  intros [s|s| |s m e]; try destruct s; current_bands; intros H;
    try discriminate H; try (repeat split; reflexivity); repeat split; lia.
Qed.

Lemma normal_soh_only : forall soh,
    isSoHNormal soh = true ->
    isSoHCritical soh = false /\ isSoHWarning soh = false.
Proof.
  intros [s|s| |s m e]; try destruct s; bands; intros H;
    try discriminate H; try (repeat split; reflexivity); repeat split; lia.
Qed.

End Bands.

(** ** The classifier on whole packs *)

Section Classification.

Local Open Scope f32_scope.
Import SafetyManager.

Lemma existsb_false_Forall : forall (A : Type) (f : A -> bool) l,
    Forall (fun x => f x = false) l -> existsb f l = false.
Proof.
  intros A f l H. induction H as [|x l Hx _ IH]; simpl; [reflexivity|].
  now rewrite Hx, IH.
Qed.

(** When every cell has a normal voltage and a normal temperature, the
    pack current is normal and the state of health is normal, the state
    stored by [evaluate] is NORMAL. *)
Theorem X5_all_normal_is_NORMAL :
  forall cells packCurrent soh sm,
    Forall (fun c => isVoltageNormal (BatteryCell.getVoltage c) = true /\
                     isTemperatureNormal (BatteryCell.getTemperature c) = true)
           cells ->
    isCurrentNormal packCurrent = true ->
    isSoHNormal soh = true ->
    getCurrentState (fst (evaluate cells packCurrent soh sm)) = NORMAL.
Proof.
  intros cells i soh sm Hcells Hi Hs. rewrite evaluate_state.
  destruct (normal_current_only i Hi) as [Hic Hiw].
  destruct (normal_soh_only soh Hs) as [Hsc Hsw].
  assert (Hf : existsb cellFault cells = false /\
               existsb cellCritical cells = false /\
               existsb cellWarning cells = false).
  { repeat split; apply existsb_false_Forall;
      (eapply Forall_impl; [|exact Hcells]); intros c [Hv Ht];
      destruct (normal_voltage_only _ Hv) as (V1 & V2 & V3);
      destruct (normal_temperature_only _ Ht) as (T1 & T2 & T3);
      unfold cellFault, cellCritical, cellWarning;
      rewrite ?V1, ?V2, ?V3, ?T1, ?T2, ?T3; reflexivity. }
  destruct Hf as (F1 & F2 & F3).
  unfold proposedState. rewrite F1, F2, F3, Hic, Hiw, Hsc, Hsw. reflexivity.
Qed.

(** Four cells at 3.7 V / 25 C, a charge of 1 A, a state of health of
    100. *)
Lemma X5_witness :
  getCurrentState
    (fst (evaluate nominalPack (F32.lit 1 1) (F32.lit 100 1) init))
  = NORMAL.
Proof.
  apply (X5_all_normal_is_NORMAL nominalPack (F32.lit 1 1) (F32.lit 100 1)
                                 init).
  - repeat constructor.
  - reflexivity.
  - reflexivity.
Defined.

(** The tier of a pack is the worst of the tiers of its parts: of two
    groups of cells under the same pack signals, and of the cells alone
    (idle current, full health) and the pack signals alone (no cell).
    It does not depend on the order of the cells. *)
Theorem X6_tier_is_worst_signal :
  forall xs ys packCurrent soh,
    proposedState (xs ++ ys) packCurrent soh
    = worst (proposedState xs packCurrent soh)
            (proposedState ys packCurrent soh) /\
    proposedState xs packCurrent soh
    = worst (proposedState xs (F32.lit 0 1) (F32.lit 100 1))
            (proposedState [] packCurrent soh) /\
    (Permutation xs ys ->
     proposedState xs packCurrent soh = proposedState ys packCurrent soh).
Proof.
  intros xs ys i soh. split; [|split].
  - unfold proposedState. rewrite !existsb_app.
    destruct (existsb cellFault xs), (existsb cellFault ys),
      (isCurrentCritical i), (isSoHCritical soh),
      (existsb cellCritical xs), (existsb cellCritical ys),
      (isCurrentWarning i), (isSoHWarning soh),
      (existsb cellWarning xs), (existsb cellWarning ys); reflexivity.
  - unfold proposedState.
    change (isCurrentCritical (F32.lit 0 1)) with false.
    change (isSoHCritical (F32.lit 100 1)) with false.
    change (isCurrentWarning (F32.lit 0 1)) with false.
    change (isSoHWarning (F32.lit 100 1)) with false.
    simpl existsb.
    destruct (existsb cellFault xs),
      (isCurrentCritical i), (isSoHCritical soh),
      (existsb cellCritical xs),
      (isCurrentWarning i), (isSoHWarning soh),
      (existsb cellWarning xs); reflexivity.
  - intros HP.
    assert (Hex : forall f : BatteryCell.t -> bool,
               existsb f xs = existsb f ys).
    { intros f. induction HP as [|x l l' _ IH|x y l|l l' l'' _ IH1 _ IH2];
        simpl; [reflexivity | now rewrite IH | | congruence].
      destruct (f x), (f y); reflexivity. }
    unfold proposedState. now rewrite !Hex.
Qed.

(** Swapping two cells of a pack with a faulty cell. *)
Lemma X6_witness :
  proposedState (packWithCell2 (F32.lit 5 10)) (F32.lit 1 1) (F32.lit 100 1)
  = proposedState
      [cellAt (F32.lit 37 10) (F32.lit 25 1) 1;
       cellAt (F32.lit 37 10) (F32.lit 25 1) 0;
       cellAt (F32.lit 5 10) (F32.lit 25 1) 2;
       cellAt (F32.lit 37 10) (F32.lit 25 1) 3]
      (F32.lit 1 1) (F32.lit 100 1).
Proof.
  apply (proj2 (proj2 (X6_tier_is_worst_signal
                         (packWithCell2 (F32.lit 5 10)) _
                         (F32.lit 1 1) (F32.lit 100 1)))).
  apply perm_swap.
Defined.

(** Readings that are not numbers.  A cell whose voltage and temperature
    are NaN is invisible to the classifier, a NaN pack current and a NaN
    state of health raise no tier; an infinite voltage or temperature is
    a FAULT. *)
Theorem X7_nan_is_ignored_infinity_is_FAULT :
  forall id cells packCurrent soh s reading,
    proposedState (BatteryCell.Build id S754_nan S754_nan :: cells)
                  packCurrent soh
    = proposedState cells packCurrent soh /\
    proposedState cells S754_nan S754_nan
    = proposedState cells (F32.lit 0 1) (F32.lit 100 1) /\
    proposedState (BatteryCell.Build id (S754_infinity s) reading :: cells)
                  packCurrent soh = FAULT /\
    proposedState (BatteryCell.Build id reading (S754_infinity s) :: cells)
                  packCurrent soh = FAULT.
Proof.
  intros id cells i soh s reading. split; [|split; [|split]].
  - reflexivity.
  - reflexivity.
  - apply proposed_fault. simpl existsb.
    replace (cellFault (BatteryCell.Build id (S754_infinity s) reading))
      with true; [reflexivity|].
    unfold cellFault, BatteryCell.getVoltage, BatteryCell.m_voltage.
    destruct s; reflexivity.
  - apply proposed_fault. simpl existsb.
    replace (cellFault (BatteryCell.Build id reading (S754_infinity s)))
      with true; [reflexivity|].
    unfold cellFault, BatteryCell.getTemperature, BatteryCell.m_temperature.
    replace (isTemperatureFault (S754_infinity s)) with true
      by (destruct s; reflexivity).
    symmetry. apply orb_true_r.
Qed.

(** Evaluating the same inputs a second time changes nothing and prints
    nothing: a transition line appears only when the tier changes. *)
Theorem X8_evaluate_twice :
  forall cells packCurrent soh sm,
    let once := evaluate cells packCurrent soh sm in
    let twice := evaluate cells packCurrent soh (fst once) in
    fst twice = fst once /\ snd twice = [] /\
    (snd once = [] <-> getCurrentState (fst once) = getCurrentState sm).
Proof.
  intros cells i soh [st]. cbv zeta. unfold evaluate, getCurrentState.
  cbn [m_currentState].
  destruct (SystemState_eqb (proposedState cells i soh) st) eqn:E;
    cbn [negb fst snd m_currentState].
  - rewrite E. cbn [negb fst snd]. repeat split; auto.
  - assert (R : SystemState_eqb (proposedState cells i soh)
                                (proposedState cells i soh) = true)
      by (now apply SystemState_eqb_eq).
    rewrite R. cbn [negb fst snd]. repeat split; auto.
    + discriminate.
    + intros H. apply SystemState_eqb_eq in H. congruence.
Qed.

End Classification.

(** ** One tick of the orchestrator *)

Section Tick.

Local Open Scope f32_scope.

Lemma readCells_nth : forall r cells k i,
    nth_error (BMS.readCells r k cells) i
    = option_map
        (fun c => BatteryCell.Build (BatteryCell.m_id c)
                                    (readVoltage r (k + i))
                                    (readTemperature r (k + i)))
        (nth_error cells i).
Proof.
  intros r cells. induction cells as [|c rest IH]; intros k [|i]; simpl;
    try reflexivity.
  - now rewrite Nat.add_0_r.
  - rewrite IH. now rewrite Nat.add_succ_r.
Qed.

Lemma readCells_ids : forall r cells k,
    map BatteryCell.m_id (BMS.readCells r k cells)
    = map BatteryCell.m_id cells.
Proof.
  intros r cells. induction cells as [|c rest IH]; intros k; simpl;
    [reflexivity | now rewrite IH].
Qed.

Lemma update_cells : forall dt r b,
    BMS.m_cells (fst (BMS.update dt r b)) = BMS.readCells r 0 (BMS.m_cells b) /\
    BMS.m_packCurrent (fst (BMS.update dt r b)) = readCurrent r.
Proof.
  intros dt r b.
  destruct (update_fields dt r b) as (Hc & Hp & _).
  destruct (updateSoH_frame (beforeHealth dt r b)) as (_ & Hc' & Hp' & _).
  cbv zeta in *. rewrite Hc, Hp, Hc', Hp'. split; reflexivity.
Qed.

(** A tick overwrites the readings of every cell of the pack with the
    voltage and the temperature read for its position, keeps its id, and
    stores the pack current read. *)
Theorem X9_tick_stores_the_readings :
  forall dt r b i c,
    nth_error (BMS.m_cells b) i = Some c ->
    nth_error (BMS.m_cells (fst (BMS.update dt r b))) i
    = Some (BatteryCell.Build (BatteryCell.getId c) (readVoltage r i)
                              (readTemperature r i)) /\
    length (BMS.m_cells (fst (BMS.update dt r b))) = length (BMS.m_cells b) /\
    BMS.getPackCurrent (fst (BMS.update dt r b)) = readCurrent r.
Proof.
  intros dt r b i c Hc.
  destruct (update_cells dt r b) as [Hcells Hcur].
  unfold BMS.getPackCurrent. rewrite Hcells, Hcur.
  split; [|split; [|reflexivity]].
  - rewrite readCells_nth, Hc. reflexivity.
  - rewrite <- (length_map BatteryCell.m_id), readCells_ids.
    apply length_map.
Qed.

(** Cell 2 of the constructed pack after a first tick. *)
Lemma X9_witness :
  nth_error
    (BMS.m_cells
       (fst (BMS.update (F32.lit 1 1)
                        (constantReadings (F32.lit 37 10) (F32.lit 25 1)
                                          (F32.lit 1 1))
                        BMS.init))) 2
  = Some (BatteryCell.Build 2 (F32.lit 37 10) (F32.lit 25 1)).
Proof.
  exact (proj1 (X9_tick_stores_the_readings
                  (F32.lit 1 1)
                  (constantReadings (F32.lit 37 10) (F32.lit 25 1)
                                    (F32.lit 1 1))
                  BMS.init 2
                  (BatteryCell.Build 2 (F32.lit 0 1) (F32.lit 0 1))
                  eq_refl)).
Defined.

(** In every reachable state the pack has [NUM_CELLS] cells and their
    ids are 0, 1, 2, 3 in this order. *)
Theorem X10_cell_ids_are_fixed :
  forall b,
    reachable b ->
    map BatteryCell.getId (BMS.m_cells b) = [0; 1; 2; 3]%Z /\
    length (BMS.m_cells b) = NUM_CELLS.
Proof.
  intros b Hb.
  assert (H : map BatteryCell.m_id (BMS.m_cells b) = [0; 1; 2; 3]%Z).
  { induction Hb as [|dt r b Hb IH]; [reflexivity|].
    destruct (update_cells dt r b) as [Hcells _].
    now rewrite Hcells, readCells_ids. }
  split; [exact H|].
  rewrite <- (length_map BatteryCell.m_id), H. reflexivity.
Qed.

Lemma X10_witness :
  map BatteryCell.getId
      (BMS.m_cells
         (fst (BMS.update (F32.lit 1 1)
                          (constantReadings (F32.lit 37 10) (F32.lit 25 1)
                                            (F32.lit 1 1))
                          BMS.init)))
  = [0; 1; 2; 3]%Z.
Proof.
  exact (proj1 (X10_cell_ids_are_fixed _
                  (reachable_update (F32.lit 1 1)
                     (constantReadings (F32.lit 37 10) (F32.lit 25 1)
                                       (F32.lit 1 1))
                     BMS.init reachable_init))).
Defined.

(** After a tick the tier the BMS exposes is the classification of what
    the tick stored: the cells and the pack current just read and the
    state of health just computed.  The tier before the tick plays no
    part: two states that differ only in their safety manager expose the
    same tier after the same tick. *)
Theorem X11_tier_after_tick_is_fresh :
  forall dt r b sm,
    let b' := fst (BMS.update dt r b) in
    let b2 := fst (BMS.update dt r
                     (BMS.Build sm (BMS.m_cells b) (BMS.m_packCurrent b)
                        (BMS.m_accumulatedCharge_mAh b)
                        (BMS.m_stateOfCharge_percent b)
                        (BMS.m_stateOfHealth_percent b)
                        (BMS.m_chargeCycles b) (BMS.m_wasFull b)
                        (BMS.m_wasEmpty b) (BMS.m_isChargingFlag b))) in
    BMS.getCurrentState b'
    = SafetyManager.proposedState (BMS.m_cells b') (BMS.getPackCurrent b')
                                  (BMS.getSoH b') /\
    BMS.getCurrentState b2 = BMS.getCurrentState b'.
Proof.
  intros dt r b sm. cbv zeta.
  assert (H : forall b0,
             BMS.getCurrentState (fst (BMS.update dt r b0))
             = SafetyManager.proposedState
                 (BMS.m_cells (fst (BMS.update dt r b0)))
                 (BMS.getPackCurrent (fst (BMS.update dt r b0)))
                 (BMS.getSoH (fst (BMS.update dt r b0)))).
  { intros b0. unfold BMS.getCurrentState, BMS.getPackCurrent, BMS.getSoH.
    rewrite update_safetyManager. cbv zeta. rewrite evaluate_state.
    destruct (update_fields dt r b0) as (Hc & Hp & _ & _ & Hh & _).
    cbv zeta in *. now rewrite Hc, Hp, Hh. }
  split; [apply H|].
  rewrite !H.
  set (bsm := BMS.Build sm (BMS.m_cells b) (BMS.m_packCurrent b)
                (BMS.m_accumulatedCharge_mAh b)
                (BMS.m_stateOfCharge_percent b)
                (BMS.m_stateOfHealth_percent b)
                (BMS.m_chargeCycles b) (BMS.m_wasFull b)
                (BMS.m_wasEmpty b) (BMS.m_isChargingFlag b)).
  destruct (update_cells dt r b) as [C1 P1].
  destruct (update_cells dt r bsm) as [C2 P2].
  destruct (update_fields dt r b) as (_ & _ & _ & _ & H1 & _).
  destruct (update_fields dt r bsm) as (_ & _ & _ & _ & H2 & _).
  cbv zeta in *. unfold BMS.getPackCurrent, BMS.getSoH.
  rewrite C1, C2, P1, P2, H1, H2.
  assert (E : BMS.m_stateOfHealth_percent
                (fst (BMS.updateSoH (beforeHealth dt r bsm)))
              = BMS.m_stateOfHealth_percent
                  (fst (BMS.updateSoH (beforeHealth dt r b))))
    by (apply updateSoH_reads; reflexivity).
  now rewrite E.
Qed.

(** What a tick prints, in order. *)
Lemma update_output : forall dt r b,
    let b' := fst (BMS.update dt r b) in
    let b3 := fst (BMS.updateSoH (beforeHealth dt r b)) in
    snd (BMS.update dt r b)
    = BMS.printCells 0 (BMS.readCells r 0 (BMS.m_cells b))
      ++ [PackCurrentReading (readCurrent r)]
      ++ snd (BMS.updateSoH (beforeHealth dt r b))
      ++ snd (SafetyManager.evaluate (BMS.m_cells b3) (BMS.m_packCurrent b3)
                                     (BMS.m_stateOfHealth_percent b3)
                                     (BMS.m_safetyManager b3))
      ++ [BMS.stateAction (BMS.getCurrentState b');
          StatusLine (BMS.getCurrentState b') (BMS.getSoC b')
                     (BMS.getSoH b') (BMS.isCharging b')].
Proof.
  intros dt r b. unfold BMS.update. cbv zeta.
  fold (beforeHealth dt r b).
  destruct (BMS.updateSoH (beforeHealth dt r b)) as [b3 out3].
  cbn [fst snd].
  destruct (SafetyManager.evaluate _ _ _ _) as [sm out4]. reflexivity.
Qed.

Lemma printCells_only_readings : forall cells k x,
    In x (BMS.printCells k cells) -> exists id v t, x = CellReading id v t.
Proof.
  induction cells as [|c rest IH]; intros k x H; simpl in H; [contradiction|].
  destruct H as [<- | H]; [eauto | eapply IH; eassumption].
Qed.

Lemma updateSoH_output : forall b x,
    In x (snd (BMS.updateSoH b)) ->
    x = CycleIncremented (BMS.m_chargeCycles (fst (BMS.updateSoH b))).
Proof.
  intros b x. unfold BMS.updateSoH. cbv zeta.
  destruct (andb _ _); cbn [fst snd BMS.m_chargeCycles]; intros H;
    [destruct H as [<- | []]; reflexivity | destruct H].
Qed.

Lemma evaluate_output : forall cells i soh sm,
    snd (SafetyManager.evaluate cells i soh sm)
    = if SystemState_eqb (SafetyManager.proposedState cells i soh)
                         (SafetyManager.m_currentState sm)
      then []
      else [StateTransition (SafetyManager.m_currentState sm)
                            (SafetyManager.proposedState cells i soh)].
Proof.
  intros. unfold SafetyManager.evaluate.
  now destruct (SystemState_eqb _ _).
Qed.

Lemma last_two : forall (A : Type) (l : list A) a b d,
    last (l ++ [a; b]) d = b.
Proof.
  intros. change [a; b] with ([a] ++ [b]).
  rewrite app_assoc. apply last_last.
Qed.

(** A tick raises the fault alarm exactly when the tier it leaves is
    FAULT, and the last line it prints shows the tier, the state of
    charge, the state of health and the charging flag that the getters
    return afterwards. *)
Theorem X12_fault_alarm_iff_FAULT :
  forall dt r b,
    let b' := fst (BMS.update dt r b) in
    (In FaultAlarm (snd (BMS.update dt r b))
     <-> BMS.getCurrentState b' = FAULT) /\
    last (snd (BMS.update dt r b)) FaultAlarm
    = StatusLine (BMS.getCurrentState b') (BMS.getSoC b') (BMS.getSoH b')
                 (BMS.isCharging b').
Proof.
  intros dt r b. cbv zeta. rewrite update_output. cbv zeta.
  set (st := BMS.getCurrentState (fst (BMS.update dt r b))).
  split.
  - rewrite !in_app_iff. split.
    + intros [H | [H | [H | [H | H]]]].
      * apply printCells_only_readings in H.
        destruct H as (? & ? & ? & H). discriminate H.
      * destruct H as [H | []]. discriminate H.
      * apply updateSoH_output in H. discriminate H.
      * rewrite evaluate_output in H.
        destruct (SystemState_eqb _ _); [destruct H|].
        destruct H as [H | []]. discriminate H.
      * destruct H as [H | [H | []]]; [|discriminate H].
        destruct st; try discriminate H; reflexivity.
    + intros ->. do 4 right. left. reflexivity.
  - rewrite !app_assoc. apply last_two.
Qed.

(** A tick prints a transition line exactly when the tier it leaves
    differs from the tier before it, and the line names the two. *)
Theorem X13_transition_line_iff_tier_changed :
  forall dt r b old new,
    In (StateTransition old new) (snd (BMS.update dt r b))
    <-> (old = BMS.getCurrentState b /\
         new = BMS.getCurrentState (fst (BMS.update dt r b)) /\
         old <> new).
Proof.
  intros dt r b old new.
  assert (Hnew : BMS.getCurrentState (fst (BMS.update dt r b))
                 = SafetyManager.proposedState
                     (BMS.m_cells (fst (BMS.updateSoH (beforeHealth dt r b))))
                     (BMS.m_packCurrent
                        (fst (BMS.updateSoH (beforeHealth dt r b))))
                     (BMS.m_stateOfHealth_percent
                        (fst (BMS.updateSoH (beforeHealth dt r b))))).
  { unfold BMS.getCurrentState. rewrite update_safetyManager. cbv zeta.
    apply evaluate_state. }
  assert (Hold : SafetyManager.m_currentState
                   (BMS.m_safetyManager
                      (fst (BMS.updateSoH (beforeHealth dt r b))))
                 = BMS.getCurrentState b).
  { destruct (updateSoH_frame (beforeHealth dt r b)) as (Hs & _).
    cbv zeta in Hs. now rewrite Hs. }
  rewrite update_output. cbv zeta. rewrite evaluate_output, Hold, <- Hnew.
  set (st := BMS.getCurrentState (fst (BMS.update dt r b))).
  rewrite !in_app_iff. split.
  - intros [H | [H | [H | [H | H]]]].
    + apply printCells_only_readings in H.
      destruct H as (? & ? & ? & H). discriminate H.
    + destruct H as [H | []]. discriminate H.
    + apply updateSoH_output in H. discriminate H.
    + destruct (SystemState_eqb st (BMS.getCurrentState b)) eqn:E;
        [destruct H|].
      destruct H as [H | []]. injection H as <- <-.
      repeat split. intros Heq.
      assert (SystemState_eqb st (BMS.getCurrentState b) = true)
        by (apply SystemState_eqb_eq; congruence).
      congruence.
    + destruct H as [H | [H | []]]; [|discriminate H].
      destruct st; discriminate H.
  - intros (-> & -> & Hne). do 3 right. left.
    destruct (SystemState_eqb st (BMS.getCurrentState b)) eqn:E.
    + apply SystemState_eqb_eq in E. congruence.
    + left. reflexivity.
Qed.

End Tick.

(** ** More on the health estimator *)

Section HealthRuns.

Local Open Scope f32_scope.

(** A call that finds a state of charge below the full threshold, with
    the full latch clear, counts nothing and can only set [wasEmpty]. *)
Lemma healthCall_below_full : forall soc b,
    BMS.m_wasFull b = false ->
    (soc >= SOC_FULL_THRESHOLD_PERCENT) = false ->
    BMS.m_chargeCycles (healthCall soc b) = BMS.m_chargeCycles b /\
    BMS.m_wasFull (healthCall soc b) = false /\
    BMS.m_wasEmpty (healthCall soc b)
    = if soc <= SOC_EMPTY_THRESHOLD_PERCENT then true else BMS.m_wasEmpty b.
Proof.
  intros soc b Hf Hs. unfold healthCall.
  pose proof (updateSoH_latches (setSoC soc b)) as H. simpl in H.
  rewrite Hs, Hf in H. simpl in H. tauto.
Qed.

Lemma healthRun_below_full : forall socs b,
    BMS.m_wasFull b = false ->
    Forall (fun soc => (soc >= SOC_FULL_THRESHOLD_PERCENT) = false) socs ->
    BMS.m_chargeCycles (healthRun socs b) = BMS.m_chargeCycles b /\
    BMS.m_wasFull (healthRun socs b) = false /\
    (BMS.m_wasEmpty b = true \/
     Exists (fun soc => (soc <= SOC_EMPTY_THRESHOLD_PERCENT) = true) socs ->
     BMS.m_wasEmpty (healthRun socs b) = true).
Proof.
  induction socs as [|soc rest IH]; intros b Hf Hall; simpl.
  - repeat split; auto. intros [H | H]; [assumption | inversion H].
  - inversion Hall as [|? ? Hs Hrest]; subst.
    destruct (healthCall_below_full soc b Hf Hs) as (Hc & Hf' & He).
    destruct (IH (healthCall soc b) Hf' Hrest) as (Hc2 & Hf2 & He2).
    repeat split; [congruence | assumption |].
    intros Hempty. apply He2. rewrite He.
    destruct (soc <= SOC_EMPTY_THRESHOLD_PERCENT) eqn:Hle; [now left|].
    destruct Hempty as [Hw | Hex]; [now left|].
    inversion Hex; subst; [congruence | now right].
Qed.

(** The latches do not care about the order: a run of [updateSoH] calls
    that starts with the full latch clear, finds states of charge below
    the full threshold (98), one of them at or below the empty threshold
    (10), and then a state of charge at or above 98, counts half a cycle
    at that last call and at no call before, and leaves both latches
    clear. *)
Theorem X14_empty_then_full_counts_half_a_cycle :
  forall b socs socFull,
    BMS.m_wasFull b = false ->
    Forall (fun soc => (soc >= SOC_FULL_THRESHOLD_PERCENT) = false) socs ->
    Exists (fun soc => (soc <= SOC_EMPTY_THRESHOLD_PERCENT) = true) socs ->
    (socFull >= SOC_FULL_THRESHOLD_PERCENT) = true ->
    let b1 := healthRun socs b in
    let b2 := healthCall socFull b1 in
    (forall n,
        BMS.m_chargeCycles (healthRun (firstn n socs) b)
        = BMS.m_chargeCycles b) /\
    BMS.m_wasFull b1 = false /\ BMS.m_wasEmpty b1 = true /\
    BMS.m_chargeCycles b2 = BMS.m_chargeCycles b + F32.lit 5 10 /\
    BMS.m_wasFull b2 = false /\ BMS.m_wasEmpty b2 = false.
Proof.
  intros b socs socFull Hf Hall Hex HsF. cbv zeta.
  destruct (healthRun_below_full socs b Hf Hall) as (Hc & Hf1 & He1).
  specialize (He1 (or_intror Hex)).
  split; [|split; [exact Hf1 | split; [exact He1|]]].
  - intros n. apply (healthRun_below_full (firstn n socs) b Hf).
    now apply Forall_firstn.
  - unfold healthCall.
    pose proof (updateSoH_latches (setSoC socFull (healthRun socs b))) as H.
    simpl in H. rewrite HsF, He1 in H.
    destruct (socFull <= SOC_EMPTY_THRESHOLD_PERCENT); simpl in H;
      destruct H as (H1 & H2 & H3); rewrite H1, Hc; auto.
Qed.

(** From the constructed state: 50, 5, 60, then 99. *)
Lemma X14_witness :
  let b1 := healthRun [F32.lit 50 1; F32.lit 5 1; F32.lit 60 1] BMS.init in
  let b2 := healthCall (F32.lit 99 1) b1 in
  BMS.m_wasFull b1 = false /\ BMS.m_wasEmpty b1 = true /\
  BMS.m_chargeCycles b2 = BMS.m_chargeCycles BMS.init + F32.lit 5 10 /\
  BMS.m_wasFull b2 = false /\ BMS.m_wasEmpty b2 = false.
Proof.
  assert (Hall : Forall (fun soc => (soc >= SOC_FULL_THRESHOLD_PERCENT) = false)
                        [F32.lit 50 1; F32.lit 5 1; F32.lit 60 1])
    by (repeat constructor).
  assert (Hex : Exists (fun soc => (soc <= SOC_EMPTY_THRESHOLD_PERCENT) = true)
                       [F32.lit 50 1; F32.lit 5 1; F32.lit 60 1])
    by (apply Exists_cons_tl, Exists_cons_hd; reflexivity).
  exact (proj2 (X14_empty_then_full_counts_half_a_cycle
                  BMS.init [F32.lit 50 1; F32.lit 5 1; F32.lit 60 1]
                  (F32.lit 99 1) eq_refl Hall Hex eq_refl)).
Defined.

Lemma first_half_cycles_order :
  forallb halfCycleOrder (map Z.of_nat (seq 0 2048)) = true.
Proof. vm_compute. reflexivity. Qed.

Lemma halfCycleOrder_small : forall k,
    (0 <= k < 2048)%Z -> halfCycleOrder k = true.
Proof.
  intros k Hk.
  apply (proj1 (forallb_forall _ _) first_half_cycles_order).
  apply in_map_iff. exists (Z.to_nat k). split; [lia|].
  apply in_seq. lia.
Qed.

Lemma big_ge_refl : forall c, bigCycles c -> (c >= c) = true.
Proof.
  intros c [-> | (m & e & -> & _)]; [reflexivity|].
  rewrite ge_pp. lia.
Qed.

(** Half a cycle more on a count of at least 1024 does not lower it. *)
Lemma big_add_ge : forall c, bigCycles c -> (c + F32.lit 5 10 >= c) = true.
Proof.
  intros c [-> | (m & e & -> & Hm & He)]; rewrite lit_half.
  - reflexivity.
  - unfold F32.add, SFadd, cond_Zopp.
    rewrite Z.min_r by lia.
    rewrite !shl_align_le by lia.
    set (S := (Z.pos m * 2 ^ (e - -24) + 8388608 * 2 ^ (-24 - -24))%Z).
    pose proof (pow2_pos (e - -24) ltac:(lia)) as Hp.
    assert (HS1 : (Z.pos m * 2 ^ (e - -24) <= S)%Z).
    { subst S. replace (-24 - -24)%Z with 0%Z by lia. lia. }
    assert (HS : (2 ^ 23 * 2 ^ (e - -24) <= S)%Z) by nia.
    rewrite <- Z.pow_add_r in HS by lia.
    assert (HSpos : (0 < S)%Z).
    { pose proof (pow2_pos (23 + (e - -24)) ltac:(lia)). lia. }
    rewrite binary_normalize_pos by assumption.
    clearbody S. destruct S as [|pS|pS]; try lia. simpl Z.to_pos.
    unfold binary_round. rewrite fexp_eq.
    destruct (digits2_pos_bounds pS) as [_ Dhi].
    assert (Hd : (23 + (e - -24) < Z.pos (digits2_pos pS))%Z).
    { apply (Z.pow_lt_mono_r_iff 2); lia. }
    rewrite shl_align_ge by lia.
    destruct (round_exact_normal false pS (-24))
      as (m1 & e1 & Hr & Hm1 & He1 & Hq); [lia | lia |].
    rewrite Hr. clear Hr.
    assert (Hord : (e < e1 \/ (e1 = e /\ Z.pos m <= m1))%Z).
    { destruct (Z.eq_dec e1 e) as [-> | Hne]; [right | left; lia].
      split; [reflexivity|].
      assert (Hdd : (Z.pos (digits2_pos pS) - 24 = e - -24)%Z) by lia.
      rewrite Hdd in Hq.
      eapply Z.le_trans; [|apply Hq; lia].
      apply Z.div_le_lower_bound; lia. }
    destruct m1 as [|p1|p1]; try lia. unfold finish.
    destruct (Z.leb e1 _); [|reflexivity].
    rewrite ge_pp. lia.
Qed.

Lemma counted_step_ge : forall c c',
    countedCycles c ->
    c' = c \/ c' = c + F32.lit 5 10 ->
    (c' >= c) = true.
Proof.
  intros c c' Hc Hstep.
  assert (Hbig : bigCycles c -> (c' >= c) = true).
  { intros Hb. destruct Hstep as [-> | ->];
      [now apply big_ge_refl | now apply big_add_ge]. }
  destruct Hc as [(k & Hk & ->) | Hb]; [|now apply Hbig].
  destruct (Z.eq_dec k 2048) as [-> | Hne];
    [apply Hbig, halves_2048_big|].
  pose proof (halfCycleOrder_small k ltac:(lia)) as Hchk.
  unfold halfCycleOrder in Hchk.
  apply andb_true_iff in Hchk. destruct Hchk as [Hnext Hrefl].
  destruct Hstep as [-> | ->]; [exact Hrefl|].
  rewrite halves_add by lia. exact Hnext.
Qed.

(** In every state the program can reach, a tick never lowers the cycle
    count, and the count is a number. *)
Theorem X15_cycle_count_never_decreases :
  forall dt r b,
    reachable b ->
    (BMS.m_chargeCycles (fst (BMS.update dt r b)) >= BMS.m_chargeCycles b)
    = true.
Proof.
  intros dt r b Hb.
  destruct (reachable_invariant b Hb) as [Hc _].
  destruct (update_cycles_step dt r b) as [Hstep _]. cbv zeta in Hstep.
  now apply counted_step_ge.
Qed.

Lemma X15_witness :
  (BMS.m_chargeCycles
     (fst (BMS.update (F32.lit 1 1)
                      (constantReadings (F32.lit 37 10) (F32.lit 25 1)
                                        (F32.lit 1 1))
                      BMS.init))
   >= BMS.m_chargeCycles BMS.init) = true.
Proof.
  exact (X15_cycle_count_never_decreases
           (F32.lit 1 1)
           (constantReadings (F32.lit 37 10) (F32.lit 25 1) (F32.lit 1 1))
           BMS.init reachable_init).
Defined.

(** In every state the program can reach, the state of health is a
    number between 0 and 100, whatever the readings and the elapsed
    times of the ticks were. *)
Theorem X16_state_of_health_stays_in_range :
  forall b,
    reachable b ->
    (BMS.getSoH b >= F32.lit 0 1) = true /\
    (BMS.getSoH b <= F32.lit 100 1) = true.
Proof. exact reachable_soh_in_range. Qed.

(** After a tick that reads a NaN current during a NaN time. *)
Lemma X16_witness :
  (BMS.getSoH
     (fst (BMS.update S754_nan
                      (constantReadings S754_nan S754_nan S754_nan)
                      BMS.init))
   >= F32.lit 0 1) = true /\
  (BMS.getSoH
     (fst (BMS.update S754_nan
                      (constantReadings S754_nan S754_nan S754_nan)
                      BMS.init))
   <= F32.lit 100 1) = true.
Proof.
  exact (X16_state_of_health_stays_in_range _
           (reachable_update S754_nan
              (constantReadings S754_nan S754_nan S754_nan)
              BMS.init reachable_init)).
Defined.

End HealthRuns.

(** ** Operations that cannot produce NaN *)

Section NoNaN.

Local Open Scope f32_scope.

Lemma shr_record_of_loc_m : forall m l, shr_m (shr_record_of_loc m l) = m.
Proof. intros m [|[]]; reflexivity. Qed.

Lemma Zdigits2_bound : forall m,
    (0 <= m)%Z -> (0 <= Zdigits2 m /\ m < 2 ^ Zdigits2 m)%Z.
Proof.
  intros [|p|p] H; simpl; try lia.
  destruct (digits2_pos_bounds p). lia.
Qed.

(** Whatever the position of the discarded bits, rounding a nonnegative
    significand gives a zero, a finite number or an infinity of the sign
    asked for. *)
Lemma round_any_sign : forall sx mz ez lz,
    (0 <= mz)%Z ->
    exists m e,
      (0 <= m)%Z /\
      binary_round_aux F32.prec F32.emax sx mz ez lz = finish sx m e.
Proof.
  intros sx mz ez lz Hmz.
  assert (Hr : binary_round_aux F32.prec F32.emax sx mz ez lz
               = let '(mrs', e') := shr_fexp F32.prec F32.emax mz ez lz in
                 let '(mrs'', e'') :=
                   shr_fexp F32.prec F32.emax
                     (round_nearest_even (shr_m mrs') (loc_of_shr_record mrs'))
                     e' loc_Exact in
                 finish sx (shr_m mrs'') e'').
  { unfold binary_round_aux, finish.
    destruct (shr_fexp _ _ mz ez lz) as [mrs' e'].
    destruct (shr_fexp _ _ _ e' loc_Exact) as [mrs'' e''].
    reflexivity. }
  rewrite Hr. clear Hr.
  destruct (Zdigits2_bound mz Hmz) as [Hd0 Hd].
  unfold shr_fexp at 1. rewrite fexp_eq.
  set (n := (Z.max (Zdigits2 mz + ez - 24) (-149) - ez)%Z).
  assert (Hstage : forall m1 e1,
             (-149 <= e1)%Z -> (0 <= m1 <= 2 ^ 24)%Z ->
             exists m e,
               (0 <= m)%Z /\
               (let '(mrs, e0) := shr_fexp F32.prec F32.emax m1 e1 loc_Exact in
                finish sx (shr_m mrs) e0) = finish sx m e).
  { intros m1 e1 He1 Hm1. rewrite round_second_stage by assumption.
    destruct (m1 <? 2 ^ 24)%Z.
    - exists m1, e1. split; [lia | reflexivity].
    - exists (2 ^ 23)%Z, (e1 + 1)%Z. split; [lia | reflexivity]. }
  destruct (Z.leb_spec n 0) as [Hn | Hn].
  - rewrite shr_nonpos by assumption.
    rewrite shr_record_of_loc_m.
    destruct (round_nearest_even_cases mz
                (loc_of_shr_record (shr_record_of_loc mz lz))) as [-> | ->];
      apply Hstage; try lia.
    + assert (mz < 2 ^ 24)%Z; [|lia].
      eapply Z.lt_le_trans; [exact Hd|]. apply Z.pow_le_mono_r; lia.
    + assert (mz < 2 ^ 24)%Z; [|lia].
      eapply Z.lt_le_trans; [exact Hd|]. apply Z.pow_le_mono_r; lia.
  - destruct n as [|pn|pn] eqn:En; try lia. unfold shr.
    set (mrs' := iter_pos shr_1 pn _).
    assert (Hq : shr_m mrs' = (mz / 2 ^ Z.pos pn)%Z).
    { subst mrs'. rewrite iter_shr_1_m; rewrite shr_record_of_loc_m;
        [reflexivity | assumption]. }
    assert (Hb : (0 <= mz / 2 ^ Z.pos pn < 2 ^ 24)%Z).
    { pose proof (pow2_pos (Z.pos pn) ltac:(lia)) as Hp.
      split; [apply Z.div_pos; lia|].
      apply Z.div_lt_upper_bound; [lia|].
      rewrite <- Z.pow_add_r by lia.
      eapply Z.lt_le_trans; [exact Hd|].
      apply Z.pow_le_mono_r; lia. }
    destruct (round_nearest_even_cases (shr_m mrs') (loc_of_shr_record mrs'))
      as [-> | ->]; rewrite Hq; apply Hstage; lia.
Qed.

Lemma finish_not_nan : forall sx m e,
    (0 <= m)%Z -> F32.is_nan (finish sx m e) = false.
Proof.
  intros sx [|p|p] e H; try lia; unfold finish; [reflexivity|].
  destruct (Z.leb e _); reflexivity.
Qed.

Lemma round_not_nan : forall sx mz ez lz,
    (0 <= mz)%Z ->
    F32.is_nan (binary_round_aux F32.prec F32.emax sx mz ez lz) = false.
Proof.
  intros sx mz ez lz H.
  destruct (round_any_sign sx mz ez lz H) as (m & e & Hm & ->).
  now apply finish_not_nan.
Qed.

Lemma binary_round_not_nan : forall sx m e,
    F32.is_nan (binary_round F32.prec F32.emax sx m e) = false.
Proof.
  intros. unfold binary_round. destruct (shl_align _ _ _) as [mz ez].
  apply round_not_nan. lia.
Qed.

(** A product by a finite constant is NaN only if the other factor is. *)
Lemma mul_const_not_nan : forall x s m e,
    F32.is_nan x = false -> F32.is_nan (x * S754_finite s m e) = false.
Proof.
  intros [sx|sx| |sx mx ex] s m e H; try discriminate H;
    unfold F32.mul, SFmul; try reflexivity.
  apply round_not_nan. lia.
Qed.

(** A product of two numbers is not NaN. *)
Lemma mul_numbers_not_nan : forall x y,
    isNumber x = true -> isNumber y = true -> F32.is_nan (x * y) = false.
Proof.
  intros [sx|sx| |sx mx ex] [sy|sy| |sy my ey] Hx Hy;
    try discriminate; unfold F32.mul, SFmul; try reflexivity.
  apply round_not_nan. lia.
Qed.

(** A quotient by a finite constant that is not a zero is NaN only if
    the dividend is. *)
Lemma div_const_not_nan : forall x s m e,
    F32.is_nan x = false -> F32.is_nan (x / S754_finite s m e) = false.
Proof.
  intros [sx|sx| |sx mx ex] s m e H; try discriminate H;
    unfold F32.div, SFdiv; try reflexivity.
  unfold SFdiv_core_binary.
  set (e' := Z.min _ _). set (sh := (ex - e - e')%Z).
  set (m' := match sh with
             | Z0 => Z.pos mx
             | Z.pos _ => Z.shiftl (Z.pos mx) sh
             | Z.neg _ => 0%Z
             end).
  assert (Hm' : (0 <= m')%Z).
  { subst m'. destruct sh; try lia. apply Z.shiftl_nonneg. lia. }
  pose proof (Z.div_pos m' (Z.pos m) Hm' ltac:(lia)) as Hq.
  unfold Z.div in Hq.
  destruct (Z.div_eucl m' (Z.pos m)) as [q r].
  now apply round_not_nan.
Qed.

(** A sum of a number and of anything but NaN is not NaN. *)
Lemma add_number_not_nan : forall a d,
    isNumber a = true -> F32.is_nan d = false -> F32.is_nan (a + d) = false.
Proof.
  intros [sa|sa| |sa ma ea] [sd|sd| |sd md ed] Ha Hd;
    try discriminate; unfold F32.add, SFadd; try reflexivity.
  - destruct sa, sd; reflexivity.
  - set (z := (_ + _)%Z). unfold binary_normalize.
    destruct z; [reflexivity | |]; apply binary_round_not_nan.
Qed.

End NoNaN.

(** ** More on the charge estimator *)

Section ChargeRange.

Local Open Scope f32_scope.

Lemma updateSoC_soc : forall dt b,
    let soc0 := BMS.m_accumulatedCharge_mAh (BMS.updateSoC dt b)
                / NOMINAL_CAPACITY_MAH * F32.lit 100 1 in
    BMS.m_stateOfCharge_percent (BMS.updateSoC dt b)
    = let soc1 := if soc0 > F32.lit 100 1 then F32.lit 100 1 else soc0 in
      if soc1 < F32.lit 0 1 then F32.lit 0 1 else soc1.
Proof. reflexivity. Qed.

Lemma update_charge_fields : forall dt r b,
    BMS.m_accumulatedCharge_mAh (fst (BMS.update dt r b))
    = BMS.m_accumulatedCharge_mAh (beforeHealth dt r b) /\
    BMS.m_stateOfCharge_percent (fst (BMS.update dt r b))
    = BMS.m_stateOfCharge_percent (beforeHealth dt r b).
Proof.
  intros dt r b.
  destruct (update_fields dt r b) as (_ & _ & Ha & Hs & _).
  destruct (updateSoH_frame (beforeHealth dt r b)) as (_ & _ & _ & Ha' & _).
  cbv zeta in *. rewrite Ha, Hs, Ha', updateSoH_keeps_soc.
  split; reflexivity.
Qed.

(** When the accumulated charge left by [updateSoC] is a number, so is
    the state of charge, and both are within their bounds. *)
Lemma updateSoC_in_range_if_number : forall dt b,
    F32.is_nan (BMS.m_accumulatedCharge_mAh (BMS.updateSoC dt b)) = false ->
    (BMS.m_accumulatedCharge_mAh (BMS.updateSoC dt b) >= F32.lit 0 1) = true /\
    (BMS.m_accumulatedCharge_mAh (BMS.updateSoC dt b) <= NOMINAL_CAPACITY_MAH)
    = true /\
    (BMS.m_stateOfCharge_percent (BMS.updateSoC dt b) >= F32.lit 0 1) = true /\
    (BMS.m_stateOfCharge_percent (BMS.updateSoC dt b) <= F32.lit 100 1) = true.
Proof.
  intros dt b Hacc.
  destruct (updateSoC_saturates_unless_nan dt b Hacc) as [H0 H1].
  split; [exact H0 | split; [exact H1|]].
  apply updateSoC_soc_in_range_unless_nan.
  rewrite updateSoC_soc. cbv zeta.
  set (soc0 := _ / NOMINAL_CAPACITY_MAH * F32.lit 100 1).
  assert (Hsoc0 : F32.is_nan soc0 = false).
  { subst soc0. rewrite lit_100. apply mul_const_not_nan.
    unfold NOMINAL_CAPACITY_MAH. now apply div_const_not_nan. }
  destruct (soc0 > F32.lit 100 1).
  - vm_compute. reflexivity.
  - destruct (soc0 < F32.lit 0 1); [vm_compute; reflexivity | exact Hsoc0].
Qed.

Lemma in_range_is_number : forall a,
    (a >= F32.lit 0 1) = true -> (a <= NOMINAL_CAPACITY_MAH) = true ->
    isNumber a = true.
Proof.
  intros [s|[]| |s m e] H0 H1; try reflexivity; discriminate.
Qed.

(** In every state the program can reach, either the accumulated charge
    and the state of charge are both NaN, or the accumulated charge lies
    in [0, 3000] mAh and the state of charge in [0, 100]. *)
Theorem X17_charge_in_range_or_nan :
  forall b,
    reachable b ->
    (F32.is_nan (BMS.m_accumulatedCharge_mAh b) = true /\
     F32.is_nan (BMS.getSoC b) = true) \/
    ((BMS.m_accumulatedCharge_mAh b >= F32.lit 0 1) = true /\
     (BMS.m_accumulatedCharge_mAh b <= NOMINAL_CAPACITY_MAH) = true /\
     (BMS.getSoC b >= F32.lit 0 1) = true /\
     (BMS.getSoC b <= F32.lit 100 1) = true).
Proof.
  intros b Hb. destruct Hb as [|dt r b Hb].
  - right. repeat split; vm_compute; reflexivity.
  - destruct (update_charge_fields dt r b) as [Ha Hs].
    unfold BMS.getSoC. rewrite Ha, Hs. unfold beforeHealth.
    set (b1 := BMS.Build _ _ _ _ _ _ _ _ _ _).
    destruct (F32.is_nan (BMS.m_accumulatedCharge_mAh (BMS.updateSoC dt b1)))
      eqn:E.
    + left. split; [reflexivity|].
      rewrite updateSoC_soc. cbv zeta.
      destruct (BMS.m_accumulatedCharge_mAh (BMS.updateSoC dt b1));
        try discriminate E. reflexivity.
    + right. now apply updateSoC_in_range_if_number.
Qed.

Lemma X17_witness :
  (F32.is_nan (BMS.m_accumulatedCharge_mAh BMS.init) = true /\
   F32.is_nan (BMS.getSoC BMS.init) = true) \/
  ((BMS.m_accumulatedCharge_mAh BMS.init >= F32.lit 0 1) = true /\
   (BMS.m_accumulatedCharge_mAh BMS.init <= NOMINAL_CAPACITY_MAH) = true /\
   (BMS.getSoC BMS.init >= F32.lit 0 1) = true /\
   (BMS.getSoC BMS.init <= F32.lit 100 1) = true).
Proof. exact (X17_charge_in_range_or_nan BMS.init reachable_init). Defined.

Lemma charge_change_not_nan : forall p dt,
    isNumber (p * F32.lit 1000 1) = true ->
    isNumber (dt / F32.lit 3600 1) = true ->
    F32.is_nan (BMS.charge_change_mAh p dt) = false.
Proof.
  intros p dt Hp Hdt. unfold BMS.charge_change_mAh. cbv zeta.
  pose proof (mul_numbers_not_nan _ _ Hp Hdt) as H.
  destruct (_ > _); [|exact H].
  unfold CHARGE_EFFICIENCY. now apply mul_const_not_nan.
Qed.

(** A tick whose charge delta is not NaN, from an accumulated charge that
    is a number. *)
Lemma tick_in_range : forall dt r b,
    isNumber (BMS.m_accumulatedCharge_mAh b) = true ->
    F32.is_nan (BMS.charge_change_mAh (readCurrent r) dt) = false ->
    let b' := fst (BMS.update dt r b) in
    isNumber (BMS.m_accumulatedCharge_mAh b') = true /\
    (BMS.m_accumulatedCharge_mAh b' >= F32.lit 0 1) = true /\
    (BMS.m_accumulatedCharge_mAh b' <= NOMINAL_CAPACITY_MAH) = true /\
    (BMS.getSoC b' >= F32.lit 0 1) = true /\
    (BMS.getSoC b' <= F32.lit 100 1) = true.
Proof.
  intros dt r b Hacc Hd. cbv zeta.
  destruct (update_charge_fields dt r b) as [Ha Hs].
  unfold BMS.getSoC. rewrite Ha, Hs. unfold beforeHealth.
  set (b1 := BMS.Build _ _ _ _ _ _ _ _ _ _).
  assert (Hnan : F32.is_nan (BMS.m_accumulatedCharge_mAh (BMS.updateSoC dt b1))
                 = false).
  { rewrite updateSoC_accumulates. cbv zeta.
    change (BMS.m_accumulatedCharge_mAh b1)
      with (BMS.m_accumulatedCharge_mAh b).
    change (BMS.m_packCurrent b1) with (readCurrent r).
    set (sum := BMS.m_accumulatedCharge_mAh b + _).
    assert (Hsum : F32.is_nan sum = false)
      by (subst sum; now apply add_number_not_nan).
    destruct (sum > NOMINAL_CAPACITY_MAH); [reflexivity|].
    destruct (sum < F32.lit 0 1); [reflexivity | exact Hsum]. }
  destruct (updateSoC_in_range_if_number dt b1 Hnan) as (H0 & H1 & H2 & H3).
  repeat split; try assumption.
  now apply in_range_is_number.
Qed.

(** A tick cannot spoil the accumulator when the pack current in mA and
    the elapsed hours are numbers: from a state whose accumulated charge
    is a number, the tick leaves an accumulated charge in [0, 3000] mAh
    and a state of charge in [0, 100]. *)
Theorem X18_numbers_in_numbers_out :
  forall dt r b,
    isNumber (BMS.m_accumulatedCharge_mAh b) = true ->
    isNumber (readCurrent r * F32.lit 1000 1) = true ->
    isNumber (dt / F32.lit 3600 1) = true ->
    let b' := fst (BMS.update dt r b) in
    isNumber (BMS.m_accumulatedCharge_mAh b') = true /\
    (BMS.m_accumulatedCharge_mAh b' >= F32.lit 0 1) = true /\
    (BMS.m_accumulatedCharge_mAh b' <= NOMINAL_CAPACITY_MAH) = true /\
    (BMS.getSoC b' >= F32.lit 0 1) = true /\
    (BMS.getSoC b' <= F32.lit 100 1) = true.
Proof.
  intros dt r b Hacc Hp Hdt.
  apply tick_in_range; [assumption|].
  now apply charge_change_not_nan.
Qed.

(** The first tick of the program, at 1 A for one second. *)
Lemma X18_witness :
  let b' := fst (BMS.update (F32.lit 1 1)
                            (constantReadings (F32.lit 37 10) (F32.lit 25 1)
                                              (F32.lit 1 1))
                            BMS.init) in
  isNumber (BMS.m_accumulatedCharge_mAh b') = true /\
  (BMS.m_accumulatedCharge_mAh b' >= F32.lit 0 1) = true /\
  (BMS.m_accumulatedCharge_mAh b' <= NOMINAL_CAPACITY_MAH) = true /\
  (BMS.getSoC b' >= F32.lit 0 1) = true /\
  (BMS.getSoC b' <= F32.lit 100 1) = true.
Proof.
  exact (X18_numbers_in_numbers_out
           (F32.lit 1 1)
           (constantReadings (F32.lit 37 10) (F32.lit 25 1) (F32.lit 1 1))
           BMS.init eq_refl eq_refl eq_refl).
Defined.

End ChargeRange.

(** ** The main loop *)

Section MainLoop.

Local Open Scope f32_scope.

Lemma main_hours :
  main_deltaTime_s / F32.lit 3600 1 = S754_finite false 9544372 (-35).
Proof. vm_compute. reflexivity. Qed.

(** At the tick length of [main] the charge delta is NaN only for a NaN
    reading of the pack current. *)
Lemma main_charge_change_not_nan : forall p,
    F32.is_nan p = false ->
    F32.is_nan (BMS.charge_change_mAh p main_deltaTime_s) = false.
Proof.
  intros p Hp. unfold BMS.charge_change_mAh. cbv zeta.
  rewrite main_hours.
  assert (H : F32.is_nan (p * F32.lit 1000 1
                          * S754_finite false 9544372 (-35)) = false).
  { apply mul_const_not_nan. rewrite lit_1000. now apply mul_const_not_nan. }
  destruct (_ > _); [|exact H].
  unfold CHARGE_EFFICIENCY. now apply mul_const_not_nan.
Qed.

Lemma update_nan_current : forall dt r b,
    F32.is_nan (readCurrent r) = true ->
    BMS.m_accumulatedCharge_mAh (fst (BMS.update dt r b)) = S754_nan.
Proof.
  intros dt r b Hp.
  destruct (update_charge_fields dt r b) as [Ha _]. rewrite Ha.
  unfold beforeHealth. rewrite updateSoC_accumulates. cbv zeta.
  cbn [BMS.m_packCurrent BMS.m_accumulatedCharge_mAh].
  destruct (readCurrent r); try discriminate Hp.
  destruct (BMS.m_accumulatedCharge_mAh b) as [s|s| |s m e]; reflexivity.
Qed.

(** In the loop of [main], whose ticks are one second long, the
    accumulated charge stays in [0, 3000] mAh and the state of charge in
    [0, 100] for as long as no reading of the pack current was NaN;
    infinite readings included. *)
Theorem X19_main_loop_charge_in_range :
  forall readings n,
    (forall k, (k < n)%nat ->
               F32.is_nan (readCurrent (readings k)) = false) ->
    let b := mainLoop n readings in
    (BMS.m_accumulatedCharge_mAh b >= F32.lit 0 1) = true /\
    (BMS.m_accumulatedCharge_mAh b <= NOMINAL_CAPACITY_MAH) = true /\
    (BMS.getSoC b >= F32.lit 0 1) = true /\
    (BMS.getSoC b <= F32.lit 100 1) = true.
Proof.
  intros readings n. cbv zeta.
  enough (H : (forall k, (k < n)%nat ->
                         F32.is_nan (readCurrent (readings k)) = false) ->
              isNumber (BMS.m_accumulatedCharge_mAh (mainLoop n readings))
              = true /\
              (BMS.m_accumulatedCharge_mAh (mainLoop n readings)
               >= F32.lit 0 1) = true /\
              (BMS.m_accumulatedCharge_mAh (mainLoop n readings)
               <= NOMINAL_CAPACITY_MAH) = true /\
              (BMS.getSoC (mainLoop n readings) >= F32.lit 0 1) = true /\
              (BMS.getSoC (mainLoop n readings) <= F32.lit 100 1) = true)
    by (intros Hr; apply H in Hr; tauto).
  induction n as [|n IH]; intros Hr.
  - repeat split; vm_compute; reflexivity.
  - cbn [mainLoop]. apply tick_in_range.
    + apply IH. intros k Hk. apply Hr. lia.
    + apply main_charge_change_not_nan, Hr. lia.
Qed.

(** Three rounds at an infinite discharge reading. *)
Lemma X19_witness :
  let b := mainLoop 3 (fun _ => constantReadings (F32.lit 37 10)
                                                 (F32.lit 25 1)
                                                 (S754_infinity true)) in
  (BMS.m_accumulatedCharge_mAh b >= F32.lit 0 1) = true /\
  (BMS.m_accumulatedCharge_mAh b <= NOMINAL_CAPACITY_MAH) = true /\
  (BMS.getSoC b >= F32.lit 0 1) = true /\
  (BMS.getSoC b <= F32.lit 100 1) = true.
Proof.
  exact (X19_main_loop_charge_in_range
           (fun _ => constantReadings (F32.lit 37 10) (F32.lit 25 1)
                                      (S754_infinity true))
           3%nat (fun _ _ => eq_refl)).
Defined.

(** One NaN reading of the pack current is enough to lose the charge
    estimate for good: from the round that reads it on, the accumulated
    charge and the state of charge are NaN at the end of every round,
    whatever is read later and however long the ticks are. *)
Theorem X20_nan_reading_poisons_charge_for_good :
  forall dt r b later,
    F32.is_nan (readCurrent r) = true ->
    let b' := fold_left (fun s tick => fst (BMS.update (fst tick) (snd tick) s))
                        later (fst (BMS.update dt r b)) in
    BMS.m_accumulatedCharge_mAh b' = S754_nan /\
    BMS.getSoC b' = S754_nan.
Proof.
  intros dt r b later Hp. cbv zeta.
  pose proof (update_nan_current dt r b Hp) as Hacc.
  assert (Hsoc : BMS.getSoC (fst (BMS.update dt r b)) = S754_nan).
  { destruct (update_charge_fields dt r b) as [Ha Hs].
    unfold BMS.getSoC. rewrite Hs. rewrite Ha in Hacc.
    unfold beforeHealth in *. rewrite updateSoC_soc. cbv zeta.
    rewrite Hacc. reflexivity. }
  revert Hacc Hsoc. generalize (fst (BMS.update dt r b)) as s.
  induction later as [|[dt' r'] later IH]; intros s Hacc Hsoc.
  - split; assumption.
  - cbn [fold_left fst snd].
    destruct (nan_charge_is_permanent dt' r' s Hacc) as [Ha Hs].
    now apply IH.
Qed.

Lemma X20_witness :
  let r := constantReadings (F32.lit 37 10) (F32.lit 25 1) S754_nan in
  let ok := constantReadings (F32.lit 37 10) (F32.lit 25 1) (F32.lit 1 1) in
  let b' := fold_left (fun s tick => fst (BMS.update (fst tick) (snd tick) s))
                      [(F32.lit 1 1, ok); (F32.lit 1 1, ok)]
                      (fst (BMS.update (F32.lit 1 1) r BMS.init)) in
  BMS.m_accumulatedCharge_mAh b' = S754_nan /\
  BMS.getSoC b' = S754_nan.
Proof.
  exact (X20_nan_reading_poisons_charge_for_good
           (F32.lit 1 1)
           (constantReadings (F32.lit 37 10) (F32.lit 25 1) S754_nan)
           BMS.init
           [(F32.lit 1 1,
             constantReadings (F32.lit 37 10) (F32.lit 25 1) (F32.lit 1 1));
            (F32.lit 1 1,
             constantReadings (F32.lit 37 10) (F32.lit 25 1) (F32.lit 1 1))]
           eq_refl).
Defined.

Lemma health_at_full : forall b,
    let b' := healthCall (F32.lit 100 1) b in
    if BMS.m_wasEmpty b
    then BMS.m_chargeCycles b' = BMS.m_chargeCycles b + F32.lit 5 10 /\
         BMS.m_wasFull b' = false /\ BMS.m_wasEmpty b' = false
    else BMS.m_chargeCycles b' = BMS.m_chargeCycles b /\
         BMS.m_wasFull b' = true /\ BMS.m_wasEmpty b' = false.
Proof.
  intros b. pose proof (updateSoH_latches (setSoC (F32.lit 100 1) b)) as H.
  cbv zeta in *. unfold healthCall.
  cbn [setSoC BMS.m_stateOfCharge_percent BMS.m_wasFull BMS.m_wasEmpty
       BMS.m_chargeCycles] in H.
  change (F32.lit 100 1 >= SOC_FULL_THRESHOLD_PERCENT) with true in H.
  change (F32.lit 100 1 <= SOC_EMPTY_THRESHOLD_PERCENT) with false in H.
  cbn [andb] in H. destruct (BMS.m_wasEmpty b); exact H.
Qed.

Lemma health_at_empty : forall b,
    let b' := healthCall (F32.lit 0 1) b in
    if BMS.m_wasFull b
    then BMS.m_chargeCycles b' = BMS.m_chargeCycles b + F32.lit 5 10 /\
         BMS.m_wasFull b' = false /\ BMS.m_wasEmpty b' = false
    else BMS.m_chargeCycles b' = BMS.m_chargeCycles b /\
         BMS.m_wasFull b' = false /\ BMS.m_wasEmpty b' = true.
Proof.
  intros b. pose proof (updateSoH_latches (setSoC (F32.lit 0 1) b)) as H.
  cbv zeta in *. unfold healthCall.
  cbn [setSoC BMS.m_stateOfCharge_percent BMS.m_wasFull BMS.m_wasEmpty
       BMS.m_chargeCycles] in H.
  change (F32.lit 0 1 >= SOC_FULL_THRESHOLD_PERCENT) with false in H.
  change (F32.lit 0 1 <= SOC_EMPTY_THRESHOLD_PERCENT) with true in H.
  destruct (BMS.m_wasFull b); cbn [andb] in H; exact H.
Qed.

(** A tick that overcharges the pack (the sum of the accumulated charge
    and the delta exceeds 3000 mAh) leaves exactly 3000 mAh and a state
    of charge of exactly 100, which is at or above the full threshold:
    if the empty latch was set, half a cycle is counted and both latches
    are cleared, otherwise the full latch is set.  A tick that
    over-discharges it (the sum is below 0) leaves exactly 0 mAh and 0,
    and does the same with the roles of the latches exchanged. *)
Theorem X21_saturated_tick_sets_a_latch :
  forall dt r b,
    let sum := BMS.m_accumulatedCharge_mAh b
               + BMS.charge_change_mAh (readCurrent r) dt in
    let b' := fst (BMS.update dt r b) in
    ((sum > NOMINAL_CAPACITY_MAH) = true ->
     BMS.m_accumulatedCharge_mAh b' = NOMINAL_CAPACITY_MAH /\
     BMS.getSoC b' = F32.lit 100 1 /\
     if BMS.m_wasEmpty b
     then BMS.m_chargeCycles b' = BMS.m_chargeCycles b + F32.lit 5 10 /\
          BMS.m_wasFull b' = false /\ BMS.m_wasEmpty b' = false
     else BMS.m_chargeCycles b' = BMS.m_chargeCycles b /\
          BMS.m_wasFull b' = true /\ BMS.m_wasEmpty b' = false) /\
    ((sum > NOMINAL_CAPACITY_MAH) = false -> (sum < F32.lit 0 1) = true ->
     BMS.m_accumulatedCharge_mAh b' = F32.lit 0 1 /\
     BMS.getSoC b' = F32.lit 0 1 /\
     if BMS.m_wasFull b
     then BMS.m_chargeCycles b' = BMS.m_chargeCycles b + F32.lit 5 10 /\
          BMS.m_wasFull b' = false /\ BMS.m_wasEmpty b' = false
     else BMS.m_chargeCycles b' = BMS.m_chargeCycles b /\
          BMS.m_wasFull b' = false /\ BMS.m_wasEmpty b' = true).
Proof.
  intros dt r b sum b'.
  destruct (update_charge_fields dt r b) as [Ha Hs].
  destruct (update_health_fields dt r b) as (Hc & Hf & He & _).
  cbv zeta in Hc, Hf, He. fold b' in Ha, Hs, Hc, Hf, He.
  assert (Hacc : BMS.m_accumulatedCharge_mAh b'
                 = if sum > NOMINAL_CAPACITY_MAH then NOMINAL_CAPACITY_MAH
                   else if sum < F32.lit 0 1 then F32.lit 0 1 else sum).
  { rewrite Ha. unfold beforeHealth. now rewrite updateSoC_accumulates. }
  assert (Hsoc : BMS.getSoC b'
                 = let soc0 := BMS.m_accumulatedCharge_mAh b'
                               / NOMINAL_CAPACITY_MAH * F32.lit 100 1 in
                   let soc1 := if soc0 > F32.lit 100 1 then F32.lit 100 1
                               else soc0 in
                   if soc1 < F32.lit 0 1 then F32.lit 0 1 else soc1).
  { unfold BMS.getSoC. rewrite Hs, Ha. unfold beforeHealth.
    now rewrite updateSoC_soc. }
  clear Ha Hs. split.
  - intros Hhi. rewrite Hhi in Hacc. rewrite Hacc in Hsoc.
    assert (Hs100 : BMS.getSoC b' = F32.lit 100 1)
      by (rewrite Hsoc; vm_compute; reflexivity).
    rewrite Hs100 in Hc, Hf, He. rewrite Hc, Hf, He.
    split; [exact Hacc | split; [exact Hs100|]].
    exact (health_at_full b).
  - intros Hhi Hlo. rewrite Hhi, Hlo in Hacc. rewrite Hacc in Hsoc.
    assert (Hs0 : BMS.getSoC b' = F32.lit 0 1)
      by (rewrite Hsoc; vm_compute; reflexivity).
    rewrite Hs0 in Hc, Hf, He. rewrite Hc, Hf, He.
    split; [exact Hacc | split; [exact Hs0|]].
    exact (health_at_empty b).
Qed.

(** From the constructed state: a tick of an hour at 5 A, and a tick of
    an hour at -25 A. *)
Lemma X21_witness :
  let up := fst (BMS.update (F32.lit 3600 1)
                   (constantReadings (F32.lit 37 10) (F32.lit 25 1)
                                     (F32.lit 5 1)) BMS.init) in
  let down := fst (BMS.update (F32.lit 3600 1)
                     (constantReadings (F32.lit 37 10) (F32.lit 25 1)
                                       (- F32.lit 25 1)) BMS.init) in
  (BMS.m_accumulatedCharge_mAh up = NOMINAL_CAPACITY_MAH /\
   BMS.getSoC up = F32.lit 100 1 /\ BMS.m_wasFull up = true) /\
  (BMS.m_accumulatedCharge_mAh down = F32.lit 0 1 /\
   BMS.getSoC down = F32.lit 0 1 /\ BMS.m_wasEmpty down = true).
Proof.
  cbv zeta. split.
  - destruct (proj1 (X21_saturated_tick_sets_a_latch
                       (F32.lit 3600 1)
                       (constantReadings (F32.lit 37 10) (F32.lit 25 1)
                                         (F32.lit 5 1)) BMS.init) eq_refl)
      as (H1 & H2 & H3).
    exact (conj H1 (conj H2 (proj1 (proj2 H3)))).
  - destruct (proj2 (X21_saturated_tick_sets_a_latch
                       (F32.lit 3600 1)
                       (constantReadings (F32.lit 37 10) (F32.lit 25 1)
                                         (- F32.lit 25 1)) BMS.init)
                    eq_refl eq_refl)
      as (H1 & H2 & H3).
    exact (conj H1 (conj H2 (proj2 (proj2 H3)))).
Defined.

End MainLoop.

(** ** The simulator as the source of the readings *)

Section Simulator.

Local Open Scope f32_scope.

Ltac draws :=
  repeat match goal with
         | |- context [match ?e with pair _ _ => _ end] =>
             let E := fresh "E" in destruct e as [? ?] eqn:E
         | |- context [if ?c then _ else _] =>
             let C := fresh "C" in destruct c eqn:C
         end.

Lemma lit_5 : F32.lit 5 1 = S754_finite false 10485760 (-21).
Proof. vm_compute. reflexivity. Qed.

Lemma lit_1 : F32.lit 1 1 = S754_finite false 8388608 (-23).
Proof. vm_compute. reflexivity. Qed.

Lemma neg_not_nan : forall x, F32.is_nan (- x) = F32.is_nan x.
Proof. intros [s|s| |s m e]; reflexivity. Qed.

Lemma tick_state : forall dt r b,
    BMS.getCurrentState (fst (BMS.update dt r b))
    = SafetyManager.proposedState
        (BMS.m_cells (fst (BMS.update dt r b)))
        (BMS.m_packCurrent (fst (BMS.update dt r b)))
        (BMS.m_stateOfHealth_percent (fst (BMS.update dt r b))).
Proof.
  intros dt r b. unfold BMS.getCurrentState.
  rewrite update_safetyManager. cbv zeta.
  rewrite evaluate_state.
  destruct (update_fields dt r b) as (Hc & Hp & _ & _ & Hh & _).
  cbv zeta in *. now rewrite Hc, Hp, Hh.
Qed.

(** The simulator's current is NaN only if a distribution gives NaN. *)
Lemma readCurrent_not_nan :
  forall (G : Type) (D : SensorSimulator.Distributions G),
    (forall g, F32.is_nan (fst (SensorSimulator.m_currentDist D g)) = false) ->
    (forall g, F32.is_nan (fst (SensorSimulator.m_faultDist D g)) = false) ->
    forall g, F32.is_nan (fst (fst (SensorSimulator.readCurrent D g))) = false.
Proof.
  intros G D Hc Hf g. unfold SensorSimulator.readCurrent.
  pose proof (Hc g) as H1.
  destruct (SensorSimulator.m_currentDist D g) as [current g1].
  destruct (SensorSimulator.m_faultDist D g1) as [chance g2].
  destruct (chance < SIM_FAULT_PROBABILITY); [|exact H1].
  destruct (SensorSimulator.m_faultDist D g2) as [fault_val g3].
  pose proof (Hf g3) as H3.
  destruct (SensorSimulator.m_faultDist D g3) as [d g4].
  cbn [fst] in *.
  destruct (fault_val < F32.lit 33 100);
    [|destruct (fault_val < F32.lit 66 100)]; cbn [fst].
  - rewrite neg_not_nan. apply add_number_not_nan; [reflexivity|].
    rewrite lit_5. now apply mul_const_not_nan.
  - apply add_number_not_nan; [reflexivity|].
    rewrite lit_1. now apply mul_const_not_nan.
  - destruct (d < F32.lit 5 10); reflexivity.
Qed.

Lemma readings_current :
  forall (G : Type) (D : SensorSimulator.Distributions G) g,
    readCurrent (fst (fst (SensorSimulator.readings D g)))
    = fst (fst (SensorSimulator.readCurrent
                  D (snd (SensorSimulator.readCells D NUM_CELLS 0 g)))).
Proof.
  intros G D g. unfold SensorSimulator.readings.
  destruct (SensorSimulator.readCells D NUM_CELLS 0 g) as [[cells out1] g1].
  cbn [snd].
  destruct (SensorSimulator.readCurrent D g1) as [[current out2] g2].
  reflexivity.
Qed.

Lemma simulatedUpdate_state :
  forall (G : Type) (D : SensorSimulator.Distributions G) dt b g,
    fst (fst (simulatedUpdate D dt b g))
    = fst (BMS.update dt (fst (fst (SensorSimulator.readings D g))) b) /\
    snd (simulatedUpdate D dt b g) = snd (fst (SensorSimulator.readings D g)).
Proof.
  intros G D dt b g. unfold simulatedUpdate.
  destruct (SensorSimulator.readings D g) as [[r out] g']. split; reflexivity.
Qed.

Lemma simulatedLoop_step :
  forall (G : Type) (D : SensorSimulator.Distributions G) n g,
    fst (simulatedLoop D (S n) g)
    = fst (BMS.update main_deltaTime_s
             (fst (fst (SensorSimulator.readings
                          D (snd (simulatedLoop D n g)))))
             (fst (simulatedLoop D n g))).
Proof.
  intros G D n g. cbn [simulatedLoop].
  destruct (simulatedLoop D n g) as [b g']. cbn [fst snd].
  apply simulatedUpdate_state.
Qed.

(** The loop of [main] on the simulator: every state it passes through
    is reachable, and if the distributions of the current and of the
    fault draws never give NaN, the accumulated charge stays in
    [0, 3000] mAh and the state of charge in [0, 100] at every round,
    whatever faults the simulator injects. *)
Theorem X22_simulated_loop_keeps_charge_in_range :
  forall (G : Type) (D : SensorSimulator.Distributions G) n g,
    (forall g, F32.is_nan (fst (SensorSimulator.m_currentDist D g)) = false) ->
    (forall g, F32.is_nan (fst (SensorSimulator.m_faultDist D g)) = false) ->
    let b := fst (simulatedLoop D n g) in
    reachable b /\
    (BMS.m_accumulatedCharge_mAh b >= F32.lit 0 1) = true /\
    (BMS.m_accumulatedCharge_mAh b <= NOMINAL_CAPACITY_MAH) = true /\
    (BMS.getSoC b >= F32.lit 0 1) = true /\
    (BMS.getSoC b <= F32.lit 100 1) = true.
Proof.
  intros G D n g Hc Hf. cbv zeta.
  enough (H : reachable (fst (simulatedLoop D n g)) /\
              isNumber (BMS.m_accumulatedCharge_mAh
                          (fst (simulatedLoop D n g))) = true /\
              (BMS.m_accumulatedCharge_mAh (fst (simulatedLoop D n g))
               >= F32.lit 0 1) = true /\
              (BMS.m_accumulatedCharge_mAh (fst (simulatedLoop D n g))
               <= NOMINAL_CAPACITY_MAH) = true /\
              (BMS.getSoC (fst (simulatedLoop D n g)) >= F32.lit 0 1) = true /\
              (BMS.getSoC (fst (simulatedLoop D n g)) <= F32.lit 100 1) = true)
    by tauto.
  induction n as [|n IH].
  - split; [apply reachable_init|]. repeat split; vm_compute; reflexivity.
  - rewrite simulatedLoop_step. destruct IH as (Hr & Hn & _).
    split; [now apply reachable_update|].
    apply tick_in_range; [exact Hn|].
    apply main_charge_change_not_nan.
    rewrite readings_current. now apply readCurrent_not_nan.
Qed.

Lemma draw_not_nan : forall g, F32.is_nan (fst (draw g)) = false.
Proof.
  assert (H : forall z, F32.is_nan (F32.lit z 100) = false).
  { intros z. unfold F32.lit.
    change (F32.of_Z 100) with (S754_finite false 13107200 (-17)).
    apply div_const_not_nan. unfold F32.of_Z, binary_normalize.
    destruct z; [reflexivity | |]; apply binary_round_not_nan. }
  intros [|z rest]; apply H.
Qed.

(** Two rounds; the first read of the first round injects a fault. *)
Lemma X22_witness :
  let b := fst (simulatedLoop listDistributions 2 [370; 1; 90; 10]) in
  reachable b /\
  (BMS.m_accumulatedCharge_mAh b >= F32.lit 0 1) = true /\
  (BMS.m_accumulatedCharge_mAh b <= NOMINAL_CAPACITY_MAH) = true /\
  (BMS.getSoC b >= F32.lit 0 1) = true /\
  (BMS.getSoC b <= F32.lit 100 1) = true.
Proof.
  exact (X22_simulated_loop_keeps_charge_in_range
           (list Z) listDistributions 2 [370; 1; 90; 10]
           draw_not_nan draw_not_nan).
Defined.

Lemma readVoltage_out :
  forall (G : Type) (D : SensorSimulator.Distributions G) j g,
    let res := SensorSimulator.readVoltage D j g in
    (forall l, In l (snd (fst res)) ->
               l = LowVoltageInjected j \/ l = HighVoltageInjected j \/
               l = ExtremeVoltageInjected j) /\
    (In (ExtremeVoltageInjected j) (snd (fst res)) ->
     SafetyManager.isVoltageFault (fst (fst res)) = true).
Proof.
  intros G D j g res. subst res. unfold SensorSimulator.readVoltage.
  draws; cbn [fst snd In]; split; intros;
    repeat match goal with
           | H : _ \/ _ |- _ => destruct H
           | H : False |- _ => destruct H
           end; try discriminate; auto; reflexivity.
Qed.

Lemma readTemperature_out :
  forall (G : Type) (D : SensorSimulator.Distributions G) j g,
    let res := SensorSimulator.readTemperature D j g in
    (forall l, In l (snd (fst res)) ->
               l = LowTemperatureInjected j \/ l = HighTemperatureInjected j \/
               l = ExtremeTemperatureInjected j) /\
    (In (ExtremeTemperatureInjected j) (snd (fst res)) ->
     SafetyManager.isTemperatureFault (fst (fst res)) = true).
Proof.
  intros G D j g res. subst res. unfold SensorSimulator.readTemperature.
  draws; cbn [fst snd In]; split; intros;
    repeat match goal with
           | H : _ \/ _ |- _ => destruct H
           | H : False |- _ => destruct H
           end; try discriminate; auto; reflexivity.
Qed.

Lemma readCurrent_out :
  forall (G : Type) (D : SensorSimulator.Distributions G) g,
    let res := SensorSimulator.readCurrent D g in
    (forall l, In l (snd (fst res)) ->
               l = HighDischargeInjected \/ l = HighChargeInjected \/
               l = ExtremeCurrentInjected) /\
    (In ExtremeCurrentInjected (snd (fst res)) ->
     fst (fst res) = - F32.lit 50 1 \/ fst (fst res) = F32.lit 10 1).
Proof.
  intros G D g res. subst res. unfold SensorSimulator.readCurrent.
  draws; cbn [fst snd In]; split; intros;
    repeat match goal with
           | H : _ \/ _ |- _ => destruct H
           | H : False |- _ => destruct H
           end; try discriminate; auto.
Qed.

(** What the reads of the cells return and print. *)
Lemma simulator_readCells_out :
  forall (G : Type) (D : SensorSimulator.Distributions G) n i g,
    let res := SensorSimulator.readCells D n i g in
    length (fst (fst res)) = n /\
    (forall l, In l (snd (fst res)) -> cellLine l = true) /\
    (forall j,
        In (ExtremeVoltageInjected j) (snd (fst res)) \/
        In (ExtremeTemperatureInjected j) (snd (fst res)) ->
        (i <= j < i + n)%nat /\
        (SafetyManager.isVoltageFault
           (fst (nth (j - i) (fst (fst res)) (F32.lit 0 1, F32.lit 0 1)))
         || SafetyManager.isTemperatureFault
              (snd (nth (j - i) (fst (fst res)) (F32.lit 0 1, F32.lit 0 1))))%bool
        = true).
Proof.
  intros G D n. induction n as [|n IH]; intros i g res; subst res.
  - cbn [SensorSimulator.readCells fst snd length In].
    split; [reflexivity | split; [intros l [] | intros j [[]|[]]]].
  - cbn [SensorSimulator.readCells].
    pose proof (readVoltage_out G D i g) as HV. cbv zeta in HV.
    destruct (SensorSimulator.readVoltage D i g) as [[v o1] g1].
    pose proof (readTemperature_out G D i g1) as HT. cbv zeta in HT.
    destruct (SensorSimulator.readTemperature D i g1) as [[t o2] g2].
    specialize (IH (S i) g2). cbv zeta in IH.
    destruct (SensorSimulator.readCells D n (S i) g2) as [[rest o3] g3].
    cbn [fst snd length] in *.
    destruct HV as [HV1 HV2]. destruct HT as [HT1 HT2].
    destruct IH as (IH1 & IH2 & IH3).
    split; [now rewrite IH1|]. split.
    + intros l Hl. apply in_app_or in Hl. destruct Hl as [Hl|Hl].
      * apply HV1 in Hl. destruct Hl as [-> | [-> | ->]]; reflexivity.
      * apply in_app_or in Hl. destruct Hl as [Hl|Hl]; [|now apply IH2].
        apply HT1 in Hl. destruct Hl as [-> | [-> | ->]]; reflexivity.
    + intros j Hj.
      assert (Hcases : (j = i /\ (In (ExtremeVoltageInjected i) o1 \/
                                  In (ExtremeTemperatureInjected i) o2)) \/
                       (In (ExtremeVoltageInjected j) o3 \/
                        In (ExtremeTemperatureInjected j) o3)).
      { destruct Hj as [Hj|Hj]; apply in_app_or in Hj;
          destruct Hj as [Hj|Hj].
        - pose proof (HV1 _ Hj) as [E | [E | E]]; try discriminate E.
          injection E as ->. left. split; [reflexivity | now left].
        - apply in_app_or in Hj. destruct Hj as [Hj|Hj]; [|now right; left].
          pose proof (HT1 _ Hj) as [E | [E | E]]; discriminate E.
        - pose proof (HV1 _ Hj) as [E | [E | E]]; discriminate E.
        - apply in_app_or in Hj. destruct Hj as [Hj|Hj]; [|now right; right].
          pose proof (HT1 _ Hj) as [E | [E | E]]; try discriminate E.
          injection E as ->. left. split; [reflexivity | now right]. }
      destruct Hcases as [[-> Hi] | Hrest].
      * split; [lia|]. rewrite Nat.sub_diag. cbn [nth fst snd].
        destruct Hi as [Hi|Hi].
        -- now rewrite (HV2 Hi).
        -- rewrite (HT2 Hi). apply orb_true_r.
      * destruct (IH3 j Hrest) as [Hb Hf]. split; [lia|].
        replace (j - i)%nat with (S (j - S i)) by lia. exact Hf.
Qed.

Lemma reachable_cells_length : forall b,
    reachable b -> length (BMS.m_cells b) = NUM_CELLS.
Proof.
  intros b Hb.
  assert (H : map BatteryCell.m_id (BMS.m_cells b) = [0; 1; 2; 3]%Z).
  { induction Hb as [|dt r b Hb IH]; [reflexivity|].
    destruct (update_cells dt r b) as [Hcells _].
    now rewrite Hcells, readCells_ids. }
  rewrite <- (length_map BatteryCell.m_id), H. reflexivity.
Qed.

Lemma readings_out :
  forall (G : Type) (D : SensorSimulator.Distributions G) g,
    let cells := SensorSimulator.readCells D NUM_CELLS 0 g in
    let current := SensorSimulator.readCurrent D (snd cells) in
    let res := SensorSimulator.readings D g in
    (forall i, readVoltage (fst (fst res)) i
               = fst (nth i (fst (fst cells)) (F32.lit 0 1, F32.lit 0 1))) /\
    (forall i, readTemperature (fst (fst res)) i
               = snd (nth i (fst (fst cells)) (F32.lit 0 1, F32.lit 0 1))) /\
    readCurrent (fst (fst res)) = fst (fst current) /\
    snd (fst res) = snd (fst cells) ++ snd (fst current).
Proof.
  intros G D g cells current res. subst cells current res.
  unfold SensorSimulator.readings.
  destruct (SensorSimulator.readCells D NUM_CELLS 0 g) as [[cells out1] g1].
  cbn [snd].
  destruct (SensorSimulator.readCurrent D g1) as [[current out2] g2].
  repeat split.
Qed.

(** When the simulator announces an extreme voltage or temperature for
    a cell during a tick, that tick ends in FAULT, whatever the other
    readings are and whatever the state was. *)
Theorem X23_extreme_cell_injection_gives_FAULT :
  forall (G : Type) (D : SensorSimulator.Distributions G) dt b g j,
    reachable b ->
    In (ExtremeVoltageInjected j) (snd (simulatedUpdate D dt b g)) \/
    In (ExtremeTemperatureInjected j) (snd (simulatedUpdate D dt b g)) ->
    BMS.getCurrentState (fst (fst (simulatedUpdate D dt b g))) = FAULT.
Proof.
  intros G D dt b g j Hb Hj.
  destruct (simulatedUpdate_state G D dt b g) as [Hs Ho].
  rewrite Hs. rewrite Ho in Hj. clear Hs Ho.
  destruct (readings_out G D g) as (Hv & Ht & _ & Hout). cbv zeta in *.
  set (r := fst (fst (SensorSimulator.readings D g))) in *.
  rewrite Hout in Hj. clear Hout.
  destruct (simulator_readCells_out G D NUM_CELLS 0 g) as (Hlen & Hl & Hx).
  cbv zeta in *.
  pose proof (readCurrent_out G D
                (snd (SensorSimulator.readCells D NUM_CELLS 0 g))) as [Hc _].
  assert (Hj' : In (ExtremeVoltageInjected j)
                   (snd (fst (SensorSimulator.readCells D NUM_CELLS 0 g))) \/
                In (ExtremeTemperatureInjected j)
                   (snd (fst (SensorSimulator.readCells D NUM_CELLS 0 g)))).
  { destruct Hj as [Hj|Hj]; apply in_app_or in Hj; destruct Hj as [Hj|Hj];
      [now left | | now right | ];
      apply Hc in Hj; destruct Hj as [E | [E | E]]; discriminate E. }
  destruct (Hx j Hj') as [Hb4 Hf]. rewrite Nat.sub_0_r in Hf.
  rewrite <- Hv, <- Ht in Hf.
  rewrite tick_state. apply proposed_fault.
  destruct (update_cells dt r b) as [-> _].
  apply existsb_exists.
  pose proof (reachable_cells_length b Hb) as Hlb.
  destruct (nth_error (BMS.m_cells b) j) as [c|] eqn:Ec.
  - exists (BatteryCell.Build (BatteryCell.m_id c) (readVoltage r j)
                              (readTemperature r j)).
    split; [|exact Hf].
    apply nth_error_In with (n := j).
    rewrite readCells_nth, Ec. reflexivity.
  - apply nth_error_None in Ec. lia.
Qed.

Lemma X23_witness :
  BMS.getCurrentState
    (fst (fst (simulatedUpdate listDistributions (F32.lit 1 1) BMS.init
                               [370; 1; 90; 10]))) = FAULT.
Proof.
  apply (X23_extreme_cell_injection_gives_FAULT
           (list Z) listDistributions (F32.lit 1 1) BMS.init
           [370; 1; 90; 10] 0%nat reachable_init).
  left. vm_compute. left. reflexivity.
Defined.

Lemma proposed_without_current : forall cells current soh,
    SafetyManager.isCurrentCritical current = false ->
    SafetyManager.isCurrentWarning current = false ->
    SafetyManager.proposedState cells current soh
    = SafetyManager.proposedState cells (F32.lit 0 1) soh.
Proof.
  intros cells current soh Hc Hw. unfold SafetyManager.proposedState.
  rewrite Hc, Hw.
  change (SafetyManager.isCurrentCritical (F32.lit 0 1)) with false.
  change (SafetyManager.isCurrentWarning (F32.lit 0 1)) with false.
  reflexivity.
Qed.

(** When the simulator announces an extreme pack current, the current
    stored is -50 A or 10 A, and the tier after the tick is the one the
    same cells and state of health would get with a pack current of
    0 A: the classifier does not see the injected current. *)
Theorem X24_extreme_current_injection_is_not_seen :
  forall (G : Type) (D : SensorSimulator.Distributions G) dt b g,
    In ExtremeCurrentInjected (snd (simulatedUpdate D dt b g)) ->
    let b' := fst (fst (simulatedUpdate D dt b g)) in
    (BMS.getPackCurrent b' = - F32.lit 50 1 \/
     BMS.getPackCurrent b' = F32.lit 10 1) /\
    BMS.getCurrentState b'
    = SafetyManager.proposedState (BMS.m_cells b') (F32.lit 0 1)
                                  (BMS.getSoH b').
Proof.
  intros G D dt b g Hin. cbv zeta.
  destruct (simulatedUpdate_state G D dt b g) as [Hs Ho].
  rewrite Hs. rewrite Ho in Hin. clear Hs Ho.
  destruct (readings_out G D g) as (_ & _ & Hcur & Hout). cbv zeta in *.
  set (r := fst (fst (SensorSimulator.readings D g))) in *.
  rewrite Hout in Hin. clear Hout.
  destruct (simulator_readCells_out G D NUM_CELLS 0 g) as (_ & Hl & _).
  cbv zeta in *.
  pose proof (readCurrent_out G D
                (snd (SensorSimulator.readCells D NUM_CELLS 0 g))) as [_ Hc].
  apply in_app_or in Hin. destruct Hin as [Hin|Hin];
    [apply Hl in Hin; discriminate Hin|].
  apply Hc in Hin. rewrite <- Hcur in Hin.
  unfold BMS.getPackCurrent, BMS.getSoH.
  destruct (update_cells dt r b) as [_ Hp].
  rewrite tick_state, Hp.
  split; [exact Hin|].
  apply proposed_without_current; destruct Hin as [-> | ->]; reflexivity.
Qed.

Lemma X24_witness :
  let b' := fst (fst (simulatedUpdate listDistributions (F32.lit 1 1) BMS.init
                        [370; 90; 2500; 90; 370; 90; 2500; 90;
                         370; 90; 2500; 90; 370; 90; 2500; 90;
                         100; 1; 90; 10])) in
  (BMS.getPackCurrent b' = - F32.lit 50 1 \/
   BMS.getPackCurrent b' = F32.lit 10 1) /\
  BMS.getCurrentState b'
  = SafetyManager.proposedState (BMS.m_cells b') (F32.lit 0 1)
                                (BMS.getSoH b').
Proof.
  apply (X24_extreme_current_injection_is_not_seen
           (list Z) listDistributions (F32.lit 1 1) BMS.init
           [370; 90; 2500; 90; 370; 90; 2500; 90;
            370; 90; 2500; 90; 370; 90; 2500; 90;
            100; 1; 90; 10]).
  vm_compute. left. reflexivity.
Defined.

End Simulator.

(** ** Bounds on rounded results *)

Section RoundingBounds.

Lemma div_pow2_bounds : forall P k,
    0 <= k -> 2 ^ k * (P / 2 ^ k) <= P < 2 ^ k * (P / 2 ^ k + 1).
Proof.
  intros P k Hk. pose proof (pow2_pos k Hk) as Hp.
  pose proof (Z.div_mod P (2 ^ k) ltac:(lia)) as H1.
  pose proof (Z.mod_pos_bound P (2 ^ k) Hp) as H2. lia.
Qed.

Lemma round_shape : forall sx P E,
    E <= Z.max (Z.pos (digits2_pos P) + E - 24) (-149) ->
    exists m e,
      binary_round_aux F32.prec F32.emax sx (Z.pos P) E loc_Exact
      = finish sx m e /\ roundsTo P E m e.
Proof.
  intros sx P E HE.
  destruct (digits2_pos_bounds P) as [Dlo Dhi].
  set (d := Z.pos (digits2_pos P)) in *.
  set (e1 := Z.max (d + E - 24) (-149)) in *.
  assert (Hk : 0 <= e1 - E) by lia.
  pose proof (pow2_pos _ Hk) as Hpk.
  assert (Hq : Z.pos P / 2 ^ (e1 - E) < 2 ^ 24).
  { apply Z.div_lt_upper_bound; [assumption|].
    rewrite <- Z.pow_add_r by lia.
    apply Z.lt_le_trans with (1 := Dhi).
    apply Z.pow_le_mono_r; lia. }
  destruct (round_exact_cases sx P E)
    as [[Hle Hr] | (Hlt & m1 & Hm1 & Hb & Hr)]; cbv zeta in *;
    fold d in Hle || fold d in Hlt; fold d in Hr.
  - exists (Z.pos P), E. split; [exact Hr|].
    unfold roundsTo. cbv zeta. fold d. fold e1.
    assert (E = e1) by (subst e1; lia).
    left. split; [assumption|].
    replace (e1 - E) with 0 in * by lia.
    change (2 ^ 0) with 1 in *. rewrite Z.div_1_r in *. split; [now left | assumption].
  - fold d in Hm1. fold e1 in Hm1, Hr, Hlt.
    destruct (Z.ltb_spec m1 (2 ^ 24)) as [Hlt24 | Hge24].
    + exists m1, e1. split; [exact Hr|].
      unfold roundsTo. cbv zeta. fold d. fold e1. left. auto.
    + exists (2 ^ 23), (e1 + 1). split; [exact Hr|].
      unfold roundsTo. cbv zeta. fold d. fold e1. right.
      split; [reflexivity | split; [reflexivity | lia]].
Qed.

Lemma val_digits : forall p e,
    -200 <= e ->
    2 ^ (Z.pos (digits2_pos p) - 1 + (e + 200)) <= val (Z.pos p) e
    < 2 ^ (Z.pos (digits2_pos p) + (e + 200)).
Proof.
  intros p e He. unfold val.
  destruct (digits2_pos_bounds p) as [Dlo Dhi].
  assert (1 <= Z.pos (digits2_pos p)) by lia.
  rewrite (Z.pow_add_r 2 (Z.pos (digits2_pos p) - 1)) by lia.
  rewrite (Z.pow_add_r 2 (Z.pos (digits2_pos p))) by lia.
  pose proof (pow2_pos (e + 200) ltac:(lia)). split.
  - apply Z.mul_le_mono_nonneg_r; lia.
  - apply Z.mul_lt_mono_pos_r; lia.
Qed.

Lemma val_le_digits : forall p ep q eq,
    -200 <= ep -> -200 <= eq ->
    val (Z.pos p) ep <= val (Z.pos q) eq ->
    Z.pos (digits2_pos p) + ep <= Z.pos (digits2_pos q) + eq.
Proof.
  intros p ep q eq Hp Hq H.
  destruct (val_digits p ep Hp) as [Plo _].
  destruct (val_digits q eq Hq) as [_ Qhi].
  assert (Hlt : 2 ^ (Z.pos (digits2_pos p) - 1 + (ep + 200))
                < 2 ^ (Z.pos (digits2_pos q) + (eq + 200))) by lia.
  apply Z.pow_lt_mono_r_iff in Hlt; lia.
Qed.

Lemma canonic_facts : forall m e,
    canonic m e ->
    -149 <= e /\ Z.pos m < 2 ^ 24 /\ (-149 < e -> 2 ^ 23 <= Z.pos m).
Proof.
  intros m e H. unfold canonic in H.
  destruct (digits2_pos_bounds m) as [Dlo Dhi].
  split; [lia|]. split.
  - apply Z.lt_le_trans with (1 := Dhi). apply Z.pow_le_mono_r; lia.
  - intros He. replace (Z.pos (digits2_pos m)) with 24 in Dlo by lia.
    exact Dlo.
Qed.

(** A significand and exponent that [P * 2^E] rounds to, against a
    canonical number above the exact value. *)
Lemma shape_upper : forall P E m e U eu,
    roundsTo P E m e -> -200 <= E ->
    E <= Z.max (Z.pos (digits2_pos P) + E - 24) (-149) ->
    canonic U eu ->
    val (Z.pos P) E < val (Z.pos U) eu ->
    e < eu \/ (e = eu /\ m <= Z.pos U).
Proof.
  intros P E m e U eu Hs HE Hpre HU Hv.
  destruct (canonic_facts U eu HU) as (HU1 & HU2 & HU3).
  assert (Hd : Z.pos (digits2_pos P) + E <= Z.pos (digits2_pos U) + eu)
    by (apply val_le_digits; lia).
  unfold roundsTo in Hs. cbv zeta in Hs.
  set (e1 := Z.max (Z.pos (digits2_pos P) + E - 24) (-149)) in *.
  set (q := Z.pos P / 2 ^ (e1 - E)) in *.
  assert (He1 : e1 <= eu) by (unfold canonic in HU; lia).
  assert (Hk : 0 <= e1 - E) by lia.
  destruct (div_pow2_bounds (Z.pos P) (e1 - E) Hk) as [Qlo _]. fold q in Qlo.
  assert (Hq : e1 = eu -> q < Z.pos U).
  { intros Heq. unfold val in Hv. rewrite <- Heq in Hv.
    replace (e1 + 200) with ((e1 - E) + (E + 200)) in Hv by lia.
    rewrite (Z.pow_add_r 2 (e1 - E) (E + 200)) in Hv by lia.
    pose proof (pow2_pos (E + 200) ltac:(lia)) as Hw.
    pose proof (pow2_pos (e1 - E) Hk) as HK.
    set (w := 2 ^ (E + 200)) in *. set (K := 2 ^ (e1 - E)) in *.
    assert (H1 : q * (K * w) <= Z.pos P * w).
    { rewrite Z.mul_assoc. apply Z.mul_le_mono_nonneg_r; lia. }
    assert (H2 : q * (K * w) < Z.pos U * (K * w)) by lia.
    apply Z.mul_lt_mono_pos_r in H2; [exact H2|]. apply Z.mul_pos_pos; lia. }
  change (2 ^ 24) with 16777216 in *. change (2 ^ 23) with 8388608 in *.
  destruct Hs as [(-> & Hm & Hm24) | (-> & -> & Hq24)].
  - destruct (Z.eq_dec e1 eu) as [Heq | Hne]; [right | left; lia].
    split; [assumption|]. specialize (Hq Heq). lia.
  - destruct (Z.eq_dec e1 eu) as [Heq | Hne].
    + specialize (Hq Heq). lia.
    + destruct (Z.eq_dec (e1 + 1) eu) as [Heq1 | Hne1]; [right | left; lia].
      split; [assumption|]. apply HU3. lia.
Qed.

(** The same against a canonical number at or below the exact value. *)
Lemma shape_lower : forall P E m e L el,
    roundsTo P E m e -> -200 <= E ->
    E <= Z.max (Z.pos (digits2_pos P) + E - 24) (-149) ->
    canonic L el ->
    val (Z.pos L) el <= val (Z.pos P) E ->
    0 < m /\ (el < e \/ (e = el /\ Z.pos L <= m)).
Proof.
  intros P E m e L el Hs HE Hpre HL Hv.
  destruct (canonic_facts L el HL) as (HL1 & HL2 & HL3).
  assert (Hd : Z.pos (digits2_pos L) + el <= Z.pos (digits2_pos P) + E)
    by (apply val_le_digits; lia).
  unfold roundsTo in Hs. cbv zeta in Hs.
  destruct (digits2_pos_bounds P) as [Dlo Dhi].
  set (d := Z.pos (digits2_pos P)) in *.
  set (e1 := Z.max (d + E - 24) (-149)) in *.
  set (q := Z.pos P / 2 ^ (e1 - E)) in *.
  assert (He1 : el <= e1) by (unfold canonic in HL; lia).
  assert (Hk : 0 <= e1 - E) by lia.
  pose proof (pow2_pos _ Hk) as Hpk.
  assert (Hq : e1 = el -> Z.pos L <= q).
  { intros Heq. subst q. apply Z.div_le_lower_bound; [assumption|].
    unfold val in Hv. rewrite <- Heq in Hv.
    replace (e1 + 200) with ((e1 - E) + (E + 200)) in Hv by lia.
    rewrite (Z.pow_add_r 2 (e1 - E) (E + 200)) in Hv by lia.
    pose proof (pow2_pos (E + 200) ltac:(lia)) as Hw.
    rewrite Z.mul_assoc in Hv.
    apply Z.mul_le_mono_pos_r in Hv; [|exact Hw]. lia. }
  assert (Hq' : el < e1 -> 2 ^ 23 <= q).
  { intros Hlt. subst q. apply Z.div_le_lower_bound; [assumption|].
    replace (e1 - E) with (d - 24) by lia.
    rewrite <- Z.pow_add_r by lia.
    replace (d - 24 + 23) with (d - 1) by lia. exact Dlo. }
  change (2 ^ 24) with 16777216 in *. change (2 ^ 23) with 8388608 in *.
  destruct Hs as [(-> & Hm & Hm24) | (-> & -> & Hq24)].
  - destruct (Z.eq_dec e1 el) as [Heq | Hne].
    + specialize (Hq Heq). split; [lia|]. right. split; [assumption | lia].
    + specialize (Hq' ltac:(lia)). split; [lia | left; lia].
  - split; [lia | left; lia].
Qed.

Lemma roundsTo_range : forall P E m e,
    roundsTo P E m e -> 0 <= m < 2 ^ 24 /\ -149 <= e.
Proof.
  intros P E m e Hs. unfold roundsTo in Hs. cbv zeta in Hs.
  set (e1 := Z.max (Z.pos (digits2_pos P) + E - 24) (-149)) in *.
  assert (0 <= Z.pos P / 2 ^ (e1 - E)).
  { destruct (Z.le_gt_cases 0 (e1 - E)) as [Hk | Hk].
    - apply Z.div_pos; [lia | now apply pow2_pos].
    - rewrite Z.pow_neg_r by lia. rewrite Z.div_0_r. lia. }
  change (2 ^ 24) with 16777216 in *. change (2 ^ 23) with 8388608 in *.
  destruct Hs as [(-> & Hm & Hm24) | (-> & -> & Hq24)]; lia.
Qed.

Lemma val_pos : forall m e, 0 < m -> -200 <= e -> 0 < val m e.
Proof.
  intros m e Hm He. unfold val.
  apply Z.mul_pos_pos; [assumption | apply pow2_pos; lia].
Qed.

Lemma val_mono : forall m m' e, -200 <= e -> m <= m' -> val m e <= val m' e.
Proof.
  intros m m' e He H. unfold val.
  apply Z.mul_le_mono_nonneg_r; [|assumption].
  pose proof (pow2_pos (e + 200) ltac:(lia)). lia.
Qed.

Lemma val_shift : forall m e e',
    -200 <= e' -> e' <= e -> val (m * 2 ^ (e - e')) e' = val m e.
Proof.
  intros m e e' He' He. unfold val.
  replace (e + 200) with ((e - e') + (e' + 200)) by lia.
  rewrite (Z.pow_add_r 2 (e - e') (e' + 200)) by lia. ring.
Qed.

(** A canonical comparison gives the comparison of the values. *)
Lemma lex_le_val : forall m e U eu,
    0 <= m < 2 ^ 24 -> -149 <= e -> canonic U eu ->
    e < eu \/ (e = eu /\ m <= Z.pos U) ->
    val m e <= val (Z.pos U) eu.
Proof.
  intros m e U eu Hm He HU H.
  destruct (canonic_facts U eu HU) as (HU1 & HU2 & HU3).
  destruct H as [Hlt | [-> Hle]]; [|apply val_mono; lia].
  specialize (HU3 ltac:(lia)).
  apply Z.le_trans with (val (2 ^ 24) e); [apply val_mono; lia|].
  apply Z.le_trans with (val (2 ^ 23) (e + 1)).
  - unfold val. replace (e + 1 + 200) with (1 + (e + 200)) by lia.
    rewrite (Z.pow_add_r 2 1 (e + 200)) by lia.
    change (2 ^ 24) with (2 ^ 23 * 2 ^ 1). lia.
  - apply Z.le_trans with (val (2 ^ 23) eu); [|apply val_mono; lia].
    unfold val. apply Z.mul_le_mono_nonneg_l; [lia|].
    apply Z.pow_le_mono_r; lia.
Qed.

Lemma shl_align_snd : forall m e e',
    e' <= e -> snd (shl_align m e e') = e'.
Proof.
  intros m e e' H. unfold shl_align.
  destruct (e' - e) as [|d|d] eqn:Ed; simpl snd; lia.
Qed.

Lemma digits_shl : forall m k,
    0 <= k -> forall X, Z.pos X = Z.pos m * 2 ^ k ->
    Z.pos (digits2_pos X) = Z.pos (digits2_pos m) + k.
Proof.
  intros m k Hk X HX. apply digits2_pos_unique. rewrite HX.
  destruct (digits2_pos_bounds m) as [Dlo Dhi].
  pose proof (pow2_pos k Hk) as Hp.
  replace (Z.pos (digits2_pos m) + k - 1)
    with ((Z.pos (digits2_pos m) - 1) + k) by lia.
  rewrite (Z.pow_add_r 2 (Z.pos (digits2_pos m) - 1) k) by lia.
  rewrite (Z.pow_add_r 2 (Z.pos (digits2_pos m)) k) by lia. split.
  - apply Z.mul_le_mono_nonneg_r; lia.
  - apply Z.mul_lt_mono_pos_r; lia.
Qed.

(** [binary_round] is [binary_round_aux] on a significand and an
    exponent of the same value, shifted so that nothing is rounded
    away before the rounding proper. *)
Lemma binary_round_as_aux : forall sx m e,
    -149 <= e ->
    exists P E,
      binary_round F32.prec F32.emax sx m e
      = binary_round_aux F32.prec F32.emax sx (Z.pos P) E loc_Exact /\
      -149 <= E /\
      val (Z.pos P) E = val (Z.pos m) e /\
      E <= Z.max (Z.pos (digits2_pos P) + E - 24) (-149).
Proof.
  intros sx m e He. unfold binary_round. rewrite fexp_eq.
  set (e' := Z.max (Z.pos (digits2_pos m) + e - 24) (-149)).
  destruct (Z.le_gt_cases e e') as [Hle | Hgt].
  - rewrite shl_align_ge by assumption.
    exists m, e. repeat split; lia.
  - pose proof (shl_align_le m e e' ltac:(lia)) as Hf.
    pose proof (shl_align_snd m e e' ltac:(lia)) as Hs.
    destruct (shl_align m e e') as [X E]. cbn [fst snd] in Hf, Hs. subst E.
    exists X, e'. split; [reflexivity|]. split; [lia|]. split.
    + rewrite Hf. apply val_shift; lia.
    + rewrite (digits_shl m (e - e') ltac:(lia) X Hf). lia.
Qed.

(** Rounding an integer multiple of [2^ez] whose magnitude lies between
    two canonical numbers. *)
Lemma normalize_between : forall z ez L el U eu,
    -149 <= ez -> canonic L el -> canonic U eu ->
    val (Z.pos L) el <= val (Z.abs z) ez < val (Z.pos U) eu ->
    exists m e,
      binary_normalize F32.prec F32.emax z ez false = finish (z <? 0) m e /\
      0 < m < 2 ^ 24 /\ -149 <= e /\
      (el < e \/ (e = el /\ Z.pos L <= m)) /\
      (e < eu \/ (e = eu /\ m <= Z.pos U)).
Proof.
  intros z ez L el U eu Hez HL HU [Hlo Hhi].
  destruct (canonic_facts L el HL) as (HL1 & _).
  pose proof (val_pos (Z.pos L) el ltac:(lia) ltac:(lia)) as HLpos.
  assert (Hz : exists a, Z.abs z = Z.pos a /\
                         binary_normalize F32.prec F32.emax z ez false
                         = binary_round F32.prec F32.emax (z <? 0) a ez).
  { destruct z as [|a|a].
    - change (val (Z.abs 0) ez) with 0 in Hlo. lia.
    - exists a. split; reflexivity.
    - exists a. split; reflexivity. }
  destruct Hz as (a & Ha & ->). rewrite Ha in *.
  destruct (binary_round_as_aux (z <? 0) a ez Hez) as (P & E & -> & HE & Hv & Hpre).
  destruct (round_shape (z <? 0) P E Hpre) as (m & e & -> & Hs).
  exists m, e. split; [reflexivity|].
  destruct (roundsTo_range P E m e Hs) as [Hm He].
  destruct (shape_lower P E m e L el Hs ltac:(lia) Hpre HL ltac:(lia))
    as [Hm0 Hge].
  pose proof (shape_upper P E m e U eu Hs ltac:(lia) Hpre HU ltac:(lia)) as Hle.
  repeat split; try assumption; lia.
Qed.

Lemma normalize_finite_between : forall z ez L el U eu,
    -149 <= ez -> canonic L el -> canonic U eu -> eu <= 104 ->
    val (Z.pos L) el <= val (Z.abs z) ez < val (Z.pos U) eu ->
    exists m e,
      binary_normalize F32.prec F32.emax z ez false
      = S754_finite (z <? 0) m e /\
      (el < e \/ (e = el /\ Z.pos L <= Z.pos m)) /\
      (e < eu \/ (e = eu /\ Z.pos m <= Z.pos U)).
Proof.
  intros z ez L el U eu Hez HL HU Heu Hv.
  destruct (normalize_between z ez L el U eu Hez HL HU Hv)
    as (m & e & -> & Hm & He & Hge & Hle).
  destruct m as [|m|m]; try lia.
  exists m, e. split; [|split; assumption].
  unfold finish. unfold F32.emax, F32.prec.
  destruct (Z.leb_spec e (128 - 24)); [reflexivity | lia].
Qed.

Lemma val_shl : forall m e ez,
    -200 <= ez -> ez <= e ->
    val (Z.pos (fst (shl_align m e ez))) ez = val (Z.pos m) e.
Proof.
  intros m e ez H1 H2. rewrite shl_align_le by assumption.
  now apply val_shift.
Qed.

Lemma val_add : forall a b e, val (a + b) e = val a e + val b e.
Proof. intros. unfold val. ring. Qed.

Lemma val_sub : forall a b e, val (a - b) e = val a e - val b e.
Proof. intros. unfold val. ring. Qed.

Local Open Scope f32_scope.

(** The sum of two finite numbers of the same sign whose magnitudes add
    up to a value between two canonical numbers. *)
Lemma add_same_sign_between : forall s mx ex my ey L el U eu,
    (-149 <= ex)%Z -> (-149 <= ey)%Z ->
    canonic L el -> canonic U eu -> (eu <= 104)%Z ->
    (val (Z.pos L) el <= val (Z.pos mx) ex + val (Z.pos my) ey
     < val (Z.pos U) eu)%Z ->
    exists m e,
      S754_finite s mx ex + S754_finite s my ey = S754_finite s m e /\
      (el < e \/ (e = el /\ Z.pos L <= Z.pos m))%Z /\
      (e < eu \/ (e = eu /\ Z.pos m <= Z.pos U))%Z.
Proof.
  intros s mx ex my ey L el U eu Hex Hey HL HU Heu Hv.
  unfold F32.add, SFadd. cbv zeta.
  set (ez := Z.min ex ey).
  assert (Hez : (-149 <= ez)%Z) by lia.
  assert (Hzx : (ez <= ex)%Z) by lia.
  assert (Hzy : (ez <= ey)%Z) by lia.
  assert (Hz200 : (-200 <= ez)%Z) by lia.
  pose proof (val_shl mx ex ez Hz200 Hzx) as Ha.
  pose proof (val_shl my ey ez Hz200 Hzy) as Hb.
  clearbody ez.
  set (a := fst (shl_align mx ex ez)) in *.
  set (b := fst (shl_align my ey ez)) in *.
  clearbody a b.
  set (z := (cond_Zopp s (Z.pos a) + cond_Zopp s (Z.pos b))%Z).
  assert (Hz : Z.abs z = (Z.pos a + Z.pos b)%Z /\ (z <? 0)%Z = s).
  { subst z. destruct s; unfold cond_Zopp; split; try lia;
      [apply Z.ltb_lt | apply Z.ltb_ge]; lia. }
  destruct Hz as [Habs Hsign].
  destruct (normalize_finite_between z ez L el U eu ltac:(lia) HL HU Heu)
    as (m & e & Hr & Hb1 & Hb2).
  { rewrite Habs, val_add, Ha, Hb. exact Hv. }
  rewrite Hsign in Hr. exists m, e. auto.
Qed.

(** The difference of two positive finite numbers, the first the
    larger. *)
Lemma sub_pos_between : forall mx ex my ey L el U eu,
    (-149 <= ex)%Z -> (-149 <= ey)%Z ->
    canonic L el -> canonic U eu -> (eu <= 104)%Z ->
    (val (Z.pos L) el <= val (Z.pos mx) ex - val (Z.pos my) ey
     < val (Z.pos U) eu)%Z ->
    exists m e,
      S754_finite false mx ex - S754_finite false my ey
      = S754_finite false m e /\
      (el < e \/ (e = el /\ Z.pos L <= Z.pos m))%Z /\
      (e < eu \/ (e = eu /\ Z.pos m <= Z.pos U))%Z.
Proof.
  intros mx ex my ey L el U eu Hex Hey HL HU Heu Hv.
  unfold F32.sub, SFsub. cbv zeta.
  set (ez := Z.min ex ey).
  assert (Hez : (-149 <= ez)%Z) by lia.
  assert (Hzx : (ez <= ex)%Z) by lia.
  assert (Hzy : (ez <= ey)%Z) by lia.
  assert (Hz200 : (-200 <= ez)%Z) by lia.
  pose proof (val_shl mx ex ez Hz200 Hzx) as Ha.
  pose proof (val_shl my ey ez Hz200 Hzy) as Hb.
  clearbody ez.
  set (a := fst (shl_align mx ex ez)) in *.
  set (b := fst (shl_align my ey ez)) in *.
  clearbody a b.
  unfold cond_Zopp.
  destruct (canonic_facts L el HL) as (HL1 & _).
  pose proof (val_pos (Z.pos L) el ltac:(lia) ltac:(lia)) as HLpos.
  assert (Hab : (0 < Z.pos a - Z.pos b)%Z).
  { assert (H : (0 < val (Z.pos a - Z.pos b) ez)%Z)
      by (rewrite val_sub, Ha, Hb; lia).
    unfold val in H. pose proof (pow2_pos (ez + 200) ltac:(lia)). nia. }
  destruct (normalize_finite_between (Z.pos a - Z.pos b) ez L el U eu
              ltac:(lia) HL HU Heu) as (m & e & Hr & Hb1 & Hb2).
  { rewrite Z.abs_eq by lia. rewrite val_sub, Ha, Hb. exact Hv. }
  replace (Z.pos a - Z.pos b <? 0)%Z with false in Hr
    by (symmetry; apply Z.ltb_ge; lia).
  exists m, e. auto.
Qed.

(** A negative finite number minus a positive one. *)
Lemma sub_neg_pos_between : forall mx ex my ey L el U eu,
    (-149 <= ex)%Z -> (-149 <= ey)%Z ->
    canonic L el -> canonic U eu -> (eu <= 104)%Z ->
    (val (Z.pos L) el <= val (Z.pos mx) ex + val (Z.pos my) ey
     < val (Z.pos U) eu)%Z ->
    exists m e,
      S754_finite true mx ex - S754_finite false my ey
      = S754_finite true m e /\
      (el < e \/ (e = el /\ Z.pos L <= Z.pos m))%Z /\
      (e < eu \/ (e = eu /\ Z.pos m <= Z.pos U))%Z.
Proof.
  intros mx ex my ey L el U eu Hex Hey HL HU Heu Hv.
  unfold F32.sub, SFsub. cbv zeta.
  set (ez := Z.min ex ey).
  assert (Hez : (-149 <= ez)%Z) by lia.
  assert (Hzx : (ez <= ex)%Z) by lia.
  assert (Hzy : (ez <= ey)%Z) by lia.
  assert (Hz200 : (-200 <= ez)%Z) by lia.
  pose proof (val_shl mx ex ez Hz200 Hzx) as Ha.
  pose proof (val_shl my ey ez Hz200 Hzy) as Hb.
  clearbody ez.
  set (a := fst (shl_align mx ex ez)) in *.
  set (b := fst (shl_align my ey ez)) in *.
  clearbody a b.
  unfold cond_Zopp.
  destruct (normalize_finite_between (- Z.pos a - Z.pos b) ez L el U eu
              ltac:(lia) HL HU Heu) as (m & e & Hr & Hb1 & Hb2).
  { replace (Z.abs (- Z.pos a - Z.pos b)) with (Z.pos a + Z.pos b)%Z by lia.
    rewrite val_add, Ha, Hb. exact Hv. }
  replace (- Z.pos a - Z.pos b <? 0)%Z with true in Hr
    by (symmetry; apply Z.ltb_lt; lia).
  exists m, e. auto.
Qed.

Lemma canonic_valid : forall s m e,
    F32.valid (S754_finite s m e) = true -> canonic m e /\ (e <= 104)%Z.
Proof. intros s m e H. apply valid_finite in H. exact H. Qed.

(** A draw between 0 and 1 is a zero or a positive number of value at
    most 1. *)
Lemma unitDraw_cases : forall d,
    unitDraw d = true ->
    (exists s, d = S754_zero s) \/
    (exists m e, d = S754_finite false m e /\ canonic m e /\
                 (val (Z.pos m) e <= val 8388608 (-23))%Z).
Proof.
  intros d H. unfold unitDraw in H.
  apply andb_true_iff in H. destruct H as [H Hle].
  apply andb_true_iff in H. destruct H as [Hv Hge].
  rewrite lit_0 in Hge. rewrite lit_1 in Hle.
  destruct d as [s|s| |s m e].
  - left. now exists s.
  - destruct s; discriminate.
  - discriminate.
  - destruct s; [discriminate|]. right. exists m, e.
    destruct (canonic_valid _ _ _ Hv) as [Hc He].
    split; [reflexivity | split; [assumption|]].
    rewrite le_pp in Hle.
    destruct (canonic_facts m e Hc) as (H1 & H2 & _).
    apply (lex_le_val (Z.pos m) e 8388608 (-23)); [lia | lia | reflexivity |].
    destruct (Z.ltb_spec e (-23)); [now left|].
    destruct (Z.eqb_spec e (-23)); [|discriminate].
    destruct (Z.leb_spec (Z.pos m) 8388608); [now right | discriminate].
Qed.

(** The product of a draw between 0 and 1 and a positive normal
    constant is a zero or a positive number of value below any
    canonical number above the constant. *)
Lemma unit_mul : forall d mc ec U eu,
    unitDraw d = true ->
    (2 ^ 23 <= Z.pos mc)%Z -> (-51 <= ec)%Z ->
    canonic U eu -> (eu <= 104)%Z ->
    (val (Z.pos mc) ec < val (Z.pos U) eu)%Z ->
    (exists s, d * S754_finite false mc ec = S754_zero s) \/
    (exists m e, d * S754_finite false mc ec = S754_finite false m e /\
                 (-149 <= e)%Z /\
                 (val (Z.pos m) e <= val (Z.pos U) eu)%Z).
Proof.
  intros d mc ec U eu Hd Hmc Hec HU Heu Hc.
  destruct (unitDraw_cases d Hd) as [[s ->] | (m & e & -> & Hcan & Hv)].
  - left. exists (xorb s false). reflexivity.
  - unfold F32.mul, SFmul. cbn [xorb].
    destruct (canonic_facts m e Hcan) as (He & Hm & _).
    assert (HP : (2 ^ 23 <= Z.pos (m * mc))%Z) by (rewrite Pos2Z.inj_mul; nia).
    assert (Hpre : (e + ec <= Z.max (Z.pos (digits2_pos (m * mc)) + (e + ec) - 24)
                                    (-149))%Z).
    { destruct (digits2_pos_bounds (m * mc)) as [_ Dhi].
      assert (23 < Z.pos (digits2_pos (m * mc)))%Z
        by (apply (Z.pow_lt_mono_r_iff 2); lia).
      lia. }
    assert (Hval : (val (Z.pos (m * mc)) (e + ec) <= val (Z.pos mc) ec)%Z).
    { unfold val in *. rewrite Pos2Z.inj_mul.
      change (-23 + 200)%Z with 177%Z in Hv.
      change (8388608 * 2 ^ 177)%Z with (2 ^ 200)%Z in Hv.
      pose proof (pow2_pos 200 ltac:(lia)) as H200.
      pose proof (pow2_pos (e + ec + 200) ltac:(lia)) as Hw.
      pose proof (pow2_pos (ec + 200) ltac:(lia)) as Hwc.
      assert (Hsplit : (2 ^ (e + 200) * 2 ^ (ec + 200)
                        = 2 ^ (e + ec + 200) * 2 ^ 200)%Z).
      { rewrite <- !Z.pow_add_r by lia. f_equal. lia. }
      apply (Z.mul_le_mono_pos_r _ _ (2 ^ 200)); [assumption|].
      assert (Heq : (Z.pos m * Z.pos mc * 2 ^ (e + ec + 200) * 2 ^ 200
                     = (Z.pos m * 2 ^ (e + 200))
                       * (Z.pos mc * 2 ^ (ec + 200)))%Z).
      { transitivity (Z.pos m * Z.pos mc
                      * (2 ^ (e + ec + 200) * 2 ^ 200))%Z; [ring|].
        rewrite <- Hsplit. ring. }
      rewrite Heq.
      rewrite (Z.mul_comm (Z.pos mc * 2 ^ (ec + 200)) (2 ^ 200)).
      apply Z.mul_le_mono_nonneg_r; [|assumption].
      apply Z.mul_nonneg_nonneg; lia. }
    destruct (round_shape false (m * mc) (e + ec) Hpre) as (m' & e' & -> & Hs).
    destruct (roundsTo_range _ _ _ _ Hs) as [Hm' He'].
    pose proof (shape_upper _ _ _ _ U eu Hs ltac:(lia) Hpre HU ltac:(lia))
      as Hle.
    destruct m' as [|m'|m']; try lia.
    + left. exists false. reflexivity.
    + right. exists m', e'. split; [|split; [assumption|]].
      * unfold finish, F32.emax, F32.prec.
        destruct (Z.leb_spec e' (128 - 24)); [reflexivity | lia].
      * apply lex_le_val; assumption.
Qed.

End RoundingBounds.

(** ** The readings the simulator labels critical *)

Section Injections.

Local Open Scope f32_scope.
Import SafetyManager.

Lemma lit_02 : F32.lit 2 10 = S754_finite false 13421773 (-26).
Proof. vm_compute. reflexivity. Qed.

Ltac side :=
  match goal with
  | |- canonic _ _ => reflexivity
  | |- _ => unfold val; lia
  end.

Ltac numeric Y :=
  let H := fresh in
  pose proof Y as H; 
  match type of H with
  | (0 < ?v)%Z => set (y := v) in *; clearbody y; unfold val in *; lia
  end.

(** [MIN_VOLTAGE_CRITICAL - d * 0.2f] for a draw [d] between 0 and 1
    lies between 2 V and 2.5 V. *)
Lemma inject_low_voltage : forall d,
    unitDraw d = true ->
    exists m,
      MIN_VOLTAGE_CRITICAL - d * F32.lit 2 10 = S754_finite false m (-22) /\
      (8388608 <= Z.pos m <= 10485760)%Z.
Proof.
  intros d Hd. rewrite lit_02. unfold MIN_VOLTAGE_CRITICAL.
  destruct (unit_mul d 13421773 (-26) 8388608 (-25) Hd)
    as [[s Hy] | (m & e & Hy & He & Hv)]; try side; rewrite Hy.
  - exists 10485760%positive. destruct s; split; (reflexivity || lia).
  - pose proof (val_pos (Z.pos m) e ltac:(lia) ltac:(lia)) as Hpos.
    destruct (sub_pos_between 10485760 (-22) m e 8388608 (-22) 10485760 (-22))
      as (m' & e' & Hr & Hge & Hle); try side; try lia.
    { numeric Hpos. }
    rewrite Hr. assert (e' = (-22)%Z) by lia. subst e'.
    exists m'. split; [reflexivity | lia].
Qed.

(** [MAX_VOLTAGE_CRITICAL + d * 0.2f] lies between 4.4 V and 4.8 V. *)
Lemma inject_high_voltage : forall d,
    unitDraw d = true ->
    exists m,
      MAX_VOLTAGE_CRITICAL + d * F32.lit 2 10 = S754_finite false m (-21) /\
      (9227469 <= Z.pos m <= 10066330)%Z.
Proof.
  intros d Hd. rewrite lit_02. unfold MAX_VOLTAGE_CRITICAL.
  destruct (unit_mul d 13421773 (-26) 8388608 (-25) Hd)
    as [[s Hy] | (m & e & Hy & He & Hv)]; try side; rewrite Hy.
  - exists 9227469%positive. destruct s; split; (reflexivity || lia).
  - pose proof (val_pos (Z.pos m) e ltac:(lia) ltac:(lia)) as Hpos.
    destruct (add_same_sign_between false 9227469 (-21) m e
                9227469 (-21) 10066330 (-21))
      as (m' & e' & Hr & Hge & Hle); try side; try lia.
    { numeric Hpos. }
    rewrite Hr. assert (e' = (-21)%Z) by lia. subst e'.
    exists m'. split; [reflexivity | lia].
Qed.

(** [MIN_TEMP_CRITICAL - d * 5.0f] lies between -16 C and -10 C. *)
Lemma inject_low_temperature : forall d,
    unitDraw d = true ->
    exists m,
      MIN_TEMP_CRITICAL - d * F32.lit 5 1 = S754_finite true m (-20) /\
      (10485760 <= Z.pos m <= 16777215)%Z.
Proof.
  intros d Hd. rewrite lit_5. unfold MIN_TEMP_CRITICAL.
  destruct (unit_mul d 10485760 (-21) 11534336 (-21) Hd)
    as [[s Hy] | (m & e & Hy & He & Hv)]; try side; rewrite Hy.
  - exists 10485760%positive. destruct s; split; (reflexivity || lia).
  - pose proof (val_pos (Z.pos m) e ltac:(lia) ltac:(lia)) as Hpos.
    destruct (sub_neg_pos_between 10485760 (-20) m e
                10485760 (-20) 16777215 (-20))
      as (m' & e' & Hr & Hge & Hle); try side; try lia.
    { numeric Hpos. }
    rewrite Hr. assert (e' = (-20)%Z) by lia. subst e'.
    exists m'. split; [reflexivity | lia].
Qed.

(** [MAX_TEMP_CRITICAL + d * 5.0f] lies between 60 C and 70 C. *)
Lemma inject_high_temperature : forall d,
    unitDraw d = true ->
    exists m e,
      MAX_TEMP_CRITICAL + d * F32.lit 5 1 = S754_finite false m e /\
      ((e = -18 /\ 15728640 <= Z.pos m) \/
       (e = -17 /\ Z.pos m <= 9175040))%Z.
Proof.
  intros d Hd. rewrite lit_5. unfold MAX_TEMP_CRITICAL.
  destruct (unit_mul d 10485760 (-21) 11534336 (-21) Hd)
    as [[s Hy] | (m & e & Hy & He & Hv)]; try side; rewrite Hy.
  - exists 15728640%positive, (-18)%Z.
    destruct s; split; (reflexivity || lia).
  - pose proof (val_pos (Z.pos m) e ltac:(lia) ltac:(lia)) as Hpos.
    destruct (add_same_sign_between false 15728640 (-18) m e
                15728640 (-18) 9175040 (-17))
      as (m' & e' & Hr & Hge & Hle); try side; try lia.
    { numeric Hpos. }
    rewrite Hr. exists m', e'. split; [reflexivity | lia].
Qed.

(** [MAX_DISCHARGE_CURRENT_CRITICAL_A + d * 5.0f] is at least 20 A. *)
Lemma inject_discharge : forall d,
    unitDraw d = true ->
    exists m,
      MAX_DISCHARGE_CURRENT_CRITICAL_A + d * F32.lit 5 1
      = S754_finite false m (-19) /\
      (10485760 <= Z.pos m <= 16777215)%Z.
Proof.
  intros d Hd. rewrite lit_5. unfold MAX_DISCHARGE_CURRENT_CRITICAL_A.
  destruct (unit_mul d 10485760 (-21) 11534336 (-21) Hd)
    as [[s Hy] | (m & e & Hy & He & Hv)]; try side; rewrite Hy.
  - exists 10485760%positive. destruct s; split; (reflexivity || lia).
  - pose proof (val_pos (Z.pos m) e ltac:(lia) ltac:(lia)) as Hpos.
    destruct (add_same_sign_between false 10485760 (-19) m e
                10485760 (-19) 16777215 (-19))
      as (m' & e' & Hr & Hge & Hle); try side; try lia.
    { numeric Hpos. }
    rewrite Hr. assert (e' = (-19)%Z) by lia. subst e'.
    exists m'. split; [reflexivity | lia].
Qed.

(** [MAX_CHARGE_CURRENT_CRITICAL_A + d * 1.0f] is at least 4 A. *)
Lemma inject_charge : forall d,
    unitDraw d = true ->
    exists m,
      MAX_CHARGE_CURRENT_CRITICAL_A + d * F32.lit 1 1
      = S754_finite false m (-21) /\
      (8388608 <= Z.pos m <= 16777215)%Z.
Proof.
  intros d Hd. rewrite lit_1. unfold MAX_CHARGE_CURRENT_CRITICAL_A.
  destruct (unit_mul d 8388608 (-23) 12582912 (-23) Hd)
    as [[s Hy] | (m & e & Hy & He & Hv)]; try side; rewrite Hy.
  - exists 8388608%positive. destruct s; split; (reflexivity || lia).
  - pose proof (val_pos (Z.pos m) e ltac:(lia) ltac:(lia)) as Hpos.
    destruct (add_same_sign_between false 8388608 (-21) m e
                8388608 (-21) 16777215 (-21))
      as (m' & e' & Hr & Hge & Hle); try side; try lia.
    { numeric Hpos. }
    rewrite Hr. assert (e' = (-21)%Z) by lia. subst e'.
    exists m'. split; [reflexivity | lia].
Qed.

Ltac classify :=
  unfold isVoltageNormal, isVoltageWarning, isVoltageCritical, isVoltageFault,
    isTemperatureNormal, isTemperatureWarning, isTemperatureCritical,
    isTemperatureFault, isCurrentNormal, isCurrentWarning, isCurrentCritical,
    MIN_VOLTAGE_NORMAL, MIN_VOLTAGE_WARNING, MIN_VOLTAGE_CRITICAL,
    MIN_VOLTAGE_FAULT, MAX_VOLTAGE_NORMAL, MAX_VOLTAGE_WARNING,
    MAX_VOLTAGE_CRITICAL, MAX_VOLTAGE_FAULT,
    MIN_TEMP_NORMAL, MIN_TEMP_WARNING, MIN_TEMP_CRITICAL, MIN_TEMP_FAULT,
    MAX_TEMP_NORMAL, MAX_TEMP_WARNING, MAX_TEMP_CRITICAL, MAX_TEMP_FAULT,
    IDLE_CURRENT_THRESHOLD_A, MAX_DISCHARGE_CURRENT_NORMAL_A,
    MAX_DISCHARGE_CURRENT_WARNING_A, MAX_DISCHARGE_CURRENT_CRITICAL_A,
    MAX_CHARGE_CURRENT_NORMAL_A, MAX_CHARGE_CURRENT_WARNING_A,
    MAX_CHARGE_CURRENT_CRITICAL_A in *;
  rewrite ?if_as_bool in *;
  cbn [F32.neg SFopp negb] in *;
  rewrite ?lt_pp, ?le_pp, ?gt_pp, ?ge_pp, ?lt_nn, ?le_nn, ?gt_nn, ?ge_nn in *;
  cbn [F32.lt F32.le F32.gt F32.ge SFcompare] in *.

Lemma low_voltage_class : forall m,
    (8388608 <= Z.pos m <= 10485760)%Z ->
    let v := S754_finite false m (-22) in
    (v >= MIN_VOLTAGE_FAULT) = true /\ (v <= MIN_VOLTAGE_CRITICAL) = true /\
    (isVoltageCritical v = true -> v = MIN_VOLTAGE_CRITICAL) /\
    isVoltageNormal v = false /\ isVoltageWarning v = false /\
    isVoltageFault v = false.
Proof.
  intros m Hm v. subst v.
  assert (Heq : isVoltageCritical (S754_finite false m (-22)) = true ->
                m = 10485760%positive) by (classify; lia).
  split; [classify; lia|]. split; [classify; lia|].
  split; [intros H; apply Heq in H; subst m; reflexivity|].
  classify. repeat split; lia.
Qed.

Lemma high_voltage_class : forall m,
    (9227469 <= Z.pos m <= 10066330)%Z ->
    let v := S754_finite false m (-21) in
    (v >= MAX_VOLTAGE_CRITICAL) = true /\ (v <= MAX_VOLTAGE_FAULT) = true /\
    (isVoltageCritical v = true -> v = MAX_VOLTAGE_CRITICAL) /\
    isVoltageNormal v = false /\ isVoltageWarning v = false /\
    isVoltageFault v = false.
Proof.
  intros m Hm v. subst v.
  assert (Heq : isVoltageCritical (S754_finite false m (-21)) = true ->
                m = 9227469%positive) by (classify; lia).
  split; [classify; lia|]. split; [classify; lia|].
  split; [intros H; apply Heq in H; subst m; reflexivity|].
  classify. repeat split; lia.
Qed.

Lemma low_temperature_class : forall m,
    (10485760 <= Z.pos m <= 16777215)%Z ->
    let t := S754_finite true m (-20) in
    (t >= MIN_TEMP_FAULT) = true /\ (t <= MIN_TEMP_CRITICAL) = true /\
    (isTemperatureCritical t = true -> t = MIN_TEMP_CRITICAL) /\
    isTemperatureNormal t = false /\ isTemperatureWarning t = false /\
    isTemperatureFault t = false.
Proof.
  intros m Hm t. subst t.
  assert (Heq : isTemperatureCritical (S754_finite true m (-20)) = true ->
                m = 10485760%positive) by (classify; lia).
  split; [classify; lia|]. split; [classify; lia|].
  split; [intros H; apply Heq in H; subst m; reflexivity|].
  classify. repeat split; lia.
Qed.

Lemma high_temperature_class : forall m e,
    ((e = -18 /\ 15728640 <= Z.pos m) \/
     (e = -17 /\ Z.pos m <= 9175040))%Z ->
    let t := S754_finite false m e in
    (t >= MAX_TEMP_CRITICAL) = true /\ (t <= MAX_TEMP_FAULT) = true /\
    (isTemperatureCritical t = true -> t = MAX_TEMP_CRITICAL) /\
    isTemperatureNormal t = false /\ isTemperatureWarning t = false /\
    isTemperatureFault t = false.
Proof.
  intros m e Hm t. subst t.
  assert (Heq : isTemperatureCritical (S754_finite false m e) = true ->
                m = 15728640%positive /\ e = (-18)%Z) by (classify; lia).
  split; [classify; lia|]. split; [classify; lia|].
  split; [intros H; apply Heq in H; destruct H; subst m e; reflexivity|].
  classify. repeat split; lia.
Qed.

Lemma discharge_class : forall m,
    (10485760 <= Z.pos m <= 16777215)%Z ->
    let i := - S754_finite false m (-19) in
    (i <= - MAX_DISCHARGE_CURRENT_CRITICAL_A) = true /\
    (isCurrentCritical i = true -> i = - MAX_DISCHARGE_CURRENT_CRITICAL_A) /\
    isCurrentNormal i = false /\ isCurrentWarning i = false.
Proof.
  intros m Hm i. subst i.
  assert (Heq : isCurrentCritical (- S754_finite false m (-19)) = true ->
                m = 10485760%positive) by (classify; lia).
  split; [classify; lia|].
  split; [intros H; apply Heq in H; subst m; reflexivity|].
  classify. repeat split; lia.
Qed.

Lemma charge_class : forall m,
    (8388608 <= Z.pos m <= 16777215)%Z ->
    let i := S754_finite false m (-21) in
    (i >= MAX_CHARGE_CURRENT_CRITICAL_A) = true /\
    (isCurrentCritical i = true -> i = MAX_CHARGE_CURRENT_CRITICAL_A) /\
    isCurrentNormal i = false /\ isCurrentWarning i = false.
Proof.
  intros m Hm i. subst i.
  assert (Heq : isCurrentCritical (S754_finite false m (-21)) = true ->
                m = 8388608%positive) by (classify; lia).
  split; [classify; lia|].
  split; [intros H; apply Heq in H; subst m; reflexivity|].
  classify. repeat split; lia.
Qed.

Lemma drawBetween_checked : forall lo hi (P : float -> bool),
    (lo <= hi)%Z ->
    forallb (fun n => P (F32.lit (lo + Z.of_nat n) 100))
            (seq 0 (Z.to_nat (hi - lo + 1))) = true ->
    forall g, P (fst (drawBetween lo hi g)) = true.
Proof.
  intros lo hi P Hlh Hall.
  assert (H : forall k, (lo <= k <= hi)%Z -> P (F32.lit k 100) = true).
  { intros k Hk. rewrite forallb_forall in Hall.
    replace k with (lo + Z.of_nat (Z.to_nat (k - lo)))%Z by lia.
    apply Hall. apply in_seq. lia. }
  intros [|z rest]; cbn [drawBetween fst]; apply H; lia.
Qed.

Lemma ranged_fault_draws :
  forall g, unitDraw (fst (drawBetween 0 100 g)) = true.
Proof.
  apply (drawBetween_checked 0 100 unitDraw); [lia|].
  vm_compute. reflexivity.
Qed.

(** A voltage the simulator injects as a critical fault
    ([MIN_VOLTAGE_CRITICAL - d * 0.2f] or
    [MAX_VOLTAGE_CRITICAL + d * 0.2f], [d] drawn between 0 and 1) lies
    between the critical limit and the fault limit of its side.  Of the
    four voltage predicates only [isVoltageCritical] can accept it, and
    it does so only if the voltage is the critical limit itself: any
    other injected value is in no band. *)
Theorem X25_critical_voltage_injection_is_off_the_bands :
  forall (G : Type) (D : SensorSimulator.Distributions G) j g,
    (forall g, unitDraw (fst (SensorSimulator.m_faultDist D g)) = true) ->
    let res := SensorSimulator.readVoltage D j g in
    let v := fst (fst res) in
    (In (LowVoltageInjected j) (snd (fst res)) ->
     (v >= MIN_VOLTAGE_FAULT) = true /\ (v <= MIN_VOLTAGE_CRITICAL) = true /\
     (isVoltageCritical v = true -> v = MIN_VOLTAGE_CRITICAL) /\
     isVoltageNormal v = false /\ isVoltageWarning v = false /\
     isVoltageFault v = false) /\
    (In (HighVoltageInjected j) (snd (fst res)) ->
     (v >= MAX_VOLTAGE_CRITICAL) = true /\ (v <= MAX_VOLTAGE_FAULT) = true /\
     (isVoltageCritical v = true -> v = MAX_VOLTAGE_CRITICAL) /\
     isVoltageNormal v = false /\ isVoltageWarning v = false /\
     isVoltageFault v = false).
Proof.
  intros G D j g Hd res v. subst v res. unfold SensorSimulator.readVoltage.
  destruct (SensorSimulator.m_voltageDist D g) as [voltage g1].
  destruct (SensorSimulator.m_faultDist D g1) as [chance g2].
  destruct (chance < SIM_FAULT_PROBABILITY);
    [|cbn [fst snd In]; split; intros []].
  destruct (SensorSimulator.m_faultDist D g2) as [fault_val g3].
  pose proof (Hd g3) as H3.
  destruct (SensorSimulator.m_faultDist D g3) as [d g4]. cbn [fst] in H3.
  destruct (fault_val < F32.lit 33 100);
    [|destruct (fault_val < F32.lit 66 100)]; cbn [fst snd In].
  - split; [intros _ | intros [H|[]]; discriminate H].
    destruct (inject_low_voltage d H3) as (m & -> & Hm).
    exact (low_voltage_class m Hm).
  - split; [intros [H|[]]; discriminate H | intros _].
    destruct (inject_high_voltage d H3) as (m & -> & Hm).
    exact (high_voltage_class m Hm).
  - split; intros [H|[]]; discriminate H.
Qed.

(** A draw of 0.5: the simulator returns 2.4 V. *)
Lemma X25_witness :
  let v := fst (fst (SensorSimulator.readVoltage rangedDistributions 0
                       [370; 1; 10; 50])) in
  (v >= MIN_VOLTAGE_FAULT) = true /\ (v <= MIN_VOLTAGE_CRITICAL) = true /\
  (isVoltageCritical v = true -> v = MIN_VOLTAGE_CRITICAL) /\
  isVoltageNormal v = false /\ isVoltageWarning v = false /\
  isVoltageFault v = false.
Proof.
  exact (proj1 (X25_critical_voltage_injection_is_off_the_bands
                  (list Z) rangedDistributions 0%nat [370; 1; 10; 50]%Z
                  ranged_fault_draws)
               (or_introl eq_refl)).
Defined.

(** The same for a temperature injected as a critical fault
    ([MIN_TEMP_CRITICAL - d * 5.0f] or [MAX_TEMP_CRITICAL + d * 5.0f]). *)
Theorem X26_critical_temperature_injection_is_off_the_bands :
  forall (G : Type) (D : SensorSimulator.Distributions G) j g,
    (forall g, unitDraw (fst (SensorSimulator.m_faultDist D g)) = true) ->
    let res := SensorSimulator.readTemperature D j g in
    let t := fst (fst res) in
    (In (LowTemperatureInjected j) (snd (fst res)) ->
     (t >= MIN_TEMP_FAULT) = true /\ (t <= MIN_TEMP_CRITICAL) = true /\
     (isTemperatureCritical t = true -> t = MIN_TEMP_CRITICAL) /\
     isTemperatureNormal t = false /\ isTemperatureWarning t = false /\
     isTemperatureFault t = false) /\
    (In (HighTemperatureInjected j) (snd (fst res)) ->
     (t >= MAX_TEMP_CRITICAL) = true /\ (t <= MAX_TEMP_FAULT) = true /\
     (isTemperatureCritical t = true -> t = MAX_TEMP_CRITICAL) /\
     isTemperatureNormal t = false /\ isTemperatureWarning t = false /\
     isTemperatureFault t = false).
Proof.
  intros G D j g Hd res t. subst t res.
  unfold SensorSimulator.readTemperature.
  destruct (SensorSimulator.m_tempDist D g) as [temperature g1].
  destruct (SensorSimulator.m_faultDist D g1) as [chance g2].
  destruct (chance < SIM_FAULT_PROBABILITY);
    [|cbn [fst snd In]; split; intros []].
  destruct (SensorSimulator.m_faultDist D g2) as [fault_val g3].
  pose proof (Hd g3) as H3.
  destruct (SensorSimulator.m_faultDist D g3) as [d g4]. cbn [fst] in H3.
  destruct (fault_val < F32.lit 33 100);
    [|destruct (fault_val < F32.lit 66 100)]; cbn [fst snd In].
  - split; [intros _ | intros [H|[]]; discriminate H].
    destruct (inject_low_temperature d H3) as (m & -> & Hm).
    exact (low_temperature_class m Hm).
  - split; [intros [H|[]]; discriminate H | intros _].
    destruct (inject_high_temperature d H3) as (m & e & -> & Hm).
    exact (high_temperature_class m e Hm).
  - split; intros [H|[]]; discriminate H.
Qed.

(** A draw of 0.5: the simulator returns 62.5 C. *)
Lemma X26_witness :
  let t := fst (fst (SensorSimulator.readTemperature rangedDistributions 0
                       [2500; 1; 50; 50])) in
  (t >= MAX_TEMP_CRITICAL) = true /\ (t <= MAX_TEMP_FAULT) = true /\
  (isTemperatureCritical t = true -> t = MAX_TEMP_CRITICAL) /\
  isTemperatureNormal t = false /\ isTemperatureWarning t = false /\
  isTemperatureFault t = false.
Proof.
  exact (proj2 (X26_critical_temperature_injection_is_off_the_bands
                  (list Z) rangedDistributions 0%nat [2500; 1; 50; 50]%Z
                  ranged_fault_draws)
               (or_introl eq_refl)).
Defined.

(** A pack current the simulator injects as a critical fault
    ([-(MAX_DISCHARGE_CURRENT_CRITICAL_A + d * 5.0f)] or
    [MAX_CHARGE_CURRENT_CRITICAL_A + d * 1.0f]) is at or beyond the
    critical limit of its direction.  [isCurrentCritical] accepts it
    only if it is the limit itself, and the other two current
    predicates never do. *)
Theorem X27_critical_current_injection_is_off_the_bands :
  forall (G : Type) (D : SensorSimulator.Distributions G) g,
    (forall g, unitDraw (fst (SensorSimulator.m_faultDist D g)) = true) ->
    let res := SensorSimulator.readCurrent D g in
    let i := fst (fst res) in
    (In HighDischargeInjected (snd (fst res)) ->
     (i <= - MAX_DISCHARGE_CURRENT_CRITICAL_A) = true /\
     (isCurrentCritical i = true -> i = - MAX_DISCHARGE_CURRENT_CRITICAL_A) /\
     isCurrentNormal i = false /\ isCurrentWarning i = false) /\
    (In HighChargeInjected (snd (fst res)) ->
     (i >= MAX_CHARGE_CURRENT_CRITICAL_A) = true /\
     (isCurrentCritical i = true -> i = MAX_CHARGE_CURRENT_CRITICAL_A) /\
     isCurrentNormal i = false /\ isCurrentWarning i = false).
Proof.
  intros G D g Hd res i. subst i res.
  unfold SensorSimulator.readCurrent.
  destruct (SensorSimulator.m_currentDist D g) as [current g1].
  destruct (SensorSimulator.m_faultDist D g1) as [chance g2].
  destruct (chance < SIM_FAULT_PROBABILITY);
    [|cbn [fst snd In]; split; intros []].
  destruct (SensorSimulator.m_faultDist D g2) as [fault_val g3].
  pose proof (Hd g3) as H3.
  destruct (SensorSimulator.m_faultDist D g3) as [d g4]. cbn [fst] in H3.
  destruct (fault_val < F32.lit 33 100);
    [|destruct (fault_val < F32.lit 66 100)]; cbn [fst snd In].
  - split; [intros _ | intros [H|[]]; discriminate H].
    destruct (inject_discharge d H3) as (m & -> & Hm).
    exact (discharge_class m Hm).
  - split; [intros [H|[]]; discriminate H | intros _].
    destruct (inject_charge d H3) as (m & -> & Hm).
    exact (charge_class m Hm).
  - split; intros [H|[]]; discriminate H.
Qed.

(** A draw of 0.5: the simulator returns -22.5 A. *)
Lemma X27_witness :
  let i := fst (fst (SensorSimulator.readCurrent rangedDistributions
                       [-500; 1; 10; 50])) in
  (i <= - MAX_DISCHARGE_CURRENT_CRITICAL_A) = true /\
  (isCurrentCritical i = true -> i = - MAX_DISCHARGE_CURRENT_CRITICAL_A) /\
  isCurrentNormal i = false /\ isCurrentWarning i = false.
Proof.
  exact (proj1 (X27_critical_current_injection_is_off_the_bands
                  (list Z) rangedDistributions [-500; 1; 10; 50]%Z
                  ranged_fault_draws)
               (or_introl eq_refl)).
Defined.

End Injections.

(** ** The direction of the charge *)

Section ChargeDirection.

Local Open Scope f32_scope.

Lemma finish_signIs : forall s m e, (0 <= m)%Z -> signIs s (finish s m e) = true.
Proof.
  intros s [|p|p] e H; try lia; unfold finish; [reflexivity|].
  destruct (Z.leb e _); cbn [signIs]; apply eqb_reflx.
Qed.

Lemma finish_finite_inv : forall s m e s' m' e',
    finish s m e = S754_finite s' m' e' -> e' = e /\ m = Z.pos m' /\ s' = s.
Proof.
  intros s [|p|p] e s' m' e' H; unfold finish in H; try discriminate H.
  destruct (Z.leb e _); [|discriminate H].
  injection H as -> -> ->. auto.
Qed.

(** A product of a number of sign [s] and a non-negative one is NaN or
    has sign [s]; if it is finite its exponent is at least -149. *)
Lemma mul_signIs : forall s x y,
    signIs s x = true -> signIs false y = true ->
    (F32.is_nan (x * y) = true \/ signIs s (x * y) = true) /\
    (forall s' m e, x * y = S754_finite s' m e -> (-149 <= e)%Z).
Proof.
  intros s [sx|sx| |sx mx ex] [sy|sy| |sy my ey] Hx Hy;
    try discriminate; cbn [signIs] in Hx, Hy;
    try (apply eqb_prop in Hx; subst sx);
    try (apply eqb_prop in Hy; subst sy);
    unfold F32.mul, SFmul; rewrite ?xorb_false_r;
    try (split; [|intros ? ? ? H; discriminate H]);
    try (left; reflexivity);
    try (right; cbn [signIs]; try apply eqb_reflx; reflexivity).
  split.
  - right. destruct (round_exact_sign s (mx * my) (ex + ey)) as (m & e & Hm & ->).
    now apply finish_signIs.
  - intros s' m e H.
    destruct (round_exact_cases s (mx * my) (ex + ey))
      as [[Hle Hr] | (Hlt & m1 & _ & _ & Hr)]; cbv zeta in *;
      rewrite Hr in H.
    + apply finish_finite_inv in H. lia.
    + destruct (m1 <? 2 ^ 24)%Z; apply finish_finite_inv in H; lia.
Qed.

Lemma div_signIs : forall x m e,
    signIs false x = true ->
    signIs false (x / S754_finite false m e) = true.
Proof.
  intros [sx|sx| |sx mx ex] m e H; try discriminate H;
    unfold F32.div, SFdiv; try reflexivity.
  - cbn [signIs] in H. apply eqb_prop in H. subst sx. reflexivity.
  - cbn [signIs] in H. apply eqb_prop in H. subst sx. cbn [xorb].
    unfold SFdiv_core_binary.
    set (e' := Z.min _ _). set (sh := (ex - e - e')%Z).
    set (m' := match sh with
               | Z0 => Z.pos mx
               | Z.pos _ => Z.shiftl (Z.pos mx) sh
               | Z.neg _ => 0%Z
               end).
    assert (Hm' : (0 <= m')%Z).
    { subst m'. destruct sh; try lia. apply Z.shiftl_nonneg. lia. }
    pose proof (Z.div_pos m' (Z.pos m) Hm' ltac:(lia)) as Hq.
    unfold Z.div in Hq.
    destruct (Z.div_eucl m' (Z.pos m)) as [q r].
    destruct (round_any_sign false q e' (new_location (Z.pos m) r) Hq)
      as (m1 & e1 & Hm1 & ->).
    now apply finish_signIs.
Qed.

Lemma ge0_signIs : forall x,
    (x >= F32.lit 0 1) = true -> signIs false x = true.
Proof.
  intros x H. rewrite lit_0 in H.
  destruct x as [s|[]| |[] m e]; try discriminate H; reflexivity.
Qed.

Lemma le0_signIs : forall x,
    (x <= F32.lit 0 1) = true -> signIs true x = true.
Proof.
  intros x H. rewrite lit_0 in H.
  destruct x as [s|[]| |[] m e]; try discriminate H; reflexivity.
Qed.

Lemma lit_3600 : F32.lit 3600 1 = S754_finite false 14745600 (-12).
Proof. vm_compute. reflexivity. Qed.

(** The charge delta has the sign of the pack current when the tick
    length is not negative. *)
Lemma charge_change_sign : forall s p dt,
    signIs s p = true -> signIs false dt = true ->
    let d := BMS.charge_change_mAh p dt in
    (F32.is_nan d = true \/ signIs s d = true) /\
    (forall s' m e, d = S754_finite s' m e -> (-149 <= e)%Z).
Proof.
  intros s p dt Hp Hdt. unfold BMS.charge_change_mAh. cbv zeta.
  rewrite lit_1000, lit_3600.
  pose proof (div_signIs dt 14745600 (-12) Hdt) as Hh.
  set (hours := dt / S754_finite false 14745600 (-12)) in *.
  destruct (mul_signIs s p (S754_finite false 16384000 (-14)) Hp eq_refl)
    as [[Hn | Hs] _].
  - assert (E : p * S754_finite false 16384000 (-14) = S754_nan)
      by (destruct (p * _); try discriminate Hn; reflexivity).
    rewrite E. split; [left; reflexivity | intros ? ? ? H; discriminate H].
  - set (mA := p * S754_finite false 16384000 (-14)) in *.
    destruct (mul_signIs s mA hours Hs Hh) as [[Hn | Hs2] He2].
    + assert (E : mA * hours = S754_nan)
        by (destruct (mA * hours); try discriminate Hn; reflexivity).
      rewrite E. destruct (_ > _);
        (split; [left; reflexivity | intros ? ? ? H; discriminate H]).
    + destruct (_ > _); [|split; [now right | exact He2]].
      unfold CHARGE_EFFICIENCY.
      exact (mul_signIs s (mA * hours) (S754_finite false 16441672 (-24))
                        Hs2 eq_refl).
Qed.

(** An accumulated charge that is a valid binary32 between 0 and the
    nominal capacity. *)
Lemma charge_cases : forall acc,
    F32.valid acc = true ->
    (acc >= F32.lit 0 1) = true -> (acc <= NOMINAL_CAPACITY_MAH) = true ->
    (exists s, acc = S754_zero s) \/
    (exists m e, acc = S754_finite false m e /\ canonic m e /\
                 (e <= 104)%Z /\
                 (acc <= NOMINAL_CAPACITY_MAH) = true).
Proof.
  intros acc Hv Hge Hle. rewrite lit_0 in Hge.
  destruct acc as [s|s| |s m e].
  - left. now exists s.
  - destruct s; discriminate.
  - discriminate.
  - destruct s; [discriminate|]. right. exists m, e.
    destruct (canonic_valid _ _ _ Hv) as [Hc He]. auto.
Qed.

Lemma binary_round_sign : forall sx m e,
    exists m' e',
      (0 <= m')%Z /\ binary_round F32.prec F32.emax sx m e = finish sx m' e'.
Proof.
  intros sx m e. unfold binary_round.
  destruct (shl_align _ _ _) as [mz ez].
  destruct (round_exact_sign sx mz ez) as (m' & e' & Hm & Hr).
  exists m', e'. auto.
Qed.

(** Rounding a positive integer multiple of [2^ez] against a canonical
    number at or below it, and against one above it. *)
Lemma normalize_lower : forall z ez L el,
    (-149 <= ez)%Z -> (0 < z)%Z -> canonic L el ->
    (val (Z.pos L) el <= val z ez)%Z ->
    exists m e,
      binary_normalize F32.prec F32.emax z ez false = finish false m e /\
      (0 < m)%Z /\ (el < e \/ (e = el /\ Z.pos L <= m))%Z.
Proof.
  intros z ez L el Hez Hz HL Hv.
  destruct z as [|a|a]; try lia. cbn [binary_normalize].
  destruct (binary_round_as_aux false a ez Hez) as (P & E & -> & HE & Hval & Hpre).
  destruct (round_shape false P E Hpre) as (m & e & -> & Hs).
  exists m, e. split; [reflexivity|].
  apply (shape_lower P E m e L el Hs); try assumption; lia.
Qed.

Lemma normalize_upper : forall z ez U eu,
    (-149 <= ez)%Z -> (0 < z)%Z -> canonic U eu ->
    (val z ez < val (Z.pos U) eu)%Z ->
    exists m e,
      binary_normalize F32.prec F32.emax z ez false = finish false m e /\
      (0 <= m)%Z /\ (e < eu \/ (e = eu /\ m <= Z.pos U))%Z.
Proof.
  intros z ez U eu Hez Hz HU Hv.
  destruct z as [|a|a]; try lia. cbn [binary_normalize].
  destruct (binary_round_as_aux false a ez Hez) as (P & E & -> & HE & Hval & Hpre).
  destruct (round_shape false P E Hpre) as (m & e & -> & Hs).
  exists m, e. split; [reflexivity|].
  destruct (roundsTo_range P E m e Hs) as [Hm He].
  split; [lia|].
  apply (shape_upper P E m e U eu Hs); try assumption; lia.
Qed.

Lemma ge_refl_pp : forall m e,
    (S754_finite false m e >= S754_finite false m e) = true.
Proof. intros. rewrite ge_pp. lia. Qed.

Lemma le_refl_pp : forall m e,
    (S754_finite false m e <= S754_finite false m e) = true.
Proof. intros. rewrite le_pp. lia. Qed.

(** Adding a non-negative delta does not lower a charge. *)
Lemma add_up : forall ma ea d,
    canonic ma ea ->
    F32.is_nan d = false -> signIs false d = true ->
    (forall s' m e, d = S754_finite s' m e -> (-149 <= e)%Z) ->
    let sum := S754_finite false ma ea + d in
    (sum >= S754_finite false ma ea) = true /\ signIs false sum = true.
Proof.
  intros ma ea d Hc Hn Hs He. cbv zeta.
  destruct (canonic_facts ma ea Hc) as (Hea & _).
  destruct d as [sd|sd| |sd md ed]; try discriminate;
    cbn [signIs] in Hs; try (apply eqb_prop in Hs; subst sd).
  - cbn [F32.add SFadd]. split; [apply ge_refl_pp | reflexivity].
  - split; reflexivity.
  - specialize (He false md ed eq_refl).
    unfold F32.add, SFadd. cbv zeta. unfold cond_Zopp.
    set (ez := Z.min ea ed).
    assert (Hez : (-149 <= ez)%Z) by lia.
    assert (Hzx : (ez <= ea)%Z) by lia.
    assert (Hzy : (ez <= ed)%Z) by lia.
    assert (Hz200 : (-200 <= ez)%Z) by lia.
    pose proof (val_shl ma ea ez Hz200 Hzx) as Ha.
    pose proof (val_shl md ed ez Hz200 Hzy) as Hb.
    clearbody ez.
    set (a := fst (shl_align ma ea ez)) in *.
    set (b := fst (shl_align md ed ez)) in *.
    clearbody a b.
    pose proof (val_pos (Z.pos b) ez ltac:(lia) Hz200) as Hbpos.
    destruct (normalize_lower (Z.pos a + Z.pos b) ez ma ea Hez ltac:(lia) Hc)
      as (m & e & -> & Hm & Hge).
    { rewrite val_add, Ha. lia. }
    split; [|apply finish_signIs; lia].
    destruct m as [|m|m]; try lia. unfold finish.
    destruct (Z.leb e _); [|reflexivity].
    rewrite ge_pp. lia.
Qed.

(** Adding a non-positive delta does not raise it. *)
Lemma add_down : forall ma ea d,
    canonic ma ea -> (ea <= 104)%Z ->
    F32.is_nan d = false -> signIs true d = true ->
    (forall s' m e, d = S754_finite s' m e -> (-149 <= e)%Z) ->
    (S754_finite false ma ea + d <= S754_finite false ma ea) = true.
Proof.
  intros ma ea d Hc Hea104 Hn Hs He.
  destruct (canonic_facts ma ea Hc) as (Hea & _).
  destruct d as [sd|sd| |sd md ed]; try discriminate;
    cbn [signIs] in Hs; try (apply eqb_prop in Hs; subst sd).
  - cbn [F32.add SFadd]. apply le_refl_pp.
  - reflexivity.
  - specialize (He true md ed eq_refl).
    unfold F32.add, SFadd. cbv zeta. unfold cond_Zopp.
    set (ez := Z.min ea ed).
    assert (Hez : (-149 <= ez)%Z) by lia.
    assert (Hzx : (ez <= ea)%Z) by lia.
    assert (Hzy : (ez <= ed)%Z) by lia.
    assert (Hz200 : (-200 <= ez)%Z) by lia.
    pose proof (val_shl ma ea ez Hz200 Hzx) as Ha.
    pose proof (val_shl md ed ez Hz200 Hzy) as Hb.
    clearbody ez.
    set (a := fst (shl_align ma ea ez)) in *.
    set (b := fst (shl_align md ed ez)) in *.
    clearbody a b.
    pose proof (val_pos (Z.pos b) ez ltac:(lia) Hz200) as Hbpos.
    destruct (Z.pos a + - Z.pos b)%Z as [|z|z] eqn:Ez.
    + reflexivity.
    + destruct (normalize_upper (Z.pos z) ez ma ea Hez ltac:(lia) Hc)
        as (m & e & Hr & Hm & Hle).
      { rewrite <- Ez.
        replace (Z.pos a + - Z.pos b)%Z with (Z.pos a - Z.pos b)%Z by lia.
        rewrite val_sub, Ha. lia. }
      rewrite Hr. destruct m as [|m|m]; try lia; [reflexivity|].
      unfold finish, F32.emax, F32.prec.
      destruct (Z.leb_spec e (128 - 24)); [|lia].
      rewrite le_pp. lia.
    + cbn [binary_normalize].
      destruct (binary_round_sign true z ez) as (m & e & Hm & ->).
      destruct m as [|m|m]; try lia; unfold finish; [reflexivity|].
      destruct (Z.leb e _); reflexivity.
Qed.

Lemma add_up_zero : forall s d,
    F32.is_nan d = false -> signIs false d = true ->
    (S754_zero s + d >= S754_zero s) = true /\
    signIs false (S754_zero s + d) = true.
Proof.
  intros s [sd|sd| |sd md ed] Hn Hs; try discriminate;
    cbn [signIs] in Hs; try (apply eqb_prop in Hs; subst sd);
    destruct s; try destruct sd; split; reflexivity.
Qed.

Lemma add_down_zero : forall s d,
    F32.is_nan d = false -> signIs true d = true ->
    (S754_zero s + d <= S754_zero s) = true.
Proof.
  intros s [sd|sd| |sd md ed] Hn Hs; try discriminate;
    cbn [signIs] in Hs; try (apply eqb_prop in Hs; subst sd);
    destruct s; try destruct sd; reflexivity.
Qed.

Lemma signIs_false_not_negative : forall x,
    signIs false x = true -> (x < F32.lit 0 1) = false.
Proof.
  intros x H. rewrite lit_0.
  destruct x as [s|[]| |[] m e]; try discriminate H; reflexivity.
Qed.

(** The clamp of [updateSoC] keeps the direction. *)
Lemma clamp_up : forall acc sum,
    ((exists s, acc = S754_zero s) \/
     (exists m e, acc = S754_finite false m e)) ->
    (acc <= NOMINAL_CAPACITY_MAH) = true ->
    (sum >= acc) = true -> signIs false sum = true ->
    ((if sum > NOMINAL_CAPACITY_MAH then NOMINAL_CAPACITY_MAH
      else if sum < F32.lit 0 1 then F32.lit 0 1 else sum) >= acc) = true.
Proof.
  intros acc sum Hform Hle Hge Hs.
  rewrite (signIs_false_not_negative sum Hs).
  destruct (sum > NOMINAL_CAPACITY_MAH); [|exact Hge].
  unfold NOMINAL_CAPACITY_MAH in *.
  destruct Hform as [[s ->] | (m & e & ->)]; [reflexivity|].
  rewrite le_pp in Hle. rewrite ge_pp. lia.
Qed.

Lemma clamp_down : forall acc sum,
    ((exists s, acc = S754_zero s) \/
     (exists m e, acc = S754_finite false m e)) ->
    (acc <= NOMINAL_CAPACITY_MAH) = true ->
    (sum <= acc) = true ->
    ((if sum > NOMINAL_CAPACITY_MAH then NOMINAL_CAPACITY_MAH
      else if sum < F32.lit 0 1 then F32.lit 0 1 else sum) <= acc) = true.
Proof.
  intros acc sum Hform Hle Hsum.
  destruct (sum > NOMINAL_CAPACITY_MAH) eqn:Hgt.
  - exfalso. unfold NOMINAL_CAPACITY_MAH in *.
    destruct Hform as [[s ->] | (m & e & ->)];
      destruct sum as [ss|[]| |[] ms es]; try discriminate.
    rewrite gt_pp in Hgt. rewrite le_pp in Hle, Hsum. lia.
  - destruct (sum < F32.lit 0 1); [|exact Hsum].
    rewrite lit_0.
    destruct Hform as [[s ->] | (m & e & ->)]; reflexivity.
Qed.

Lemma add_nan_r : forall a d, F32.is_nan d = true -> a + d = S754_nan.
Proof.
  intros a [s|s| |s m e] H; try discriminate H. destruct a; reflexivity.
Qed.

(** The accumulated charge moves with the pack current: over a tick of
    non-negative length, from a charge that is a valid binary32 between
    0 and the nominal capacity, a pack current that is not negative
    does not lower the accumulated charge and one that is not positive
    does not raise it, unless the charge becomes NaN.  Neither the
    roundings nor the two clamps can turn the direction round. *)
Theorem X28_charge_moves_with_the_current :
  forall dt r b,
    F32.valid (BMS.m_accumulatedCharge_mAh b) = true ->
    (BMS.m_accumulatedCharge_mAh b >= F32.lit 0 1) = true ->
    (BMS.m_accumulatedCharge_mAh b <= NOMINAL_CAPACITY_MAH) = true ->
    (dt >= F32.lit 0 1) = true ->
    let b' := fst (BMS.update dt r b) in
    F32.is_nan (BMS.m_accumulatedCharge_mAh b') = false ->
    ((readCurrent r >= F32.lit 0 1) = true ->
     (BMS.m_accumulatedCharge_mAh b' >= BMS.m_accumulatedCharge_mAh b) = true)
    /\
    ((readCurrent r <= F32.lit 0 1) = true ->
     (BMS.m_accumulatedCharge_mAh b' <= BMS.m_accumulatedCharge_mAh b) = true).
Proof.
  intros dt r b Hv H0 H1 Hdt b'. subst b'.
  destruct (update_charge_fields dt r b) as [Ha _]. rewrite Ha. clear Ha.
  unfold beforeHealth. rewrite updateSoC_accumulates. cbv zeta.
  cbn [BMS.m_accumulatedCharge_mAh BMS.m_packCurrent].
  set (acc := BMS.m_accumulatedCharge_mAh b) in *.
  set (d := BMS.charge_change_mAh (readCurrent r) dt).
  intros Hnn.
  assert (Hd : F32.is_nan d = false).
  { destruct (F32.is_nan d) eqn:E; [|reflexivity].
    rewrite (add_nan_r acc d E) in Hnn. discriminate Hnn. }
  apply ge0_signIs in Hdt.
  destruct (charge_cases acc Hv H0 H1) as [[s Hacc] | (m & e & Hacc & Hc & He & _)].
  - assert (Hform : (exists s, acc = S754_zero s) \/
                    (exists m e, acc = S754_finite false m e))
      by (left; now exists s).
    split; intros Hp.
    + apply ge0_signIs in Hp.
      destruct (charge_change_sign false (readCurrent r) dt Hp Hdt)
        as [[Hn | Hs] _]; fold d in Hn || fold d in Hs; [congruence|].
      apply clamp_up; try assumption;
        rewrite Hacc; now apply add_up_zero.
    + apply le0_signIs in Hp.
      destruct (charge_change_sign true (readCurrent r) dt Hp Hdt)
        as [[Hn | Hs] _]; fold d in Hn || fold d in Hs; [congruence|].
      apply clamp_down; try assumption.
      rewrite Hacc. now apply add_down_zero.
  - assert (Hform : (exists s, acc = S754_zero s) \/
                    (exists m e, acc = S754_finite false m e))
      by (right; now exists m, e).
    split; intros Hp.
    + apply ge0_signIs in Hp.
      destruct (charge_change_sign false (readCurrent r) dt Hp Hdt)
        as [[Hn | Hs] Hex]; fold d in Hn || fold d in Hs; [congruence|].
      fold d in Hex.
      apply clamp_up; try assumption;
        rewrite Hacc; now apply add_up.
    + apply le0_signIs in Hp.
      destruct (charge_change_sign true (readCurrent r) dt Hp Hdt)
        as [[Hn | Hs] Hex]; fold d in Hn || fold d in Hs; [congruence|].
      fold d in Hex.
      apply clamp_down; try assumption.
      rewrite Hacc. now apply add_down.
Qed.

(** From the constructed state: a second at 2 A and a second at -5 A. *)
Lemma X28_witness :
  let up := fst (BMS.update (F32.lit 1 1)
                   (constantReadings (F32.lit 37 10) (F32.lit 25 1)
                                     (F32.lit 2 1)) BMS.init) in
  let down := fst (BMS.update (F32.lit 1 1)
                     (constantReadings (F32.lit 37 10) (F32.lit 25 1)
                                       (- F32.lit 5 1)) BMS.init) in
  (BMS.m_accumulatedCharge_mAh up
   >= BMS.m_accumulatedCharge_mAh BMS.init) = true /\
  (BMS.m_accumulatedCharge_mAh down
   <= BMS.m_accumulatedCharge_mAh BMS.init) = true.
Proof.
  split.
  - exact (proj1 (X28_charge_moves_with_the_current
                    (F32.lit 1 1)
                    (constantReadings (F32.lit 37 10) (F32.lit 25 1)
                                      (F32.lit 2 1))
                    BMS.init eq_refl eq_refl eq_refl eq_refl eq_refl)
                 eq_refl).
  - exact (proj2 (X28_charge_moves_with_the_current
                    (F32.lit 1 1)
                    (constantReadings (F32.lit 37 10) (F32.lit 25 1)
                                      (- F32.lit 5 1))
                    BMS.init eq_refl eq_refl eq_refl eq_refl eq_refl)
                 eq_refl).
Defined.

End ChargeDirection.

(** ** Where FAULT comes from in the simulated system *)

Section FaultOrigin.

Local Open Scope f32_scope.
Import SafetyManager.

Lemma proposed_FAULT_iff : forall cells packCurrent soh,
    proposedState cells packCurrent soh = FAULT
    <-> existsb cellFault cells = true.
Proof.
  intros cells packCurrent soh. unfold proposedState. cbv zeta.
  destruct (existsb cellFault cells); cbn [SystemState_eqb negb];
    [split; reflexivity|].
  repeat match goal with
         | |- context [if ?c then _ else _] => destruct c
         end; cbn [SystemState_eqb]; split; intros H; discriminate H.
Qed.

Lemma sim_voltage_not_fault : forall v,
    (v >= SIM_VOLTAGE_MIN) = true -> (v <= SIM_VOLTAGE_MAX) = true ->
    isVoltageFault v = false.
Proof.
  intros v Hlo Hhi.
  unfold isVoltageFault, SIM_VOLTAGE_MIN, SIM_VOLTAGE_MAX,
    MIN_VOLTAGE_FAULT, MAX_VOLTAGE_FAULT in *.
  destruct v as [s|[]| |[] m e]; try discriminate; try reflexivity.
  rewrite ge_pp in Hlo. rewrite le_pp in Hhi. rewrite lt_pp, gt_pp. lia.
Qed.

Lemma sim_temperature_not_fault : forall t,
    (t >= SIM_TEMP_MIN) = true -> (t <= SIM_TEMP_MAX) = true ->
    isTemperatureFault t = false.
Proof.
  intros t Hlo Hhi.
  unfold isTemperatureFault, SIM_TEMP_MIN, SIM_TEMP_MAX,
    MIN_TEMP_FAULT, MAX_TEMP_FAULT in *.
  destruct t as [s|[]| |[] m e]; try discriminate; try reflexivity.
  - rewrite ge_nn in Hlo. rewrite lt_nn.
    cbn [F32.gt SFcompare]. lia.
  - rewrite le_pp in Hhi. rewrite gt_pp.
    cbn [F32.lt SFcompare]. lia.
Qed.

(** A voltage read from the simulator is in the fault band only if the
    simulator announced an extreme voltage. *)
Lemma readVoltage_fault :
  forall (G : Type) (D : SensorSimulator.Distributions G) j g,
    (forall g, unitDraw (fst (SensorSimulator.m_faultDist D g)) = true) ->
    (forall g,
        (fst (SensorSimulator.m_voltageDist D g) >= SIM_VOLTAGE_MIN) = true /\
        (fst (SensorSimulator.m_voltageDist D g) <= SIM_VOLTAGE_MAX) = true) ->
    let res := SensorSimulator.readVoltage D j g in
    isVoltageFault (fst (fst res)) = true ->
    In (ExtremeVoltageInjected j) (snd (fst res)).
Proof.
  intros G D j g Hd Hv res. subst res. unfold SensorSimulator.readVoltage.
  pose proof (Hv g) as [Hlo Hhi].
  destruct (SensorSimulator.m_voltageDist D g) as [voltage g1].
  cbn [fst] in Hlo, Hhi.
  destruct (SensorSimulator.m_faultDist D g1) as [chance g2].
  destruct (chance < SIM_FAULT_PROBABILITY).
  - destruct (SensorSimulator.m_faultDist D g2) as [fault_val g3].
    pose proof (Hd g3) as H3.
    destruct (SensorSimulator.m_faultDist D g3) as [d g4]. cbn [fst] in H3.
    destruct (fault_val < F32.lit 33 100);
      [|destruct (fault_val < F32.lit 66 100)]; cbn [fst snd In]; intros Hf.
    + destruct (inject_low_voltage d H3) as (m & E & Hm). rewrite E in Hf.
      destruct (low_voltage_class m Hm) as (_ & _ & _ & _ & _ & Hnf).
      cbv zeta in Hnf. congruence.
    + destruct (inject_high_voltage d H3) as (m & E & Hm). rewrite E in Hf.
      destruct (high_voltage_class m Hm) as (_ & _ & _ & _ & _ & Hnf).
      cbv zeta in Hnf. congruence.
    + now left.
  - cbn [fst snd In]. intros Hf.
    rewrite (sim_voltage_not_fault voltage Hlo Hhi) in Hf. discriminate Hf.
Qed.

Lemma readTemperature_fault :
  forall (G : Type) (D : SensorSimulator.Distributions G) j g,
    (forall g, unitDraw (fst (SensorSimulator.m_faultDist D g)) = true) ->
    (forall g,
        (fst (SensorSimulator.m_tempDist D g) >= SIM_TEMP_MIN) = true /\
        (fst (SensorSimulator.m_tempDist D g) <= SIM_TEMP_MAX) = true) ->
    let res := SensorSimulator.readTemperature D j g in
    isTemperatureFault (fst (fst res)) = true ->
    In (ExtremeTemperatureInjected j) (snd (fst res)).
Proof.
  intros G D j g Hd Hv res. subst res.
  unfold SensorSimulator.readTemperature.
  pose proof (Hv g) as [Hlo Hhi].
  destruct (SensorSimulator.m_tempDist D g) as [temperature g1].
  cbn [fst] in Hlo, Hhi.
  destruct (SensorSimulator.m_faultDist D g1) as [chance g2].
  destruct (chance < SIM_FAULT_PROBABILITY).
  - destruct (SensorSimulator.m_faultDist D g2) as [fault_val g3].
    pose proof (Hd g3) as H3.
    destruct (SensorSimulator.m_faultDist D g3) as [d g4]. cbn [fst] in H3.
    destruct (fault_val < F32.lit 33 100);
      [|destruct (fault_val < F32.lit 66 100)]; cbn [fst snd In]; intros Hf.
    + destruct (inject_low_temperature d H3) as (m & E & Hm).
      rewrite E in Hf.
      destruct (low_temperature_class m Hm) as (_ & _ & _ & _ & _ & Hnf).
      cbv zeta in Hnf. congruence.
    + destruct (inject_high_temperature d H3) as (m & e & E & Hm).
      rewrite E in Hf.
      destruct (high_temperature_class m e Hm) as (_ & _ & _ & _ & _ & Hnf).
      cbv zeta in Hnf. congruence.
    + now left.
  - cbn [fst snd In]. intros Hf.
    rewrite (sim_temperature_not_fault temperature Hlo Hhi) in Hf.
    discriminate Hf.
Qed.

(** The same for all the cells of a tick. *)
Lemma simulator_readCells_fault :
  forall (G : Type) (D : SensorSimulator.Distributions G),
    (forall g, unitDraw (fst (SensorSimulator.m_faultDist D g)) = true) ->
    (forall g,
        (fst (SensorSimulator.m_voltageDist D g) >= SIM_VOLTAGE_MIN) = true /\
        (fst (SensorSimulator.m_voltageDist D g) <= SIM_VOLTAGE_MAX) = true) ->
    (forall g,
        (fst (SensorSimulator.m_tempDist D g) >= SIM_TEMP_MIN) = true /\
        (fst (SensorSimulator.m_tempDist D g) <= SIM_TEMP_MAX) = true) ->
    forall n i g k,
      (k < n)%nat ->
      let res := SensorSimulator.readCells D n i g in
      (isVoltageFault
         (fst (nth k (fst (fst res)) (F32.lit 0 1, F32.lit 0 1)))
       || isTemperatureFault
            (snd (nth k (fst (fst res)) (F32.lit 0 1, F32.lit 0 1))))%bool
      = true ->
      In (ExtremeVoltageInjected (i + k)) (snd (fst res)) \/
      In (ExtremeTemperatureInjected (i + k)) (snd (fst res)).
Proof.
  intros G D Hd Hv Ht n. induction n as [|n IH]; intros i g k Hk res;
    subst res; [lia|].
  cbn [SensorSimulator.readCells].
  pose proof (readVoltage_fault G D i g Hd Hv) as HV. cbv zeta in HV.
  destruct (SensorSimulator.readVoltage D i g) as [[v o1] g1].
  pose proof (readTemperature_fault G D i g1 Hd Ht) as HT. cbv zeta in HT.
  destruct (SensorSimulator.readTemperature D i g1) as [[t o2] g2].
  specialize (IH (S i) g2). cbv zeta in IH.
  destruct (SensorSimulator.readCells D n (S i) g2) as [[rest o3] g3].
  cbn [fst snd] in *.
  destruct k as [|k]; cbn [nth fst snd].
  - rewrite Nat.add_0_r. intros Hf. apply orb_true_iff in Hf.
    destruct Hf as [Hf|Hf]; [left | right]; apply in_or_app.
    + left. now apply HV.
    + right. apply in_or_app. left. now apply HT.
  - intros Hf. replace (i + S k)%nat with (S i + k)%nat by lia.
    destruct (IH k ltac:(lia) Hf) as [H|H]; [left | right];
      apply in_or_app; right; apply in_or_app; now right.
Qed.

Lemma ranged_voltage_draws :
  forall g,
    (fst (drawBetween 200 460 g) >= SIM_VOLTAGE_MIN) = true /\
    (fst (drawBetween 200 460 g) <= SIM_VOLTAGE_MAX) = true.
Proof.
  intros g.
  pose proof (drawBetween_checked 200 460
                (fun v => (v >= SIM_VOLTAGE_MIN) && (v <= SIM_VOLTAGE_MAX))%bool
                ltac:(lia) ltac:(vm_compute; reflexivity) g) as H.
  now apply andb_true_iff in H.
Qed.

Lemma ranged_temperature_draws :
  forall g,
    (fst (drawBetween (-1500) 6500 g) >= SIM_TEMP_MIN) = true /\
    (fst (drawBetween (-1500) 6500 g) <= SIM_TEMP_MAX) = true.
Proof.
  intros g.
  pose proof (drawBetween_checked (-1500) 6500
                (fun t => (t >= SIM_TEMP_MIN) && (t <= SIM_TEMP_MAX))%bool
                ltac:(lia) ltac:(vm_compute; reflexivity) g) as H.
  now apply andb_true_iff in H.
Qed.

(** With distributions that honour the ranges the simulator constructs
    them with, a tick of the simulated system ends in FAULT exactly
    when the simulator announced an extreme voltage or temperature
    during it: neither an ordinary reading nor a reading injected as a
    critical fault, nor any pack current or state of health, gives
    FAULT. *)
Theorem X29_simulated_FAULT_iff_extreme_injection :
  forall (G : Type) (D : SensorSimulator.Distributions G) dt b g,
    reachable b ->
    (forall g, unitDraw (fst (SensorSimulator.m_faultDist D g)) = true) ->
    (forall g,
        (fst (SensorSimulator.m_voltageDist D g) >= SIM_VOLTAGE_MIN) = true /\
        (fst (SensorSimulator.m_voltageDist D g) <= SIM_VOLTAGE_MAX) = true) ->
    (forall g,
        (fst (SensorSimulator.m_tempDist D g) >= SIM_TEMP_MIN) = true /\
        (fst (SensorSimulator.m_tempDist D g) <= SIM_TEMP_MAX) = true) ->
    let res := simulatedUpdate D dt b g in
    BMS.getCurrentState (fst (fst res)) = FAULT <->
    exists j, In (ExtremeVoltageInjected j) (snd res) \/
              In (ExtremeTemperatureInjected j) (snd res).
Proof.
  intros G D dt b g Hb Hd Hv Ht res. subst res.
  destruct (simulatedUpdate_state G D dt b g) as [Hs Ho].
  rewrite Hs, Ho. clear Hs Ho.
  destruct (readings_out G D g) as (Hrv & Hrt & _ & Hout). cbv zeta in *.
  set (r := fst (fst (SensorSimulator.readings D g))) in *.
  rewrite Hout. clear Hout.
  rewrite tick_state, proposed_FAULT_iff.
  destruct (update_cells dt r b) as [-> _].
  pose proof (reachable_cells_length b Hb) as Hlen.
  destruct (simulator_readCells_out G D NUM_CELLS 0 g) as (_ & Hl & Hx).
  cbv zeta in Hl, Hx.
  pose proof (readCurrent_out G D
                (snd (SensorSimulator.readCells D NUM_CELLS 0 g))) as [Hc _].
  split.
  - intros Hex. apply existsb_exists in Hex. destruct Hex as (x & Hin & Hf).
    apply In_nth_error in Hin. destruct Hin as [j Hj].
    rewrite readCells_nth in Hj.
    destruct (nth_error (BMS.m_cells b) j) as [c|] eqn:Ec; [|discriminate Hj].
    assert (Hlt : (j < NUM_CELLS)%nat).
    { rewrite <- Hlen. apply nth_error_Some. congruence. }
    cbn [option_map] in Hj. injection Hj as <-.
    pose proof (simulator_readCells_fault G D Hd Hv Ht NUM_CELLS 0 g j Hlt)
      as HF.
    cbv zeta in HF. rewrite <- Hrv, <- Hrt in HF. specialize (HF Hf).
    exists j. cbn [Nat.add] in HF.
    destruct HF as [HF|HF]; [left | right]; apply in_or_app; now left.
  - intros [j Hj].
    assert (Hj' : In (ExtremeVoltageInjected j)
                     (snd (fst (SensorSimulator.readCells D NUM_CELLS 0 g))) \/
                  In (ExtremeTemperatureInjected j)
                     (snd (fst (SensorSimulator.readCells D NUM_CELLS 0 g)))).
    { destruct Hj as [Hj|Hj]; apply in_app_or in Hj; destruct Hj as [Hj|Hj];
        [now left | | now right | ];
        apply Hc in Hj; destruct Hj as [E | [E | E]]; discriminate E. }
    destruct (Hx j Hj') as [Hb4 Hf]. rewrite Nat.sub_0_r in Hf.
    rewrite <- Hrv, <- Hrt in Hf.
    apply existsb_exists.
    destruct (nth_error (BMS.m_cells b) j) as [c|] eqn:Ec.
    + exists (BatteryCell.Build (BatteryCell.m_id c) (readVoltage r j)
                                (readTemperature r j)).
      split; [|exact Hf].
      apply nth_error_In with (n := j).
      rewrite readCells_nth, Ec. reflexivity.
    + apply nth_error_None in Ec. lia.
Qed.

Lemma X29_witness :
  let res := simulatedUpdate rangedDistributions (F32.lit 1 1) BMS.init
                             [370; 1; 90; 10] in
  BMS.getCurrentState (fst (fst res)) = FAULT <->
  exists j, In (ExtremeVoltageInjected j) (snd res) \/
            In (ExtremeTemperatureInjected j) (snd res).
Proof.
  exact (X29_simulated_FAULT_iff_extreme_injection
           (list Z) rangedDistributions (F32.lit 1 1) BMS.init
           [370; 1; 90; 10]%Z reachable_init
           ranged_fault_draws ranged_voltage_draws ranged_temperature_draws).
Defined.

End FaultOrigin.

(** ** Exact rounding and the cycle counter *)

Section ExactRounding.

Lemma shr_1_even : forall c,
    0 <= c ->
    shr_1 {| shr_m := 2 * c; shr_r := false; shr_s := false |}
    = {| shr_m := c; shr_r := false; shr_s := false |}.
Proof. intros [|p|p] H; try lia; reflexivity. Qed.

(** Shifting out zeros loses nothing. *)
Lemma iter_shr_1_exact : forall n c,
    0 <= c ->
    iter_pos shr_1 n {| shr_m := 2 ^ Z.pos n * c; shr_r := false;
                        shr_s := false |}
    = {| shr_m := c; shr_r := false; shr_s := false |}.
Proof.
  induction n as [n IH | n IH |]; intros c Hc.
  - pose proof (pow2_pos (Z.pos n) ltac:(lia)) as Hp.
    replace (2 ^ Z.pos n~1 * c) with (2 * (2 ^ Z.pos n * (2 ^ Z.pos n * c)))
      by (rewrite pow2_xI; ring).
    cbn [iter_pos].
    rewrite shr_1_even by nia. rewrite IH by nia. now apply IH.
  - pose proof (pow2_pos (Z.pos n) ltac:(lia)) as Hp.
    replace (2 ^ Z.pos n~0 * c) with (2 ^ Z.pos n * (2 ^ Z.pos n * c))
      by (rewrite pow2_xO; ring).
    cbn [iter_pos].
    rewrite IH by nia. now apply IH.
  - change (2 ^ 1) with 2. cbn [iter_pos]. now apply shr_1_even.
Qed.

(** [binary_round_aux] on a significand whose discarded bits are all
    zero: the quotient, exactly. *)
Lemma round_exact_divisible : forall sx pm E q,
    let d := Z.pos (digits2_pos pm) in
    let e1 := Z.max (d + E - 24) (-149) in
    E < e1 -> Z.pos pm = 2 ^ (e1 - E) * q ->
    binary_round_aux F32.prec F32.emax sx (Z.pos pm) E loc_Exact
    = finish sx q e1.
Proof.
  intros sx pm E q d e1 Hlt Hq.
  assert (Hr : binary_round_aux F32.prec F32.emax sx (Z.pos pm) E loc_Exact
               = let '(mrs', e') := shr_fexp F32.prec F32.emax (Z.pos pm) E loc_Exact in
                 let '(mrs'', e'') :=
                   shr_fexp F32.prec F32.emax
                     (round_nearest_even (shr_m mrs') (loc_of_shr_record mrs'))
                     e' loc_Exact in
                 finish sx (shr_m mrs'') e'').
  { unfold binary_round_aux, finish.
    destruct (shr_fexp _ _ (Z.pos pm) E loc_Exact) as [mrs' e'].
    destruct (shr_fexp _ _ _ e' loc_Exact) as [mrs'' e''].
    reflexivity. }
  rewrite Hr. clear Hr.
  pose proof (pow2_pos (e1 - E) ltac:(lia)) as Hp.
  assert (Hq0 : 0 < q) by nia.
  assert (Hq24 : q < 2 ^ 24).
  { destruct (digits2_pos_bounds pm) as [_ Dhi]. fold d in Dhi.
    assert (H : 2 ^ (e1 - E) * q < 2 ^ (e1 - E) * 2 ^ 24).
    { rewrite <- Hq. rewrite <- Z.pow_add_r by lia.
      eapply Z.lt_le_trans; [exact Dhi|]. apply Z.pow_le_mono_r; lia. }
    apply Z.mul_lt_mono_pos_l in H; assumption. }
  unfold shr_fexp at 1. rewrite fexp_eq. simpl Zdigits2. fold d. fold e1.
  destruct (e1 - E) as [|ps|ps] eqn:Es; try lia.
  unfold shr. simpl shr_record_of_loc. rewrite Hq.
  rewrite iter_shr_1_exact by lia.
  simpl loc_of_shr_record. simpl round_nearest_even. simpl shr_m.
  replace (E + Z.pos ps) with e1 by lia.
  rewrite round_second_stage by lia.
  destruct (Z.ltb_spec q (2 ^ 24)); [reflexivity | lia].
Qed.

Local Open Scope f32_scope.

(** Below [2^24] half cycles the count [k / 2] is kept exactly: its
    significand is [k] shifted to 24 bits. *)
Lemma halves_explicit : forall p,
    (Z.pos p < 2 ^ 24)%Z ->
    let d := Z.pos (digits2_pos p) in
    exists m,
      halves (Z.pos p) = S754_finite false m (d - 25) /\
      Z.pos m = (Z.pos p * 2 ^ (24 - d))%Z.
Proof.
  intros p Hp d.
  destruct (digits2_pos_bounds p) as [Dlo Dhi]. fold d in Dlo, Dhi.
  assert (Hd1 : (1 <= d)%Z) by (subst d; lia).
  assert (Hd24 : (d <= 24)%Z).
  { assert (d - 1 < 24)%Z; [|lia]. apply (Z.pow_lt_mono_r_iff 2); lia. }
  unfold halves. cbn [binary_normalize]. unfold binary_round.
  rewrite fexp_eq. fold d.
  replace (Z.max (d + -1 - 24) (-149)) with (d - 25)%Z by lia.
  pose proof (shl_align_le p (-1) (d - 25) ltac:(lia)) as Hf.
  pose proof (shl_align_snd p (-1) (d - 25) ltac:(lia)) as Hs.
  destruct (shl_align p (-1) (d - 25)) as [X E]. cbn [fst snd] in Hf, Hs.
  subst E. replace (-1 - (d - 25))%Z with (24 - d)%Z in Hf by lia.
  pose proof (digits_shl p (24 - d) ltac:(lia) X Hf) as HdX. fold d in HdX.
  exists X. split; [|exact Hf].
  destruct (round_exact_cases false X (d - 25))
    as [[_ Hr] | (Hlt & _)]; cbv zeta in *; [|lia].
  rewrite Hr. unfold finish, F32.emax, F32.prec.
  destruct (Z.leb_spec (d - 25) (128 - 24)); [reflexivity | lia].
Qed.

Lemma halves_0 : halves 0 = S754_zero false.
Proof. reflexivity. Qed.

(** [+= 0.5f] is exact on every count below [2^23]: [k / 2] becomes
    [(k + 1) / 2]. *)
Lemma halves_add_all : forall k,
    (0 <= k < 2 ^ 24)%Z -> halves k + F32.lit 5 10 = halves (k + 1).
Proof.
  intros k Hk. rewrite lit_half.
  destruct k as [|p|p]; [reflexivity | | lia].
  destruct (Z.eq_dec (Z.pos p + 1) (2 ^ 24)) as [Etop | Ntop].
  { assert (p = 16777215%positive) by lia. subst p.
    vm_compute. reflexivity. }
  destruct (halves_explicit p ltac:(lia)) as (m & -> & Hm). cbv zeta in Hm.
  destruct (halves_explicit (p + 1) ltac:(lia)) as (q & Hn & Hq).
  cbv zeta in Hn, Hq.
  replace (Z.pos p + 1)%Z with (Z.pos (p + 1)) by lia. rewrite Hn.
  set (d := Z.pos (digits2_pos p)) in *.
  set (dn := Z.pos (digits2_pos (p + 1))) in *.
  destruct (digits2_pos_bounds p) as [Dlo Dhi]. fold d in Dlo, Dhi.
  destruct (digits2_pos_bounds (p + 1)) as [Nlo Nhi]. fold dn in Nlo, Nhi.
  assert (Hd1 : (1 <= d)%Z) by (subst d; lia).
  assert (Hd24 : (d <= 24)%Z).
  { assert (d - 1 < 24)%Z; [|lia]. apply (Z.pow_lt_mono_r_iff 2); lia. }
  assert (Hn2 : (2 <= dn)%Z).
  { assert (1 < dn)%Z; [|lia]. apply (Z.pow_lt_mono_r_iff 2); lia. }
  assert (Hn24 : (dn <= 24)%Z).
  { assert (dn - 1 < 24)%Z; [|lia]. apply (Z.pow_lt_mono_r_iff 2); lia. }
  unfold F32.add, SFadd. cbv zeta. unfold cond_Zopp.
  replace (Z.min (d - 25) (-24)) with (-24)%Z by lia.
  rewrite !shl_align_le by lia.
  replace (d - 25 - -24)%Z with (d - 1)%Z by lia.
  change (2 ^ (-24 - -24))%Z with 1%Z. rewrite Z.mul_1_r.
  assert (Hz : (Z.pos m * 2 ^ (d - 1) + 8388608
                = Z.pos (p + 1) * 2 ^ 23)%Z).
  { rewrite Hm, <- Z.mul_assoc, <- Z.pow_add_r by lia.
    replace (24 - d + (d - 1))%Z with 23%Z by lia.
    rewrite Pos2Z.inj_add. change (2 ^ 23)%Z with 8388608%Z. lia. }
  rewrite Hz.
  assert (HZpos : (Z.pos (p + 1) * 2 ^ 23 = Z.pos ((p + 1) * 8388608))%Z)
    by (rewrite Pos2Z.inj_mul; reflexivity).
  rewrite HZpos. cbn [binary_normalize]. unfold binary_round.
  rewrite fexp_eq.
  assert (HdZ : Z.pos (digits2_pos ((p + 1) * 8388608)) = (dn + 23)%Z).
  { apply (digits_shl (p + 1) 23 ltac:(lia)). rewrite <- HZpos. reflexivity. }
  rewrite HdZ. rewrite shl_align_ge by lia.
  rewrite (round_exact_divisible false ((p + 1) * 8388608) (-24) (Z.pos q)).
  - rewrite HdZ.
    replace (Z.max (dn + 23 + -24 - 24) (-149)) with (dn - 25)%Z by lia.
    unfold finish, F32.emax, F32.prec.
    destruct (Z.leb_spec (dn - 25) (128 - 24)); [reflexivity | lia].
  - rewrite HdZ. lia.
  - rewrite HdZ.
    replace (Z.max (dn + 23 + -24 - 24) (-149) - -24)%Z with (dn - 1)%Z by lia.
    rewrite <- HZpos, Hq.
    rewrite (Z.mul_comm (2 ^ (dn - 1))), <- Z.mul_assoc, <- Z.pow_add_r by lia.
    replace (24 - dn + (dn - 1))%Z with 23%Z by lia. reflexivity.
Qed.

(** At [2^23] cycles the counter has run out of bits: [+= 0.5f] leaves
    it as it is. *)
Lemma halves_saturated :
  halves 16777216 + F32.lit 5 10 = halves 16777216.
Proof. vm_compute. reflexivity. Qed.

(** [halves k] is the number [k / 2], exactly. *)
Lemma halves_value : forall k,
    (0 < k <= 2 ^ 24)%Z ->
    exists m e,
      halves k = S754_finite false m e /\ (-24 <= e)%Z /\
      (Z.pos m * 2 ^ (e + 24) = k * 2 ^ 23)%Z.
Proof.
  intros k Hk. destruct k as [|p|p]; try lia.
  destruct (Z.eq_dec (Z.pos p) (2 ^ 24)) as [Etop | Ntop].
  { assert (p = 16777216%positive) by lia. subst p.
    exists 8388608%positive, 0%Z. repeat split; try lia. }
  destruct (halves_explicit p ltac:(lia)) as (m & Hh & Hm). cbv zeta in *.
  set (d := Z.pos (digits2_pos p)) in *.
  destruct (digits2_pos_bounds p) as [Dlo Dhi]. fold d in Dlo, Dhi.
  assert (Hd1 : (1 <= d)%Z) by (subst d; lia).
  assert (Hd24 : (d <= 24)%Z).
  { assert (d - 1 < 24)%Z; [|lia]. apply (Z.pow_lt_mono_r_iff 2); lia. }
  exists m, (d - 25)%Z. split; [exact Hh|]. split; [lia|].
  rewrite Hm, <- Z.mul_assoc, <- Z.pow_add_r by lia.
  f_equal. f_equal. lia.
Qed.

End ExactRounding.

(** ** The cycle counter at every count *)

Section ExactCycles.

Local Open Scope f32_scope.

Lemma halves_units : forall k,
    (0 <= k <= 2 ^ 24)%Z -> inUnits (halves k) = Some (k * 2 ^ 148)%Z.
Proof.
  intros k Hk. destruct (Z.eq_dec k 0) as [-> | Hne]; [reflexivity|].
  destruct (halves_value k ltac:(lia)) as (m & e & -> & He & Hm).
  cbn [inUnits]. f_equal.
  replace (e + 149)%Z with (e + 24 + 125)%Z by lia.
  rewrite Z.pow_add_r by lia.
  replace (2 ^ 148)%Z with (2 ^ 23 * 2 ^ 125)%Z by reflexivity.
  rewrite Z.mul_1_l, !Z.mul_assoc, Hm. reflexivity.
Qed.

(** One [+= 0.5f] on a count the program can hold. *)
Lemma halves_next : forall k,
    (0 <= k <= 2 ^ 24)%Z ->
    halves k + F32.lit 5 10 = halves (Z.min (k + 1) 16777216).
Proof.
  intros k Hk. destruct (Z.eq_dec k 16777216) as [-> | Hne].
  - exact halves_saturated.
  - rewrite Z.min_l by lia. apply halves_add_all. lia.
Qed.

(** In every reachable state the counter holds [k / 2] for some [k] up
    to [2^24]. *)
Lemma reachable_count : forall b,
    reachable b ->
    exists k, (0 <= k <= 16777216)%Z /\ BMS.m_chargeCycles b = halves k.
Proof.
  induction 1 as [|dt r b Hb (k & Hk & IH)].
  - exists 0%Z. split; [lia | reflexivity].
  - destruct (update_cycles_step dt r b) as [[Hc | Hc] _];
      cbv zeta in Hc; rewrite Hc, IH.
    + exists k. split; [lia | reflexivity].
    + exists (Z.min (k + 1) 16777216). split; [lia|].
      apply halves_next. lia.
Qed.


(** [C10]: when [updateSoH] returns, the two latches are not both set,
    and the counter is the one the call found or the result of one
    [+= 0.5f] on it, whatever the state the call was made in.  The
    program makes the call in [update], on the state [updateSoC] has just
    left: there the counter holds [k / 2] for some [k] from 0 to
    16777216, and the call leaves that number or that number plus one
    half, exactly: in units of [2^-149] the count goes from [k * 2^148]
    to [k * 2^148] or to [k * 2^148 + 2^148], never further. *)
Theorem C10_latches_never_both_set_after_call :
  (forall b,
      let b' := fst (BMS.updateSoH b) in
      (BMS.m_wasFull b' && BMS.m_wasEmpty b')%bool = false /\
      (BMS.m_chargeCycles b' = BMS.m_chargeCycles b \/
       BMS.m_chargeCycles b' = BMS.m_chargeCycles b + F32.lit 5 10)) /\
  (forall b0 dt r,
      reachable b0 ->
      let b := beforeHealth dt r b0 in
      let b' := fst (BMS.updateSoH b) in
      exists k,
        (0 <= k <= 16777216)%Z /\
        BMS.m_chargeCycles b = halves k /\
        inUnits (BMS.m_chargeCycles b) = Some (k * 2 ^ 148)%Z /\
        (inUnits (BMS.m_chargeCycles b') = Some (k * 2 ^ 148)%Z \/
         inUnits (BMS.m_chargeCycles b') = Some (k * 2 ^ 148 + 2 ^ 148)%Z)).
Proof.
  assert (Hany : forall b,
             (BMS.m_wasFull (fst (BMS.updateSoH b))
              && BMS.m_wasEmpty (fst (BMS.updateSoH b)))%bool = false /\
             (BMS.m_chargeCycles (fst (BMS.updateSoH b))
              = BMS.m_chargeCycles b \/
              BMS.m_chargeCycles (fst (BMS.updateSoH b))
              = BMS.m_chargeCycles b + F32.lit 5 10)).
  { intros b. pose proof (updateSoH_latches b) as H. cbv zeta in H.
    destruct (andb _ _) eqn:E in H.
    - destruct H as (Hc & Hf & _). rewrite Hf. auto.
    - destruct H as (Hc & Hf & He). rewrite Hf, He. auto. }
  split; [exact Hany|].
  intros b0 dt r Hb0. cbv zeta.
  destruct (reachable_count b0 Hb0) as (k & Hk & Hc0).
  change (BMS.m_chargeCycles (beforeHealth dt r b0))
    with (BMS.m_chargeCycles b0).
  exists k. split; [exact Hk|]. split; [exact Hc0|].
  split; [rewrite Hc0; apply halves_units; lia|].
  destruct (Hany (beforeHealth dt r b0)) as [_ [Hc | Hc]]; rewrite Hc;
    change (BMS.m_chargeCycles (beforeHealth dt r b0))
      with (BMS.m_chargeCycles b0); rewrite Hc0.
  - left. apply halves_units. lia.
  - rewrite halves_next by lia.
    destruct (Z.eq_dec k 16777216) as [-> | Hne].
    + left. reflexivity.
    + right. rewrite Z.min_l by lia. rewrite halves_units by lia.
      f_equal. ring.
Qed.

(** The second tick of the program, an hour at -25 A after an hour at
    5 A: the call finds the full latch set and an empty pack. *)
Lemma C10_witness :
  let b := beforeHealth (F32.lit 3600 1)
             (constantReadings (F32.lit 37 10) (F32.lit 25 1)
                               (- F32.lit 25 1))
             (hourTick (F32.lit 5 1) BMS.init) in
  let b' := fst (BMS.updateSoH b) in
  exists k,
    (0 <= k <= 16777216)%Z /\
    BMS.m_chargeCycles b = halves k /\
    inUnits (BMS.m_chargeCycles b) = Some (k * 2 ^ 148)%Z /\
    (inUnits (BMS.m_chargeCycles b') = Some (k * 2 ^ 148)%Z \/
     inUnits (BMS.m_chargeCycles b') = Some (k * 2 ^ 148 + 2 ^ 148)%Z).
Proof.
  exact (proj2 C10_latches_never_both_set_after_call
           (hourTick (F32.lit 5 1) BMS.init) (F32.lit 3600 1)
           (constantReadings (F32.lit 37 10) (F32.lit 25 1) (- F32.lit 25 1))
           (reachable_update _ _ _ reachable_init)).
Defined.

(** A tick whose sum leaves the range [0, 3000]: the clamp, the state of
    charge and what [updateSoH] does with it. *)
Lemma tick_at_the_bounds : forall dt r b,
    let sum := BMS.m_accumulatedCharge_mAh b
               + BMS.charge_change_mAh (readCurrent r) dt in
    let b' := fst (BMS.update dt r b) in
    ((sum > NOMINAL_CAPACITY_MAH) = true ->
     BMS.m_accumulatedCharge_mAh b' = NOMINAL_CAPACITY_MAH /\
     BMS.m_chargeCycles b' = BMS.m_chargeCycles (healthCall (F32.lit 100 1) b) /\
     BMS.m_wasFull b' = BMS.m_wasFull (healthCall (F32.lit 100 1) b) /\
     BMS.m_wasEmpty b' = BMS.m_wasEmpty (healthCall (F32.lit 100 1) b)) /\
    ((sum > NOMINAL_CAPACITY_MAH) = false -> (sum < F32.lit 0 1) = true ->
     BMS.m_accumulatedCharge_mAh b' = F32.lit 0 1 /\
     BMS.m_chargeCycles b' = BMS.m_chargeCycles (healthCall (F32.lit 0 1) b) /\
     BMS.m_wasFull b' = BMS.m_wasFull (healthCall (F32.lit 0 1) b) /\
     BMS.m_wasEmpty b' = BMS.m_wasEmpty (healthCall (F32.lit 0 1) b)).
Proof.
  intros dt r b sum b'.
  destruct (update_charge_fields dt r b) as [Ha Hs].
  destruct (update_health_fields dt r b) as (Hc & Hf & He & _).
  cbv zeta in Hc, Hf, He. fold b' in Ha, Hs, Hc, Hf, He.
  assert (Hacc : BMS.m_accumulatedCharge_mAh b'
                 = if sum > NOMINAL_CAPACITY_MAH then NOMINAL_CAPACITY_MAH
                   else if sum < F32.lit 0 1 then F32.lit 0 1 else sum).
  { rewrite Ha. unfold beforeHealth. now rewrite updateSoC_accumulates. }
  assert (Hsoc : BMS.getSoC b'
                 = let soc0 := BMS.m_accumulatedCharge_mAh b'
                               / NOMINAL_CAPACITY_MAH * F32.lit 100 1 in
                   let soc1 := if soc0 > F32.lit 100 1 then F32.lit 100 1
                               else soc0 in
                   if soc1 < F32.lit 0 1 then F32.lit 0 1 else soc1).
  { unfold BMS.getSoC. rewrite Hs, Ha. unfold beforeHealth.
    now rewrite updateSoC_soc. }
  clear Ha Hs. split.
  - intros Hhi. rewrite Hhi in Hacc. rewrite Hacc in Hsoc.
    assert (Hs100 : BMS.getSoC b' = F32.lit 100 1)
      by (rewrite Hsoc; vm_compute; reflexivity).
    rewrite Hs100 in Hc, Hf, He. auto.
  - intros Hhi Hlo. rewrite Hhi, Hlo in Hacc. rewrite Hacc in Hsoc.
    assert (Hs0 : BMS.getSoC b' = F32.lit 0 1)
      by (rewrite Hsoc; vm_compute; reflexivity).
    rewrite Hs0 in Hc, Hf, He. auto.
Qed.

(** One swing from a state with both latches clear and the accumulator
    at a half or at zero: one [+= 0.5f], and the pack is left empty with
    both latches clear. *)
Lemma swing_fields : forall b,
    BMS.m_accumulatedCharge_mAh b = BMS.m_accumulatedCharge_mAh BMS.init \/
    BMS.m_accumulatedCharge_mAh b = F32.lit 0 1 ->
    BMS.m_wasFull b = false -> BMS.m_wasEmpty b = false ->
    BMS.m_accumulatedCharge_mAh (swing b) = F32.lit 0 1 /\
    BMS.m_wasFull (swing b) = false /\ BMS.m_wasEmpty (swing b) = false /\
    BMS.m_chargeCycles (swing b) = BMS.m_chargeCycles b + F32.lit 5 10.
Proof.
  intros b Hacc Hf He. unfold swing.
  set (b1 := hourTick (F32.lit 5 1) b).
  assert (H1 : BMS.m_accumulatedCharge_mAh b1 = NOMINAL_CAPACITY_MAH /\
               BMS.m_chargeCycles b1 = BMS.m_chargeCycles b /\
               BMS.m_wasFull b1 = true /\ BMS.m_wasEmpty b1 = false).
  { subst b1. unfold hourTick.
    destruct (proj1 (tick_at_the_bounds
                       (F32.lit 3600 1)
                       (constantReadings (F32.lit 37 10) (F32.lit 25 1)
                                         (F32.lit 5 1)) b))
      as (Ha & Hc & Hf' & He').
    { cbn [readCurrent constantReadings].
      destruct Hacc as [-> | ->]; vm_compute; reflexivity. }
    pose proof (health_at_full b) as H. cbv zeta in H. rewrite He in H.
    destruct H as (Xc & Xf & Xe).
    rewrite Hc, Hf', He', Xc, Xf, Xe. auto. }
  destruct H1 as (Ha1 & Hc1 & Hf1 & He1).
  unfold hourTick at 1 2 3 4.
  destruct (proj2 (tick_at_the_bounds
                     (F32.lit 3600 1)
                     (constantReadings (F32.lit 37 10) (F32.lit 25 1)
                                       (- F32.lit 25 1)) b1))
    as (Ha & Hc & Hf' & He').
  { cbn [readCurrent constantReadings]. rewrite Ha1.
    vm_compute. reflexivity. }
  { cbn [readCurrent constantReadings]. rewrite Ha1.
    vm_compute. reflexivity. }
  pose proof (health_at_empty b1) as H. cbv zeta in H. rewrite Hf1 in H.
  destruct H as (Xc & Xf & Xe).
  rewrite Ha, Hc, Hf', He', Xc, Xf, Xe, Hc1. auto.
Qed.

Lemma swings_succ : forall n, swings (N.succ n) = swing (swings n).
Proof. intros n. unfold swings. apply N.iter_succ. Qed.

(** The program after [n] swings, up to [2^24] of them: the counter
    holds [n / 2]. *)
Lemma swings_count : forall n,
    (n <= 16777216)%N ->
    reachable (swings n) /\
    (BMS.m_accumulatedCharge_mAh (swings n)
     = BMS.m_accumulatedCharge_mAh BMS.init \/
     BMS.m_accumulatedCharge_mAh (swings n) = F32.lit 0 1) /\
    BMS.m_wasFull (swings n) = false /\
    BMS.m_wasEmpty (swings n) = false /\
    BMS.m_chargeCycles (swings n) = halves (Z.of_N n).
Proof.
  induction n as [|n IH] using N.peano_ind; intros Hn.
  - split; [apply reachable_init|]. repeat split; auto.
  - destruct (IH ltac:(lia)) as (Hr & Ha & Hf & He & Hc).
    rewrite swings_succ.
    destruct (swing_fields (swings n) Ha Hf He) as (Ya & Yf & Ye & Yc).
    split; [unfold swing, hourTick; do 2 apply reachable_update; exact Hr|].
    split; [right; exact Ya|]. split; [exact Yf|]. split; [exact Ye|].
    rewrite Yc, Hc, N2Z.inj_succ. apply halves_add_all. lia.
Qed.


(** [C6]: take a run of [updateSoH] calls that starts with the empty
    latch clear and finds states of charge above the empty threshold
    (10), one of them at or above the full threshold (98), and then a
    call that finds a state of charge at or below 10.  After every call
    of the run the counter is still the initial one, and it stays so if
    the last call never comes; the last call does one [+= 0.5f] and
    leaves both latches clear.  On a count [k / 2] below 8388608 cycles
    the [+= 0.5f] adds exactly one half, [2^148] units of [2^-149]; on
    the count 8388608 it changes nothing.  The program reaches no other
    count: in every reachable state the counter holds [k / 2] for some
    [k] from 0 to 16777216. *)
Theorem C6_half_cycle_counted_once_when_both_latched :
  forall b socs socEmpty,
    BMS.m_wasEmpty b = false ->
    Forall (fun soc => (soc <= SOC_EMPTY_THRESHOLD_PERCENT) = false) socs ->
    (forall n,
        BMS.m_chargeCycles (healthRun (firstn n socs) b)
        = BMS.m_chargeCycles b) /\
    (Exists (fun soc => (soc >= SOC_FULL_THRESHOLD_PERCENT) = true) socs ->
     (socEmpty <= SOC_EMPTY_THRESHOLD_PERCENT) = true ->
     let b1 := healthRun socs b in
     let b2 := healthCall socEmpty b1 in
     BMS.m_wasFull b1 = true /\ BMS.m_wasEmpty b1 = false /\
     BMS.m_chargeCycles b2 = BMS.m_chargeCycles b + F32.lit 5 10 /\
     BMS.m_wasFull b2 = false /\ BMS.m_wasEmpty b2 = false /\
     (forall k,
         (0 <= k < 16777216)%Z -> BMS.m_chargeCycles b = halves k ->
         BMS.m_chargeCycles b2 = halves (k + 1) /\
         inUnits (BMS.m_chargeCycles b) = Some (k * 2 ^ 148)%Z /\
         inUnits (BMS.m_chargeCycles b2) = Some (k * 2 ^ 148 + 2 ^ 148)%Z) /\
     (BMS.m_chargeCycles b = halves 16777216 ->
      BMS.m_chargeCycles b2 = BMS.m_chargeCycles b)) /\
    (reachable b ->
     exists k, (0 <= k <= 16777216)%Z /\ BMS.m_chargeCycles b = halves k).
Proof.
  intros b socs socEmpty He Hall. split; [|split].
  - intros n.
    apply (healthRun_above_empty (firstn n socs) b He).
    now apply Forall_firstn.
  - intros Hex HsE. cbv zeta.
    destruct (healthRun_above_empty socs b He Hall) as (Hc & He1 & Hf1).
    specialize (Hf1 (or_intror Hex)).
    unfold healthCall.
    pose proof (updateSoH_latches (setSoC socEmpty (healthRun socs b))) as H.
    simpl in H. rewrite HsE, Hf1 in H.
    assert (H1 : BMS.m_chargeCycles
                   (fst (BMS.updateSoH (setSoC socEmpty (healthRun socs b))))
                 = BMS.m_chargeCycles b + F32.lit 5 10
                 /\ BMS.m_wasFull
                      (fst (BMS.updateSoH (setSoC socEmpty (healthRun socs b))))
                    = false
                 /\ BMS.m_wasEmpty
                      (fst (BMS.updateSoH (setSoC socEmpty (healthRun socs b))))
                    = false).
    { destruct (socEmpty >= SOC_FULL_THRESHOLD_PERCENT); simpl in H;
        destruct H as (H1 & H2 & H3); rewrite H1, Hc; auto. }
    destruct H1 as (H1 & H2 & H3).
    split; [exact Hf1|]. split; [exact He1|]. split; [exact H1|].
    split; [exact H2|]. split; [exact H3|]. split.
    + intros k Hk Hb. rewrite H1, Hb, halves_add_all by assumption.
      split; [reflexivity|].
      rewrite !halves_units by lia. split; [reflexivity|].
      f_equal. ring.
    + intros Hb. rewrite H1, Hb. exact halves_saturated.
  - apply reachable_count.
Qed.

(** From the constructed state: 50, 99, 60, then 5. *)
Lemma C6_witness :
  (forall n,
      BMS.m_chargeCycles
        (healthRun (firstn n [F32.lit 50 1; F32.lit 99 1; F32.lit 60 1])
                   BMS.init)
      = BMS.m_chargeCycles BMS.init) /\
  (let b1 := healthRun [F32.lit 50 1; F32.lit 99 1; F32.lit 60 1] BMS.init in
   let b2 := healthCall (F32.lit 5 1) b1 in
   BMS.m_wasFull b1 = true /\ BMS.m_wasEmpty b1 = false /\
   BMS.m_chargeCycles b2 = BMS.m_chargeCycles BMS.init + F32.lit 5 10 /\
   BMS.m_wasFull b2 = false /\ BMS.m_wasEmpty b2 = false /\
   BMS.m_chargeCycles b2 = halves (0 + 1) /\
   inUnits (BMS.m_chargeCycles BMS.init) = Some (0 * 2 ^ 148)%Z /\
   inUnits (BMS.m_chargeCycles b2) = Some (0 * 2 ^ 148 + 2 ^ 148)%Z) /\
  exists k,
    (0 <= k <= 16777216)%Z /\ BMS.m_chargeCycles BMS.init = halves k.
Proof.
  assert (Hall : Forall (fun soc => (soc <= SOC_EMPTY_THRESHOLD_PERCENT) = false)
                        [F32.lit 50 1; F32.lit 99 1; F32.lit 60 1])
    by (repeat constructor).
  destruct (C6_half_cycle_counted_once_when_both_latched
              BMS.init [F32.lit 50 1; F32.lit 99 1; F32.lit 60 1]
              (F32.lit 5 1) eq_refl Hall)
    as (Hrun & Hlast & Hreach).
  split; [exact Hrun|].
  assert (Hex : Exists (fun soc => (soc >= SOC_FULL_THRESHOLD_PERCENT) = true)
                       [F32.lit 50 1; F32.lit 99 1; F32.lit 60 1])
    by (apply Exists_cons_tl, Exists_cons_hd; reflexivity).
  destruct (Hlast Hex eq_refl) as (W1 & W2 & W3 & W4 & W5 & W6 & _).
  destruct (W6 0%Z ltac:(lia) eq_refl) as (V1 & V2 & V3).
  split; [|exact (Hreach reachable_init)].
  exact (conj W1 (conj W2 (conj W3 (conj W4 (conj W5
           (conj V1 (conj V2 V3))))))).
Defined.

(** A state whose counter holds 8388608, with both latches clear: a run
    that finds a full pack and then an empty one sets both latches, the
    call clears them, and the counter is what it was. *)
Lemma stuck_run : forall b,
    BMS.m_chargeCycles b = halves 16777216 ->
    BMS.m_wasFull b = false -> BMS.m_wasEmpty b = false ->
    inUnits (BMS.m_chargeCycles b) = Some (16777216 * 2 ^ 148)%Z /\
    (let b1 := healthRun [F32.lit 100 1] b in
     let b2 := healthCall (F32.lit 0 1) b1 in
     (F32.lit 100 1 >= SOC_FULL_THRESHOLD_PERCENT) = true /\
     (F32.lit 100 1 <= SOC_EMPTY_THRESHOLD_PERCENT) = false /\
     (F32.lit 0 1 <= SOC_EMPTY_THRESHOLD_PERCENT) = true /\
     BMS.m_wasFull b1 = true /\ BMS.m_wasEmpty b1 = false /\
     BMS.m_wasFull b2 = false /\ BMS.m_wasEmpty b2 = false /\
     BMS.m_chargeCycles b2 = BMS.m_chargeCycles b /\
     inUnits (BMS.m_chargeCycles b2)
     <> Some (16777216 * 2 ^ 148 + 2 ^ 148)%Z).
Proof.
  intros b Hc Hf He.
  assert (Hu : inUnits (BMS.m_chargeCycles b) = Some (16777216 * 2 ^ 148)%Z).
  { rewrite Hc. apply halves_units. lia. }
  split; [exact Hu|].
  cbv zeta. cbn [healthRun].
  pose proof (health_at_full b) as H1. cbv zeta in H1.
  rewrite He in H1. destruct H1 as (Xc & Xf & Xe).
  pose proof (health_at_empty (healthCall (F32.lit 100 1) b)) as H2.
  cbv zeta in H2. rewrite Xf in H2. destruct H2 as (Yc & Yf & Ye).
  assert (Hsame : BMS.m_chargeCycles
                    (healthCall (F32.lit 0 1) (healthCall (F32.lit 100 1) b))
                  = BMS.m_chargeCycles b).
  { rewrite Yc, Xc, Hc. exact halves_saturated. }
  split; [reflexivity|]. split; [reflexivity|]. split; [reflexivity|].
  split; [exact Xf|]. split; [exact Xe|].
  split; [exact Yf|]. split; [exact Ye|]. split; [exact Hsame|].
  rewrite Hsame, Hu. intros H. injection H. lia.
Qed.

Lemma stuck_swing : forall b,
    BMS.m_accumulatedCharge_mAh b = BMS.m_accumulatedCharge_mAh BMS.init \/
    BMS.m_accumulatedCharge_mAh b = F32.lit 0 1 ->
    BMS.m_chargeCycles b = halves 16777216 ->
    BMS.m_wasFull b = false -> BMS.m_wasEmpty b = false ->
    BMS.m_chargeCycles (swing b) = BMS.m_chargeCycles b.
Proof.
  intros b Ha Hc Hf He.
  destruct (swing_fields b Ha Hf He) as (_ & _ & _ & Yc).
  rewrite Yc, Hc. exact halves_saturated.
Qed.

(** [C6] at the last count: after [2^24] swings the program is in a
    state where the counter holds 8388608.  A run from it that finds a
    full pack and then an empty one sets both latches, the call clears
    them, and the counter is what it was, not one half more; so it is
    after one more swing of the program. *)
Lemma C6_counter_stuck_at_2_pow_23 :
  let b := swings 16777216 in
  reachable b /\
  BMS.m_wasFull b = false /\ BMS.m_wasEmpty b = false /\
  (inUnits (BMS.m_chargeCycles b) = Some (16777216 * 2 ^ 148)%Z /\
   (let b1 := healthRun [F32.lit 100 1] b in
    let b2 := healthCall (F32.lit 0 1) b1 in
    (F32.lit 100 1 >= SOC_FULL_THRESHOLD_PERCENT) = true /\
    (F32.lit 100 1 <= SOC_EMPTY_THRESHOLD_PERCENT) = false /\
    (F32.lit 0 1 <= SOC_EMPTY_THRESHOLD_PERCENT) = true /\
    BMS.m_wasFull b1 = true /\ BMS.m_wasEmpty b1 = false /\
    BMS.m_wasFull b2 = false /\ BMS.m_wasEmpty b2 = false /\
    BMS.m_chargeCycles b2 = BMS.m_chargeCycles b /\
    inUnits (BMS.m_chargeCycles b2)
    <> Some (16777216 * 2 ^ 148 + 2 ^ 148)%Z)) /\
  BMS.m_chargeCycles (swing b) = BMS.m_chargeCycles b.
Proof.
  intros b.
  pose proof (swings_count 16777216 ltac:(lia)) as H.
  change (swings 16777216) with b in H.
  change (Z.of_N 16777216) with 16777216%Z in H.
  clearbody b. destruct H as (Hr & Ha & Hf & He & Hc).
  split; [exact Hr|]. split; [exact Hf|]. split; [exact He|].
  split; [exact (stuck_run b Hc Hf He) | exact (stuck_swing b Ha Hc Hf He)].
Qed.

End ExactCycles.

(** ** Runs on the simulator *)

Section SimulatedRuns.

Local Open Scope f32_scope.

(** Rounding a nonnegative significand gives a zero, a finite number or
    an infinity of the sign asked for, of an exponent at most one above
    the larger of the exponent given and the one the digits call for. *)
Lemma round_any_bounded : forall sx mz ez lz,
    (0 <= mz)%Z ->
    exists m e,
      (0 <= m)%Z /\
      (e <= Z.max ez (Z.max (Zdigits2 mz + ez - 24) (-149)) + 1)%Z /\
      binary_round_aux F32.prec F32.emax sx mz ez lz = finish sx m e.
Proof.
  intros sx mz ez lz Hmz.
  assert (Hr : binary_round_aux F32.prec F32.emax sx mz ez lz
               = let '(mrs', e') := shr_fexp F32.prec F32.emax mz ez lz in
                 let '(mrs'', e'') :=
                   shr_fexp F32.prec F32.emax
                     (round_nearest_even (shr_m mrs') (loc_of_shr_record mrs'))
                     e' loc_Exact in
                 finish sx (shr_m mrs'') e'').
  { unfold binary_round_aux, finish.
    destruct (shr_fexp _ _ mz ez lz) as [mrs' e'].
    destruct (shr_fexp _ _ _ e' loc_Exact) as [mrs'' e''].
    reflexivity. }
  rewrite Hr. clear Hr.
  destruct (Zdigits2_bound mz Hmz) as [Hd0 Hd].
  unfold shr_fexp at 1. rewrite fexp_eq.
  set (B := (Z.max ez (Z.max (Zdigits2 mz + ez - 24) (-149)) + 1)%Z).
  assert (HB : (ez + 1 <= B /\ Z.max (Zdigits2 mz + ez - 24) (-149) + 1 <= B)%Z)
    by (subst B; lia).
  clearbody B.
  set (n := (Z.max (Zdigits2 mz + ez - 24) (-149) - ez)%Z).
  assert (Hn' : n = (Z.max (Zdigits2 mz + ez - 24) (-149) - ez)%Z)
    by reflexivity.
  assert (Hstage : forall m1 e1,
             (-149 <= e1)%Z -> (0 <= m1 <= 2 ^ 24)%Z -> (e1 + 1 <= B)%Z ->
             exists m e,
               (0 <= m)%Z /\ (e <= B)%Z /\
               (let '(mrs, e0) := shr_fexp F32.prec F32.emax m1 e1 loc_Exact in
                finish sx (shr_m mrs) e0) = finish sx m e).
  { intros m1 e1 He1 Hm1 HeB. rewrite round_second_stage by assumption.
    destruct (m1 <? 2 ^ 24)%Z.
    - exists m1, e1. split; [lia | split; [lia | reflexivity]].
    - exists (2 ^ 23)%Z, (e1 + 1)%Z. split; [lia | split; [lia | reflexivity]]. }
  destruct (Z.leb_spec n 0) as [Hn | Hn].
  - rewrite shr_nonpos by assumption.
    rewrite shr_record_of_loc_m.
    destruct (round_nearest_even_cases mz
                (loc_of_shr_record (shr_record_of_loc mz lz))) as [-> | ->];
      apply Hstage; try lia.
    + assert (mz < 2 ^ 24)%Z; [|lia].
      eapply Z.lt_le_trans; [exact Hd|]. apply Z.pow_le_mono_r; lia.
    + assert (mz < 2 ^ 24)%Z; [|lia].
      eapply Z.lt_le_trans; [exact Hd|]. apply Z.pow_le_mono_r; lia.
  - clearbody n. destruct n as [|pn|pn]; try lia. unfold shr.
    set (mrs' := iter_pos shr_1 pn _).
    assert (Hq : shr_m mrs' = (mz / 2 ^ Z.pos pn)%Z).
    { subst mrs'. rewrite iter_shr_1_m; rewrite shr_record_of_loc_m;
        [reflexivity | assumption]. }
    assert (Hb : (0 <= mz / 2 ^ Z.pos pn < 2 ^ 24)%Z).
    { pose proof (pow2_pos (Z.pos pn) ltac:(lia)) as Hp.
      split; [apply Z.div_pos; lia|].
      apply Z.div_lt_upper_bound; [lia|].
      rewrite <- Z.pow_add_r by lia.
      eapply Z.lt_le_trans; [exact Hd|].
      apply Z.pow_le_mono_r; lia. }
    destruct (round_nearest_even_cases (shr_m mrs') (loc_of_shr_record mrs'))
      as [-> | ->]; rewrite Hq; apply Hstage; lia.
Qed.

Lemma finish_number : forall sx m e,
    (0 <= m)%Z -> (e <= 104)%Z -> isNumber (finish sx m e) = true.
Proof.
  intros sx [|p|p] e Hm He; try lia; unfold finish; [reflexivity|].
  unfold F32.emax, F32.prec.
  destruct (Z.leb_spec e (128 - 24)); [reflexivity | lia].
Qed.

Lemma Zdigits2_le : forall q k,
    (0 <= q < 2 ^ k)%Z -> (0 <= k)%Z -> (Zdigits2 q <= k)%Z.
Proof.
  intros [|p|p] k Hq Hk; cbn [Zdigits2]; try lia.
  destruct (digits2_pos_bounds p) as [Dlo _].
  assert (Z.pos (digits2_pos p) - 1 < k)%Z; [|lia].
  apply (Z.pow_lt_mono_r_iff 2); lia.
Qed.

(** A product of two binary32 numbers of exponents that add up to at
    most 56 does not overflow. *)
Lemma mul_small_number : forall s m e s' m' e',
    (Z.pos m < 2 ^ 24)%Z -> (Z.pos m' < 2 ^ 24)%Z -> (e + e' <= 56)%Z ->
    isNumber (S754_finite s m e * S754_finite s' m' e') = true.
Proof.
  intros s m e s' m' e' Hm Hm' He. unfold F32.mul, SFmul.
  destruct (round_any_bounded (xorb s s') (Z.pos (m * m')) (e + e') loc_Exact
              ltac:(lia)) as (r & er & Hr & Her & ->).
  apply finish_number; [exact Hr|].
  assert (Hd : (Zdigits2 (Z.pos (m * m')) <= 48)%Z).
  { apply Zdigits2_le; [|lia]. rewrite Pos2Z.inj_mul.
    change (2 ^ 48)%Z with (2 ^ 24 * 2 ^ 24)%Z. nia. }
  lia.
Qed.

(** The elapsed hours of a tick length that is a number are a number. *)
Lemma hours_number : forall dt,
    tickLength dt = true -> isNumber (dt / F32.lit 3600 1) = true.
Proof.
  intros dt H. unfold tickLength in H.
  apply andb_true_iff in H. destruct H as [Hv Hn].
  rewrite lit_3600.
  destruct dt as [s|s| |s m e]; try discriminate Hn; [reflexivity|].
  destruct (canonic_valid _ _ _ Hv) as [Hc He].
  destruct (canonic_facts m e Hc) as (He0 & Hm & _).
  unfold F32.div, SFdiv, SFdiv_core_binary.
  cbn [Zdigits2].
  change (Z.pos (digits2_pos 14745600)) with 24%Z.
  set (d1 := Z.pos (digits2_pos m)).
  assert (Hd1 : (1 <= d1 <= 24)%Z).
  { destruct (digits2_pos_bounds m) as [Dlo _]. fold d1 in Dlo.
    assert (d1 - 1 < 24)%Z; [|subst d1; lia].
    apply (Z.pow_lt_mono_r_iff 2); lia. }
  rewrite fexp_eq.
  set (e' := Z.min _ _).
  assert (He' : (e' <= e + 12 /\ e' <= Z.max (d1 + e - 36) (-149))%Z)
    by (subst e'; lia).
  clearbody e'.
  set (sh := (e - -12 - e')%Z).
  assert (Hsh : (0 <= sh)%Z) by (subst sh; lia).
  assert (Hsh' : sh = (e + 12 - e')%Z) by (subst sh; lia).
  clearbody sh.
  set (m1 := match sh with
             | Z0 => Z.pos m
             | Z.pos _ => Z.shiftl (Z.pos m) sh
             | Z.neg _ => 0%Z
             end).
  assert (Hm1 : (m1 = Z.pos m * 2 ^ sh)%Z).
  { subst m1. destruct sh as [|p|p]; try lia.
    rewrite Z.shiftl_mul_pow2 by lia. reflexivity. }
  clearbody m1.
  pose proof (Z.div_pos m1 14745600 ltac:(nia) ltac:(lia)) as Hq.
  set (k := Z.max 0 (d1 + sh - 23)).
  assert (Hk0 : (0 <= k /\ d1 + sh - 23 <= k <= Z.max 0 (d1 + sh - 23))%Z)
    by (subst k; lia).
  clearbody k.
  assert (Hqd : (m1 / 14745600 < 2 ^ k)%Z).
  { apply Z.div_lt_upper_bound; [lia|].
    destruct (digits2_pos_bounds m) as [_ Dhi]. fold d1 in Dhi.
    assert (Hp : (0 < 2 ^ sh)%Z) by (apply Z.pow_pos_nonneg; lia).
    assert (Hk : (0 < 2 ^ k)%Z) by (apply Z.pow_pos_nonneg; lia).
    assert (H1 : (m1 < 2 ^ (d1 + sh))%Z).
    { rewrite Hm1, Z.pow_add_r by lia.
      apply Z.mul_lt_mono_pos_r; assumption. }
    assert (H2 : (2 ^ (d1 + sh) <= 2 ^ (23 + k))%Z)
      by (apply Z.pow_le_mono_r; lia).
    rewrite (Z.pow_add_r 2 23 k) in H2 by lia.
    change (2 ^ 23)%Z with 8388608%Z in H2. lia. }
  unfold Z.div in Hq, Hqd.
  destruct (Z.div_eucl m1 14745600) as [q r].
  destruct (round_any_bounded (xorb s false) q e'
              (new_location 14745600 r) Hq)
    as (mr & er & Hr & Her & ->).
  apply finish_number; [exact Hr|].
  pose proof (Zdigits2_le q k ltac:(lia) ltac:(lia)) as Hdq.
  lia.
Qed.


(** A current of the simulator's range is a zero or a number below
    32 A in magnitude. *)
Lemma currentDraw_small : forall i,
    currentDraw i = true ->
    (exists s, i = S754_zero s) \/
    (exists s m e, i = S754_finite s m e /\
                   (Z.pos m < 2 ^ 24)%Z /\ (e <= -19)%Z).
Proof.
  intros i H. unfold currentDraw in H.
  apply andb_true_iff in H. destruct H as [H Hle].
  apply andb_true_iff in H. destruct H as [Hv Hge].
  unfold SIM_CURRENT_MIN in Hge. unfold SIM_CURRENT_MAX in Hle.
  destruct i as [s|s| |s m e].
  - left. now exists s.
  - destruct s; discriminate.
  - discriminate.
  - right. exists s, m, e.
    destruct (canonic_valid _ _ _ Hv) as [Hc _].
    destruct (canonic_facts m e Hc) as (_ & Hm & _).
    split; [reflexivity | split; [exact Hm|]].
    destruct s.
    + rewrite ge_nn in Hge. apply orb_true_iff in Hge.
      destruct Hge as [Hge | Hge]; [apply Z.ltb_lt in Hge; lia|].
      apply andb_true_iff in Hge. destruct Hge as [Hge _].
      apply Z.eqb_eq in Hge. lia.
    + rewrite le_pp in Hle. apply orb_true_iff in Hle.
      destruct Hle as [Hle | Hle]; [apply Z.ltb_lt in Hle; lia|].
      apply andb_true_iff in Hle. destruct Hle as [Hle _].
      apply Z.eqb_eq in Hle. lia.
Qed.

(** Whatever the simulator returns as the pack current, its thousandfold
    is a number. *)
Lemma simulator_current_number :
  forall (G : Type) (D : SensorSimulator.Distributions G),
    (forall g, currentDraw (fst (SensorSimulator.m_currentDist D g)) = true) ->
    (forall g, unitDraw (fst (SensorSimulator.m_faultDist D g)) = true) ->
    forall g,
      isNumber (fst (fst (SensorSimulator.readCurrent D g)) * F32.lit 1000 1)
      = true.
Proof.
  intros G D Hc Hf g. unfold SensorSimulator.readCurrent.
  pose proof (Hc g) as H1.
  destruct (SensorSimulator.m_currentDist D g) as [current g1].
  destruct (SensorSimulator.m_faultDist D g1) as [chance g2].
  rewrite lit_1000.
  destruct (chance < SIM_FAULT_PROBABILITY).
  - destruct (SensorSimulator.m_faultDist D g2) as [fault_val g3].
    pose proof (Hf g3) as H3.
    destruct (SensorSimulator.m_faultDist D g3) as [d g4].
    cbn [fst] in *.
    destruct (fault_val < F32.lit 33 100);
      [|destruct (fault_val < F32.lit 66 100)]; cbn [fst].
    + destruct (inject_discharge d H3) as (m & -> & Hm).
      cbn [F32.neg SFopp]. apply mul_small_number; lia.
    + destruct (inject_charge d H3) as (m & -> & Hm).
      apply mul_small_number; lia.
    + destruct (d < F32.lit 5 10); vm_compute; reflexivity.
  - cbn [fst] in *.
    destruct (currentDraw_small current H1)
      as [[s ->] | (s & m & e & -> & Hm & He)].
    + reflexivity.
    + apply mul_small_number; lia.
Qed.

Lemma simulatedRun_cons :
  forall (G : Type) (D : SensorSimulator.Distributions G) dt rest b g,
    simulatedRun D (dt :: rest) b g
    = simulatedRun D rest (fst (fst (simulatedUpdate D dt b g)))
                   (snd (fst (simulatedUpdate D dt b g))).
Proof.
  intros G D dt rest b g. cbn [simulatedRun].
  destruct (simulatedUpdate D dt b g) as [[b' g'] out]. reflexivity.
Qed.

(** A run on the simulator from a reachable state whose accumulated
    charge is a number ends in such a state, with the accumulated charge
    and the state of charge within their bounds. *)
Lemma simulatedRun_in_range :
  forall (G : Type) (D : SensorSimulator.Distributions G),
    (forall g, currentDraw (fst (SensorSimulator.m_currentDist D g)) = true) ->
    (forall g, unitDraw (fst (SensorSimulator.m_faultDist D g)) = true) ->
    forall dts b g,
      Forall (fun dt => tickLength dt = true) dts ->
      reachable b ->
      isNumber (BMS.m_accumulatedCharge_mAh b) = true /\
      (BMS.m_accumulatedCharge_mAh b >= F32.lit 0 1) = true /\
      (BMS.m_accumulatedCharge_mAh b <= NOMINAL_CAPACITY_MAH) = true /\
      (BMS.getSoC b >= F32.lit 0 1) = true /\
      (BMS.getSoC b <= F32.lit 100 1) = true ->
      let b' := fst (simulatedRun D dts b g) in
      reachable b' /\
      isNumber (BMS.m_accumulatedCharge_mAh b') = true /\
      (BMS.m_accumulatedCharge_mAh b' >= F32.lit 0 1) = true /\
      (BMS.m_accumulatedCharge_mAh b' <= NOMINAL_CAPACITY_MAH) = true /\
      (BMS.getSoC b' >= F32.lit 0 1) = true /\
      (BMS.getSoC b' <= F32.lit 100 1) = true.
Proof.
  intros G D Hc Hf dts.
  induction dts as [|dt rest IH]; intros b g Hall Hr Hb; cbv zeta.
  - split; assumption.
  - inversion Hall as [|? ? Hdt Hrest]; subst.
    rewrite simulatedRun_cons.
    destruct (simulatedUpdate_state G D dt b g) as [-> _].
    apply IH; [exact Hrest | now apply reachable_update |].
    apply tick_in_range; [exact (proj1 Hb)|].
    apply charge_change_not_nan.
    + rewrite readings_current. now apply simulator_current_number.
    + now apply hours_number.
Qed.

(** [C4]: call [update] any number of times, each time with a tick length
    that is a number (positive, zero or negative), the pack current being
    whatever the simulator returns: a draw of its range from -25 A to
    5 A or one of the faults it injects, up to -50 A and 10 A.  After
    every call the accumulated charge lies in [0, 3000] mAh, the state of
    charge in [0, 100] and the state of health in [0, 100]. *)
Theorem C4_charge_and_health_stay_in_range :
  forall (G : Type) (D : SensorSimulator.Distributions G) dts n g,
    (forall g, currentDraw (fst (SensorSimulator.m_currentDist D g)) = true) ->
    (forall g, unitDraw (fst (SensorSimulator.m_faultDist D g)) = true) ->
    Forall (fun dt => tickLength dt = true) dts ->
    let b := fst (simulatedRun D (firstn n dts) BMS.init g) in
    (BMS.m_accumulatedCharge_mAh b >= F32.lit 0 1) = true /\
    (BMS.m_accumulatedCharge_mAh b <= NOMINAL_CAPACITY_MAH) = true /\
    (BMS.getSoC b >= F32.lit 0 1) = true /\
    (BMS.getSoC b <= F32.lit 100 1) = true /\
    (BMS.getSoH b >= F32.lit 0 1) = true /\
    (BMS.getSoH b <= F32.lit 100 1) = true.
Proof.
  intros G D dts n g Hc Hf Hall. cbv zeta.
  destruct (simulatedRun_in_range G D Hc Hf (firstn n dts) BMS.init g)
    as (Hr & _ & H1 & H2 & H3 & H4).
  - now apply Forall_firstn.
  - apply reachable_init.
  - repeat split; vm_compute; reflexivity.
  - destruct (reachable_soh_in_range _ Hr) as [H5 H6].
    repeat split; assumption.
Qed.

Lemma ranged_current_draws :
  forall g, currentDraw (fst (drawBetween (-2500) 500 g)) = true.
Proof.
  apply (drawBetween_checked (-2500) 500 currentDraw); [lia|].
  vm_compute. reflexivity.
Qed.

(** Four ticks: an hour, no time at all, an hour backwards and an hour
    again.  The first reads 3.7 V, 25 C and 5 A; then the generator is
    used up and every read of the other three injects a fault. *)
Lemma C4_witness :
  let b := fst (simulatedRun rangedDistributions
                  (firstn 4 [F32.lit 3600 1; F32.lit 0 1; - F32.lit 3600 1;
                             F32.lit 3600 1])
                  BMS.init
                  [370; 50; 2500; 50; 370; 50; 2500; 50; 370; 50; 2500; 50;
                   370; 50; 2500; 50; 500; 50]%Z) in
  (BMS.m_accumulatedCharge_mAh b >= F32.lit 0 1) = true /\
  (BMS.m_accumulatedCharge_mAh b <= NOMINAL_CAPACITY_MAH) = true /\
  (BMS.getSoC b >= F32.lit 0 1) = true /\
  (BMS.getSoC b <= F32.lit 100 1) = true /\
  (BMS.getSoH b >= F32.lit 0 1) = true /\
  (BMS.getSoH b <= F32.lit 100 1) = true.
Proof.
  apply (C4_charge_and_health_stay_in_range
           (list Z) rangedDistributions
           [F32.lit 3600 1; F32.lit 0 1; - F32.lit 3600 1; F32.lit 3600 1]
           4%nat).
  - exact ranged_current_draws.
  - exact ranged_fault_draws.
  - repeat constructor.
Defined.

End SimulatedRuns.
